(** * Signal lifecycle and trigger state machine of the AI trading server

    A shallow embedding of the signal and trigger stores of
    [mql5_ai_server_v2_3_claude.py] and of the engines that work on them
    (breakeven, outcome, admission, trigger evaluation), followed by the
    properties of the specification stated over that embedding.

    Modelling conventions:
    - a SQLite table is the list of its rows in insertion order; a nullable
      column is an [option];
    - a Python [float] is a rational.  Comparisons of floats are exact, so
      [>=], [<=], [==] are [Qle_bool] and [Qeq_bool].  Every arithmetic
      operation rounds its exact result, and the rounding is a parameter
      [fl : Rounding] of the functions that compute; NaN and infinities are
      not modelled;
    - [datetime] values are integers counting microseconds from
      [datetime.min]; where the code computes a date by arithmetic (the
      expiry of a trigger, the cutoff of a report) the ranges of
      [timedelta] and [datetime] are written out, since leaving them
      raises [OverflowError];
    - the price feed file, the wall clock and the language model are inputs
      of the operations that consult them;
    - Telegram notifications and log lines are not part of the state. *)

From Stdlib Require Import ZArith QArith Qabs Qround Lia Lqa Ascii String.
From stdpp Require Import base gmap strings list.

Open Scope Z_scope.

(** ** Floating point arithmetic *)

Module Float.

(** Rounding of an exact result to a representable number.  IEEE
    round-to-nearest is a function of the value, commutes with negation
    and is monotone. *)
Record Rounding := {
  rnd :> Q -> Q;
  rnd_proper : forall x y, (x == y)%Q -> (rnd x == rnd y)%Q;
  rnd_opp : forall x, (rnd (- x) == - rnd x)%Q;
  rnd_mono : forall x y, (x <= y)%Q -> (rnd x <= rnd y)%Q
}.

(** Arithmetic without rounding error. *)
Definition exact : Rounding.
Proof.
  refine {| rnd := fun x => x |}.
  - intros x y H. exact H.
  - intros x. reflexivity.
  - intros x y H. exact H.
Defined.

Section Ops.
Context (fl : Rounding).

Definition fadd (x y : Q) : Q := fl (x + y)%Q.
Definition fsub (x y : Q) : Q := fl (x - y)%Q.
Definition fmul (x y : Q) : Q := fl (x * y)%Q.
Definition fdiv (x y : Q) : Q := fl (x / y)%Q.
End Ops.

(** [x < y] on floats. *)
Definition Qlt_bool (x y : Q) : bool := negb (Qle_bool y x).

(** Nearest integer, ties to the even one. *)
Definition round_half_even (x : Q) : Z :=
  let f := Qfloor x in
  match (x - inject_Z f ?= 1 # 2)%Q with
  | Lt => f
  | Gt => f + 1
  | Eq => if Z.even f then f else f + 1
  end.

(** Rounding to the nearest multiple of [1/k], ties to even: a rounding
    with a fixed grid, such as binary fixed point for [k] a power of two. *)
Definition grid_round (k : positive) (x : Q) : Q :=
  (inject_Z (round_half_even (x * inject_Z (Z.pos k))) / inject_Z (Z.pos k))%Q.

(** Python's [round(x, 1)]: the decimal with one digit nearest to the
    exact value of [x], ties to even, converted back to a float. *)
Definition round1 (fl : Rounding) (x : Q) : Q :=
  fl (inject_Z (round_half_even (x * 10)) / 10)%Q.

End Float.

Import Float.

(** ** Pip arithmetic *)

Module Pips.

Inductive Decision := BUY | SELL | WAIT.

(** [str.upper] on ASCII letters. *)
Definition upper_ascii (c : ascii) : ascii :=
  let n := nat_of_ascii c in
  if (97 <=? n)%nat && (n <=? 122)%nat then ascii_of_nat (n - 32) else c.

Fixpoint upper (s : string) : string :=
  match s with
  | EmptyString => EmptyString
  | String c s' => String (upper_ascii c) (upper s')
  end.

(** [needle in hay] on strings. *)
Fixpoint contains (needle hay : string) : bool :=
  String.prefix needle hay ||
  match hay with
  | EmptyString => false
  | String _ hay' => contains needle hay'
  end.

Definition any_in (terms : list string) (symbol : string) : bool :=
  existsb (fun t => contains t symbol) terms.

Definition gold_terms : list string := ["XAU"; "GOLD"; "GC"]%string.
Definition jpy_pairs : list string :=
  ["JPY"; "USDJPY"; "EURJPY"; "GBPJPY"; "AUDJPY"]%string.

Definition get_pip_multiplier (symbol : string) : Z :=
  let symbol := upper symbol in
  if any_in gold_terms symbol then 10
  else if any_in jpy_pairs symbol then 100
  else 10000.

Definition calculate_pips (fl : Rounding)
    (entry_price exit_price : Q) (symbol : string) (decision : Decision) : Q :=
  let pip_multiplier := get_pip_multiplier symbol in
  match decision with
  | BUY =>
      let price_diff := fsub fl exit_price entry_price in
      round1 fl (fmul fl price_diff (inject_Z pip_multiplier))
  | SELL =>
      let price_diff := fsub fl entry_price exit_price in
      round1 fl (fmul fl price_diff (inject_Z pip_multiplier))
  | WAIT => 0
  end.

End Pips.

Import Pips.


(** ** The signal store and the engines over it *)

Module Signals.

Inductive Status := ACTIVE | CLOSED.
Inductive Result := WIN | LOSS | BREAKEVEN.
Inductive Impact :=
  NO_BREAKEVEN_USED | NO_IMPACT | SAVED_LOSS | MISSED_PROFIT | REDUCED_PROFIT.

(** One entry of the JSON array in column [stop_modifications]. *)
Record Modification := {
  m_timestamp : Z;
  m_type : string;
  m_trigger_price : Q;
  m_new_stop_loss : Q;
  m_reason : string
}.

(** The descriptive text columns, which no engine reads. *)
Record Narrative := {
  timeframe : string;
  confidence : string;
  risk_reward : string;
  reasoning : string;
  market_structure : string;
  invalidation_criteria : string;
  screenshot_path : string
}.

(** A row of table [signals].  The three price columns of the plan are
    never NULL on a row written by [save_signal_to_db], and the engines
    compare them without a NULL check. *)
Record Signal := {
  id : Z;
  timestamp : Z;
  symbol : string;
  decision : Decision;
  entry_price : Q;
  stop_loss : Q;
  take_profit : Q;
  narrative : Narrative;
  status : Status;
  result : option Result;
  exit_price : option Q;
  exit_timestamp : option Z;
  pnl_pips : option Q;
  duration_minutes : option Z;
  notes : option string;
  original_stop_loss : option Q;
  current_stop_loss : option Q;
  breakeven_triggered : option Z;
  breakeven_timestamp : option Z;
  stop_modifications : list Modification;
  hypothetical_exit_price : option Q;
  hypothetical_result : option Result;
  hypothetical_pnl_pips : option Q;
  breakeven_impact : option Impact
}.

Definition Status_eqb (a b : Status) : bool :=
  match a, b with ACTIVE, ACTIVE | CLOSED, CLOSED => true | _, _ => false end.

Definition is_trade (d : Decision) : bool :=
  match d with BUY | SELL => true | WAIT => false end.

(** The dictionary handed to [save_signal_to_db]. *)
Record SignalData := {
  sd_symbol : string;
  sd_decision : Decision;
  sd_entry : Q;
  sd_sl : Q;
  sd_tp : Q;
  sd_narrative : Narrative
}.

(** AUTOINCREMENT: one more than the largest id in the table. *)
Definition next_id (db : list Signal) : Z :=
  1 + fold_right (fun s m => Z.max (id s) m) 0 db.

Definition new_signal (now : Z) (signal_id : Z) (signal_data : SignalData)
    (screenshot : string) : Signal :=
  {| id := signal_id;
     timestamp := now;
     symbol := sd_symbol signal_data;
     decision := sd_decision signal_data;
     entry_price := sd_entry signal_data;
     stop_loss := sd_sl signal_data;
     take_profit := sd_tp signal_data;
     narrative :=
       {| timeframe := timeframe (sd_narrative signal_data);
          confidence := confidence (sd_narrative signal_data);
          risk_reward := risk_reward (sd_narrative signal_data);
          reasoning := reasoning (sd_narrative signal_data);
          market_structure := market_structure (sd_narrative signal_data);
          invalidation_criteria :=
            invalidation_criteria (sd_narrative signal_data);
          screenshot_path := screenshot |};
     status := ACTIVE;
     result := None;
     exit_price := None;
     exit_timestamp := None;
     pnl_pips := None;
     duration_minutes := None;
     notes := None;
     original_stop_loss := Some (sd_sl signal_data);
     current_stop_loss := Some (sd_sl signal_data);
     breakeven_triggered := Some 0;
     breakeven_timestamp := None;
     stop_modifications := [];
     hypothetical_exit_price := None;
     hypothetical_result := None;
     hypothetical_pnl_pips := None;
     breakeven_impact := None |}.

(** Returns the table and the id of the inserted row. *)
Definition save_signal_to_db (now : Z) (db : list Signal)
    (signal_data : SignalData) (screenshot : string) : list Signal * Z :=
  let signal_id := next_id db in
  (db ++ [new_signal now signal_id signal_data screenshot], signal_id).

(** [SELECT ... WHERE id = ?] followed by [fetchone]. *)
Definition select_by_id (signal_id : Z) (db : list Signal) : option Signal :=
  List.find (fun s => id s =? signal_id) db.

(** [UPDATE signals SET ... WHERE id = ?]. *)
Definition update_by_id (signal_id : Z) (f : Signal -> Signal)
    (db : list Signal) : list Signal :=
  List.map (fun s => if id s =? signal_id then f s else s) db.

(** *** The price feed *)

(** The content of [price_feed.json] with the age of the file in seconds. *)
Record PriceFile := {
  file_age : Q;
  prices : gmap string Q
}.

(** [None] when the file is missing or unreadable. *)
Definition get_current_price (feed : option PriceFile) (symbol : string)
    : option Q :=
  match feed with
  | None => None
  | Some f =>
      if Qlt_bool 300 (file_age f) then None
      else prices f !! symbol
  end.

(** [if not current_price: continue]: [None] and [0.0] are both falsy. *)
Definition usable_price (current_price : option Q) : option Q :=
  match current_price with
  | Some p => if Qeq_bool p 0 then None else Some p
  | None => None
  end.

(** *** Breakeven engine *)

Definition set_breakeven (new_stop_loss : Q) (now : Z)
    (modifications : list Modification) (s : Signal) : Signal :=
  {| id := id s;
     timestamp := timestamp s;
     symbol := symbol s;
     decision := decision s;
     entry_price := entry_price s;
     stop_loss := stop_loss s;
     take_profit := take_profit s;
     narrative := narrative s;
     status := status s;
     result := result s;
     exit_price := exit_price s;
     exit_timestamp := exit_timestamp s;
     pnl_pips := pnl_pips s;
     duration_minutes := duration_minutes s;
     notes := notes s;
     original_stop_loss := original_stop_loss s;
     current_stop_loss := Some new_stop_loss;
     breakeven_triggered := Some 1;
     breakeven_timestamp := Some now;
     stop_modifications := modifications;
     hypothetical_exit_price := hypothetical_exit_price s;
     hypothetical_result := hypothetical_result s;
     hypothetical_pnl_pips := hypothetical_pnl_pips s;
     breakeven_impact := breakeven_impact s |}.

Definition breakeven_record (now : Z) (trigger_price new_stop_loss : Q)
    : Modification :=
  {| m_timestamp := now;
     m_type := "BREAKEVEN";
     m_trigger_price := trigger_price;
     m_new_stop_loss := new_stop_loss;
     m_reason := "Moved to breakeven at 1:1 R/R" |}.

Definition update_stop_loss_to_breakeven (now : Z) (db : list Signal)
    (signal_id : Z) (new_stop_loss trigger_price : Q) : list Signal :=
  match select_by_id signal_id db with
  | None => db
  | Some signal_data =>
      let modifications :=
        stop_modifications signal_data
          ++ [breakeven_record now trigger_price new_stop_loss] in
      update_by_id signal_id (set_breakeven new_stop_loss now modifications) db
  end.

(** The rows selected by [check_breakeven_conditions]. *)
Definition breakeven_pending (s : Signal) : bool :=
  Status_eqb (status s) ACTIVE && is_trade (decision s) &&
  match breakeven_triggered s with Some 0 => true | _ => false end.

(** The price at which the stop moves to the entry, as the loop body
    computes it from the columns [entry_price] and [stop_loss]. *)
Definition breakeven_price (fl : Rounding) (d : Decision)
    (entry original_sl : Q) : option Q :=
  match d with
  | BUY =>
      let risk_distance := fsub fl entry original_sl in
      Some (fadd fl entry risk_distance)
  | SELL =>
      let risk_distance := fsub fl original_sl entry in
      Some (fsub fl entry risk_distance)
  | WAIT => None
  end.

Definition breakeven_reached (fl : Rounding) (d : Decision)
    (entry original_sl current_price : Q) : bool :=
  match d, breakeven_price fl d entry original_sl with
  | BUY, Some price => Qle_bool price current_price
  | SELL, Some price => Qle_bool current_price price
  | _, _ => false
  end.

(** The body of the loop over the selected rows. *)
Definition breakeven_step (fl : Rounding) (feed : option PriceFile) (now : Z)
    (db : list Signal) (signal : Signal) : list Signal :=
  match usable_price (get_current_price feed (symbol signal)) with
  | None => db
  | Some current_price =>
      let entry := entry_price signal in
      let original_sl := stop_loss signal in
      if breakeven_reached fl (decision signal) entry original_sl current_price
      then
        let new_stop_loss := entry in
        update_stop_loss_to_breakeven now db (id signal)
          new_stop_loss current_price
      else db
  end.

Definition check_breakeven_conditions (fl : Rounding)
    (feed : option PriceFile) (now : Z) (db : list Signal) : list Signal :=
  let signals := List.filter breakeven_pending db in
  fold_left (breakeven_step fl feed now) signals db.

(** *** Outcome engine *)

(** Python truthiness of the integer column [breakeven_triggered]. *)
Definition flag_set (flag : option Z) : bool :=
  match flag with
  | Some n => negb (n =? 0)
  | None => false
  end.

Definition Result_eqb (a b : Result) : bool :=
  match a, b with
  | WIN, WIN | LOSS, LOSS | BREAKEVEN, BREAKEVEN => true
  | _, _ => false
  end.

Definition is_result (r : Result) (o : option Result) : bool :=
  match o with Some r' => Result_eqb r' r | None => false end.

Definition calculate_breakeven_impact
    (actual_result hypothetical_result : option Result)
    (actual_pnl hypothetical_pnl : Q) (breakeven_used : option Z) : Impact :=
  if negb (flag_set breakeven_used) then NO_BREAKEVEN_USED
  else
    match hypothetical_result with
    | None => NO_IMPACT
    | Some _ =>
        if is_result BREAKEVEN actual_result
           && is_result LOSS hypothetical_result
        then SAVED_LOSS
        else if is_result BREAKEVEN actual_result
                && is_result WIN hypothetical_result
        then MISSED_PROFIT
        else if is_result WIN actual_result && is_result WIN hypothetical_result
        then
          if Qlt_bool actual_pnl hypothetical_pnl then REDUCED_PROFIT
          else NO_IMPACT
        else NO_IMPACT
    end.

(** The exit test against the stop currently in force. *)
Definition actual_outcome (d : Decision)
    (current_price entry effective_sl tp : Q) : option (Result * Q) :=
  match d with
  | BUY =>
      if Qle_bool tp current_price then Some (WIN, tp)
      else if Qle_bool current_price effective_sl then
        Some (if Qeq_bool effective_sl entry then BREAKEVEN else LOSS,
              effective_sl)
      else None
  | SELL =>
      if Qle_bool current_price tp then Some (WIN, tp)
      else if Qle_bool effective_sl current_price then
        Some (if Qeq_bool effective_sl entry then BREAKEVEN else LOSS,
              effective_sl)
      else None
  | WAIT => None
  end.

(** The exit test against the stop the signal was created with. *)
Definition hypothetical_outcome (d : Decision)
    (current_price original_sl tp : Q) : option (Result * Q) :=
  match d with
  | BUY =>
      if Qle_bool tp current_price then Some (WIN, tp)
      else if Qle_bool current_price original_sl then Some (LOSS, original_sl)
      else None
  | SELL =>
      if Qle_bool current_price tp then Some (WIN, tp)
      else if Qle_bool original_sl current_price then Some (LOSS, original_sl)
      else None
  | WAIT => None
  end.

Definition set_closed (now : Z) (duration : Z)
    (actual_result : Result) (actual_exit actual_pnl : Q)
    (hyp : option (Result * Q)) (hyp_pnl : Q) (impact : Impact)
    (s : Signal) : Signal :=
  {| id := id s;
     timestamp := timestamp s;
     symbol := symbol s;
     decision := decision s;
     entry_price := entry_price s;
     stop_loss := stop_loss s;
     take_profit := take_profit s;
     narrative := narrative s;
     status := CLOSED;
     result := Some actual_result;
     exit_price := Some actual_exit;
     exit_timestamp := Some now;
     pnl_pips := Some actual_pnl;
     duration_minutes := Some duration;
     notes := notes s;
     original_stop_loss := original_stop_loss s;
     current_stop_loss := current_stop_loss s;
     breakeven_triggered := breakeven_triggered s;
     breakeven_timestamp := breakeven_timestamp s;
     stop_modifications := stop_modifications s;
     hypothetical_exit_price := snd <$> hyp;
     hypothetical_result := fst <$> hyp;
     hypothetical_pnl_pips := Some hyp_pnl;
     breakeven_impact := Some impact |}.

Definition minute : Z := 60000000.

(** The duration is [int((now - start).total_seconds() / 60)], which
    truncates towards zero. *)
Definition update_signal_with_hypothetical (now : Z) (db : list Signal)
    (signal_id : Z) (actual_result : Result) (actual_exit actual_pnl : Q)
    (hyp : option (Result * Q)) (hyp_pnl : Q) (impact : Impact)
    : list Signal :=
  match select_by_id signal_id db with
  | None => db
  | Some row =>
      let duration := Z.quot (now - timestamp row) minute in
      update_by_id signal_id
        (set_closed now duration actual_result actual_exit actual_pnl
           hyp hyp_pnl impact) db
  end.

(** The rows selected by the second query of [check_active_signals]. *)
Definition is_active (s : Signal) : bool :=
  Status_eqb (status s) ACTIVE && is_trade (decision s).

(** [COALESCE(current_stop_loss, stop_loss)]. *)
Definition effective_stop (s : Signal) : Q :=
  default (stop_loss s) (current_stop_loss s).

(** [calculate_pips(...) if hypothetical_result and hypothetical_exit_price
    else 0]: an exit price of [0.0] is falsy. *)
Definition hypothetical_pips (fl : Rounding) (entry : Q) (symbol : string)
    (d : Decision) (hyp : option (Result * Q)) : Q :=
  match hyp with
  | Some (_, hypothetical_exit_price) =>
      if Qeq_bool hypothetical_exit_price 0 then 0
      else calculate_pips fl entry hypothetical_exit_price symbol d
  | None => 0
  end.

(** The body of the loop over the active rows. *)
Definition outcome_step (fl : Rounding) (feed : option PriceFile) (now : Z)
    (db : list Signal) (signal : Signal) : list Signal :=
  match usable_price (get_current_price feed (symbol signal)) with
  | None => db
  | Some current_price =>
      let entry := entry_price signal in
      let original_sl := stop_loss signal in
      let effective_sl := effective_stop signal in
      let tp := take_profit signal in
      let d := decision signal in
      let actual := actual_outcome d current_price entry effective_sl tp in
      let hypothetical := hypothetical_outcome d current_price original_sl tp in
      match actual with
      | Some (actual_result, actual_exit_price) =>
          let actual_pnl :=
            calculate_pips fl entry actual_exit_price (symbol signal) d in
          let hypothetical_pnl :=
            hypothetical_pips fl entry (symbol signal) d hypothetical in
          let breakeven_impact :=
            calculate_breakeven_impact (Some actual_result)
              (fst <$> hypothetical) actual_pnl hypothetical_pnl
              (breakeven_triggered signal) in
          update_signal_with_hypothetical now db (id signal)
            actual_result actual_exit_price actual_pnl
            hypothetical hypothetical_pnl breakeven_impact
      | None => db
      end
  end.

(** The second half of [check_active_signals]: exits of the active rows. *)
Definition check_exits (fl : Rounding) (feed : option PriceFile) (now : Z)
    (db : list Signal) : list Signal :=
  let active_signals := List.filter is_active db in
  fold_left (outcome_step fl feed now) active_signals db.

Definition check_active_signals (fl : Rounding) (feed : option PriceFile)
    (now : Z) (db : list Signal) : list Signal :=
  check_exits fl feed now (check_breakeven_conditions fl feed now db).

(** *** Daily admission gate *)

Definition day : Z := 86400000000.

(** [datetime.now().replace(hour=0, minute=0, second=0, microsecond=0)]. *)
Definition today_start (now : Z) : Z := now - now mod day.

(** [datetime.now().replace(hour=23, minute=59, second=59,
    microsecond=999999)]. *)
Definition today_end (now : Z) : Z := today_start now + day - 1.

Definition closed_today (now : Z) (s : Signal) : bool :=
  Status_eqb (status s) CLOSED &&
  (today_start now <=? timestamp s) && (timestamp s <=? today_end now).

Record DailyStats := {
  net_wins : Z;
  wins : Z;
  losses : Z;
  total_trades : Z
}.

(** [SUM(CASE WHEN result = r THEN 1 ELSE 0 END)], with [NULL or 0]. *)
Definition sum_case (r : Result) (rows : list Signal) : Z :=
  fold_right (fun s acc => (if is_result r (result s) then 1 else 0) + acc)
    0 rows.

Definition get_daily_net_wins (now : Z) (db : list Signal) : DailyStats :=
  let rows := List.filter (closed_today now) db in
  let wins := sum_case WIN rows in
  let losses := sum_case LOSS rows in
  {| net_wins := wins - losses;
     wins := wins;
     losses := losses;
     total_trades := Z.of_nat (length rows) |}.

Definition is_risky (s : Signal) : bool :=
  Status_eqb (status s) ACTIVE &&
  match breakeven_triggered s with
  | Some 0 | None => true
  | Some _ => false
  end.

(** The list of risky rows; [risky_count] is its length. *)
Definition get_risky_active_trades (db : list Signal) : list Signal :=
  List.filter is_risky db.

Definition risky_count (db : list Signal) : Z :=
  Z.of_nat (length (get_risky_active_trades db)).

Definition daily_limit : Z := 3.

Definition is_daily_analysis_allowed (now : Z) (db : list Signal) : bool :=
  let net_wins := net_wins (get_daily_net_wins now db) in
  let risky_count := risky_count db in
  if (daily_limit <=? net_wins) && (risky_count =? 0) then false
  else if (daily_limit <=? net_wins) && (0 <? risky_count) then true
  else true.

End Signals.

Import Signals.

(** ** The trigger store and the trigger watcher *)

Module Triggers.

(** JSON values of the fields of a [next_trigger] object. *)
Inductive json :=
  | JNull
  | JBool (b : bool)
  | JInt (n : Z)
  | JFloat (q : Q)
  | JStr (s : string).

Definition is_str (s : string) (j : json) : bool :=
  match j with
  | JStr s' => bool_decide (s' = s)
  | _ => false
  end.

(** [float(v)]; strings that spell a number are not modelled, the prompt
    asks the model for a JSON number. *)
Definition as_float (j : json) : option Q :=
  match j with
  | JInt n => Some (inject_Z n)
  | JFloat q => Some q
  | JBool b => Some (if b then 1 else 0)%Q
  | JNull | JStr _ => None
  end.

Inductive TStatus := PENDING | CONSUMED | EXPIRED | SUPERSEDED | CLEARED.

Definition TStatus_eqb (a b : TStatus) : bool :=
  match a, b with
  | PENDING, PENDING | CONSUMED, CONSUMED | EXPIRED, EXPIRED
  | SUPERSEDED, SUPERSEDED | CLEARED, CLEARED => true
  | _, _ => false
  end.

(** The cached H4 part of the analysis that created the trigger. *)
Record H4Context := {
  trend : option string;
  trade_bias : option string;
  key_levels : list string
}.

(** What [eval_trigger] answers, and what column [fire_reason] holds; the
    constructors stand for the formatted messages of the source. *)
Inductive Reason :=
  | NoPriceData
  | EvalError
  | IsAbove (price level : Q)
  | IsBelow (price level : Q)
  | RetestingBullish (price level : Q)
  | RetestingBearish (price level : Q)
  | NearSupport (price level : Q)
  | NearResistance (price level : Q)
  | TouchingEMA (price level : Q)
  | NotMet (price level : Q)
  | Override (why : string).

(** A row of table [triggers]. *)
Record Trigger := {
  t_id : Z;
  t_symbol : string;
  trigger_json : gmap string json;
  context_json : H4Context;
  playbook : string;
  setup_type : option json;
  expiry_ts : Z;
  t_status : TStatus;
  consumed_at : option Z;
  t_result : option string;
  fire_reason : option Reason
}.

(** The parsed answer of the model, as far as the trigger code reads it. *)
Record Analysis := {
  a_decision : Decision;
  next_trigger : option (gmap string json);
  h4_analysis : H4Context;
  a_playbook : option string
}.

Definition set_status (st : TStatus) (now : Z) (res : option string)
    (why : option Reason) (t : Trigger) : Trigger :=
  {| t_id := t_id t;
     t_symbol := t_symbol t;
     trigger_json := trigger_json t;
     context_json := context_json t;
     playbook := playbook t;
     setup_type := setup_type t;
     expiry_ts := expiry_ts t;
     t_status := st;
     consumed_at := Some now;
     t_result := res;
     fire_reason := why |}.

Definition pending_for (symbol : string) (t : Trigger) : bool :=
  bool_decide (t_symbol t = symbol) && TStatus_eqb (t_status t) PENDING.

(** [UPDATE triggers SET status='SUPERSEDED', consumed_at=?
    WHERE symbol=? AND status='PENDING']. *)
Definition supersede (now : Z) (symbol : string) (db : list Trigger)
    : list Trigger :=
  List.map (fun t =>
    if pending_for symbol t
    then set_status SUPERSEDED now (t_result t) (fire_reason t) t
    else t) db.

Definition tf_minutes (timeframe : json) : Z :=
  if is_str "M15" timeframe then 15
  else if is_str "M30" timeframe then 30
  else if is_str "H1" timeframe then 60
  else if is_str "H4" timeframe then 240
  else 15.

(** The ranges of the Python types, in microseconds.  A [timedelta]
    holds from -999999999 days up to, and not including, 1000000000 days;
    a [datetime], counted from [datetime.min], ends with the year 9999,
    3652059 days later.  Outside them the constructor of [timedelta] and
    the addition of a [timedelta] to a [datetime] raise
    [OverflowError]. *)
Definition timedelta_range (delta : Z) : bool :=
  (-999999999 * day <=? delta) && (delta <? 1000000000 * day).

Definition datetime_range (t : Z) : bool :=
  (0 <=? t) && (t <? 3652059 * day).

(** The microseconds of [timedelta(minutes=tf_minutes * expiry_bars)]
    before the range is checked.  An integer count is exact; a float
    product is rounded to the microsecond; [None] or a string raise. *)
Definition expiry_microseconds (fl : Rounding) (tf_minutes : Z)
    (expiry_bars : json) : option Z :=
  match expiry_bars with
  | JInt n => Some (tf_minutes * n * minute)
  | JBool b => Some (tf_minutes * (if b then 1 else 0) * minute)
  | JFloat q =>
      Some (round_half_even
              (fmul fl (inject_Z tf_minutes) q * inject_Z minute))
  | JNull | JStr _ => None
  end.

(** [timedelta(minutes=tf_minutes * expiry_bars)] in microseconds;
    [None] where the constructor raises. *)
Definition expiry_delta (fl : Rounding) (tf_minutes : Z) (expiry_bars : json)
    : option Z :=
  match expiry_microseconds fl tf_minutes expiry_bars with
  | Some delta => if timedelta_range delta then Some delta else None
  | None => None
  end.

Definition required : list string :=
  ["type"; "timeframe"; "level"; "direction"]%string.

Definition next_trigger_id (db : list Trigger) : Z :=
  1 + fold_right (fun t m => Z.max (t_id t) m) 0 db.

(** Returns the table and whether a trigger was saved.  The expiry is
    computed after the UPDATE that supersedes the pending rows and before
    the INSERT and the commit: when [timedelta] or the addition raises,
    the function returns [False] without commit, rollback or close.  The
    table returned for that path is the committed one, the table before
    the call: SQLite discards the uncommitted UPDATE when the connection
    is released.  Until then the abandoned connection holds the write
    lock of the file; a table as a list of rows does not show that. *)
Definition save_trigger (fl : Rounding) (now : Z) (db : list Trigger)
    (symbol : string) (analysis : Analysis) : list Trigger * bool :=
  match a_decision analysis with
  | WAIT =>
      match next_trigger analysis with
      | None => (db, false)
      | Some next_trigger =>
          if bool_decide (next_trigger = ∅)
             || from_option (is_str "none") false (next_trigger !! "type")
          then (db, false)
          else if negb (forallb (fun field =>
                          bool_decide (is_Some (next_trigger !! field)))
                        required)
          then (db, false)
          else
            let superseded := supersede now symbol db in
            let expiry_bars :=
              default (JInt 8) (next_trigger !! "expiry_bars") in
            let timeframe :=
              default (JStr "M15") (next_trigger !! "timeframe") in
            match expiry_delta fl (tf_minutes timeframe) expiry_bars with
            | None => (db, false)
            | Some delta =>
                let expiry_ts := now + delta in
                if negb (datetime_range expiry_ts) then (db, false)
                else
                  let h4_context := h4_analysis analysis in
                  (superseded ++
                     [ {| t_id := next_trigger_id db;
                          t_symbol := symbol;
                          trigger_json := next_trigger;
                          context_json := h4_context;
                          playbook :=
                            default "unknown" (a_playbook analysis);
                          setup_type := next_trigger !! "type";
                          expiry_ts := expiry_ts;
                          t_status := PENDING;
                          consumed_at := None;
                          t_result := None;
                          fire_reason := None |} ],
                   true)
            end
      end
  | BUY | SELL => (db, false)
  end.

(** Returns the table and the number of rows cleared. *)
Definition clear_pending_triggers (now : Z) (db : list Trigger)
    (symbol : string) (reason : string) : list Trigger * Z :=
  (List.map (fun t =>
     if pending_for symbol t
     then set_status CLEARED now (t_result t) (Some (Override reason)) t
     else t) db,
   Z.of_nat (length (List.filter (pending_for symbol) db))).

(** [SELECT ... WHERE status = 'PENDING' ORDER BY created_at]; rows are
    kept in the order of their creation. *)
Definition get_pending_triggers (db : list Trigger) : list Trigger :=
  List.filter (fun t => TStatus_eqb (t_status t) PENDING) db.

(** [UPDATE triggers SET status=?, consumed_at=?, result=?, fire_reason=?
    WHERE id=?]. *)
Definition mark_trigger_status (now : Z) (db : list Trigger)
    (trigger_id : Z) (st : TStatus) (res : option string)
    (why : option Reason) : list Trigger :=
  List.map (fun t =>
    if t_id t =? trigger_id then set_status st now res why t else t) db.

(** *** Trigger evaluation *)

Record Bar := {
  bar_open : Q;
  bar_high : Q;
  bar_low : Q;
  bar_close : Q
}.

(** A single bar made of the current price; unlike the signal engines,
    the test here is [current_price is None], so [0.0] is a price. *)
Definition get_recent_rates (feed : option PriceFile) (symbol : string)
    : option (list Bar) :=
  match get_current_price feed symbol with
  | None => None
  | Some current_price =>
      Some [ {| bar_open := current_price;
                bar_high := current_price;
                bar_low := current_price;
                bar_close := current_price |} ]
  end.

(** The tolerance around a level: half a pip in price units. *)
Definition slop (fl : Rounding) (symbol : string) : Q :=
  let pip_mult := get_pip_multiplier symbol in
  fdiv fl (1 # 2) (inject_Z pip_mult).

(** [abs(current_price - level) <= slop]. *)
Definition within_slop (fl : Rounding) (symbol : string)
    (current_price level : Q) : bool :=
  Qle_bool (Qabs (fsub fl current_price level)) (slop fl symbol).

(** The branches of [eval_trigger] once price, level, type and direction
    have been read. *)
Definition eval_condition (fl : Rounding) (symbol : string)
    (trigger_type direction : json) (current_price level : Q)
    : bool * Reason :=
  let not_met := (false, NotMet current_price level) in
  if is_str "level_break" trigger_type then
    if is_str "above" direction && Qlt_bool level current_price
    then (true, IsAbove current_price level)
    else if is_str "below" direction && Qlt_bool current_price level
    then (true, IsBelow current_price level)
    else not_met
  else if is_str "retest_hold" trigger_type then
    let at_level := within_slop fl symbol current_price level in
    if is_str "bullish" direction && at_level && Qle_bool level current_price
    then (true, RetestingBullish current_price level)
    else if is_str "bearish" direction && at_level
            && Qle_bool current_price level
    then (true, RetestingBearish current_price level)
    else not_met
  else if is_str "range_edge_reject" trigger_type then
    let at_boundary := within_slop fl symbol current_price level in
    if is_str "bullish" direction && at_boundary
    then (true, NearSupport current_price level)
    else if is_str "bearish" direction && at_boundary
    then (true, NearResistance current_price level)
    else not_met
  else if is_str "ema_retouch" trigger_type then
    let touching_ema := within_slop fl symbol current_price level in
    if touching_ema then (true, TouchingEMA current_price level)
    else not_met
  else not_met.

(** A missing key or a level that is not a number raises, and the handler
    answers not met. *)
Definition eval_trigger (fl : Rounding) (feed : option PriceFile)
    (trigger : gmap string json) (symbol : string) : bool * Reason :=
  match get_recent_rates feed symbol with
  | None | Some [] => (false, NoPriceData)
  | Some (bar :: rates) =>
      match trigger !! "level" ≫= as_float,
            trigger !! "type", trigger !! "direction" with
      | Some level, Some trigger_type, Some direction =>
          let current_bar := List.last rates bar in
          let current_price := bar_close current_bar in
          eval_condition fl symbol trigger_type direction current_price level
      | _, _, _ => (false, EvalError)
      end
  end.

(** *** The watcher cycle *)

(** What one cycle of the watcher sees of the world: the clock, the hour
    of the day, the price feed and the answer of the language model to a
    re-analysis request ([None] when the call fails or its text does not
    parse). *)
Record Env := {
  now : Z;
  hour : Z;
  feed : option PriceFile;
  model : string -> gmap string json -> H4Context -> option Analysis
}.

Definition is_valid_trading_time (env : Env) : bool :=
  (6 <=? hour env) && (hour env <? 20).

Definition is_news_window (symbol : string) : bool := false.

(** The keys read while the prompt is built; a missing one raises. *)
Definition prompt_fields : list string :=
  ["type"; "level"; "direction"; "timeframe"]%string.

Definition re_analyze_with_trigger (env : Env) (symbol : string)
    (trigger : gmap string json) (context : H4Context) : option Analysis :=
  match get_recent_rates (feed env) symbol with
  | None | Some [] => None
  | Some _ =>
      if forallb (fun field => bool_decide (is_Some (trigger !! field)))
           prompt_fields
      then model env symbol trigger context
      else None
  end.

Definition decision_name (d : Decision) : string :=
  match d with BUY => "BUY" | SELL => "SELL" | WAIT => "WAIT" end.

(** The body of the loop of [process_pending_triggers] for one row of the
    list read at the start of the cycle. *)
Definition process_trigger (fl : Rounding) (env : Env) (db : list Trigger)
    (t : Trigger) : list Trigger :=
  let trigger_id := t_id t in
  let symbol := t_symbol t in
  let trigger := trigger_json t in
  let context := context_json t in
  if expiry_ts t <? now env then
    mark_trigger_status (now env) db trigger_id EXPIRED None None
  else if negb (is_valid_trading_time env) then db
  else if is_news_window symbol then db
  else
    let (met, reason) := eval_trigger fl (feed env) trigger symbol in
    if negb met then db
    else
      match re_analyze_with_trigger env symbol trigger context with
      | Some result =>
          let decision := decision_name (a_decision result) in
          mark_trigger_status (now env) db trigger_id CONSUMED
            (Some decision) (Some reason)
      | None =>
          mark_trigger_status (now env) db trigger_id CONSUMED
            (Some "ERROR"%string) (Some reason)
      end.

Definition process_pending_triggers (fl : Rounding) (env : Env)
    (db : list Trigger) : list Trigger :=
  let pending := get_pending_triggers db in
  fold_left (process_trigger fl env) pending db.

(** *** The watcher thread next to the request handler

    The watcher reads the pending rows once per cycle and then works
    through that list, one database transaction per row, while the
    request handler saves and clears triggers in transactions of its
    own.  [snapshot] is what is left of the list the watcher read. *)
Record World := {
  table : list Trigger;
  snapshot : list Trigger
}.

Inductive Event :=
  | Save (at_time : Z) (symbol : string) (analysis : Analysis)
  | Clear (at_time : Z) (symbol : string) (reason : string)
  | Poll
  | Work (env : Env).

Definition step (fl : Rounding) (w : World) (e : Event) : World :=
  match e with
  | Save at_time symbol analysis =>
      {| table := fst (save_trigger fl at_time (table w) symbol analysis);
         snapshot := snapshot w |}
  | Clear at_time symbol reason =>
      {| table := fst (clear_pending_triggers at_time (table w) symbol reason);
         snapshot := snapshot w |}
  | Poll =>
      match snapshot w with
      | [] => {| table := table w;
                 snapshot := get_pending_triggers (table w) |}
      | _ :: _ => w
      end
  | Work env =>
      match snapshot w with
      | [] => w
      | t :: rest =>
          {| table := process_trigger fl env (table w) t;
             snapshot := rest |}
      end
  end.

Definition run (fl : Rounding) (w : World) (events : list Event) : World :=
  fold_left (step fl) events w.

Definition status_of (trigger_id : Z) (db : list Trigger) : option TStatus :=
  t_status <$> List.find (fun t => t_id t =? trigger_id) db.

End Triggers.

Import Triggers.

(** ** The rules of the specification

    Definitions written from the words of the specification, to be
    compared with the functions above. *)

Module Rules.

(** The price has reached a level in the direction of the trade. *)
Definition reached (d : Decision) (price level : Q) : Prop :=
  match d with
  | BUY => (level <= price)%Q
  | SELL => (price <= level)%Q
  | WAIT => False
  end.

(** The price has fallen back to a stop, against the trade. *)
Definition stopped (d : Decision) (price stop : Q) : Prop :=
  match d with
  | BUY => (price <= stop)%Q
  | SELL => (stop <= price)%Q
  | WAIT => False
  end.

(** Exit rule of the outcome engine against a given stop: the target
    wins, else the stop closes at breakeven when it sits at the entry and
    at a loss otherwise. *)
Definition exit_rule (d : Decision) (price entry stop target : Q)
    : option (Result * Q) :=
  match d with
  | BUY =>
      if Qle_bool target price then Some (WIN, target)
      else if Qle_bool price stop
      then Some (if Qeq_bool stop entry then BREAKEVEN else LOSS, stop)
      else None
  | SELL =>
      if Qle_bool price target then Some (WIN, target)
      else if Qle_bool stop price
      then Some (if Qeq_bool stop entry then BREAKEVEN else LOSS, stop)
      else None
  | WAIT => None
  end.

(** The stop lies on the losing side of the entry. *)
Definition protective (d : Decision) (entry stop : Q) : Prop :=
  match d with
  | BUY => (stop <= entry)%Q
  | SELL => (entry <= stop)%Q
  | WAIT => False
  end.

(** Breakeven trigger price: the entry plus the risk distance
    [|entry - original_stop|] in the favourable direction. *)
Definition trigger_by_rule (fl : Rounding) (d : Decision)
    (entry original_stop : Q) : Q :=
  let risk := Qabs (fsub fl entry original_stop) in
  match d with
  | BUY => fadd fl entry risk
  | SELL => fsub fl entry risk
  | WAIT => entry
  end.

(** Classification of the effect of breakeven on a closed trade. *)
Definition impact_by_rule (actual hypothetical : option Result)
    (actual_pnl hypothetical_pnl : Q) (breakeven_used : bool) : Impact :=
  if negb breakeven_used then NO_BREAKEVEN_USED
  else
    match actual, hypothetical with
    | Some BREAKEVEN, Some LOSS => SAVED_LOSS
    | Some BREAKEVEN, Some WIN => MISSED_PROFIT
    | Some WIN, Some WIN =>
        if Qlt_bool actual_pnl hypothetical_pnl then REDUCED_PROFIT
        else NO_IMPACT
    | _, _ => NO_IMPACT
    end.

(** The number of rows of the table that satisfy [P]. *)
Definition count_rows (P : Signal -> bool) (db : list Signal) : Z :=
  Z.of_nat (length (List.filter P db)).

(** Two instants of the same calendar day. *)
Definition same_day (t t' : Z) : bool := t / day =? t' / day.

(** The closed signals with result [r] that were created on the day of
    [now]. *)
Definition created_today_as (r : Result) (now : Z) (db : list Signal) : Z :=
  count_rows (fun s => Status_eqb (status s) CLOSED
                       && same_day (timestamp s) now
                       && is_result r (result s)) db.

(** The closed signals with result [r] whose exit is on the day of
    [now]. *)
Definition exited_today_as (r : Result) (now : Z) (db : list Signal) : Z :=
  count_rows (fun s => Status_eqb (status s) CLOSED
                       && from_option (fun t => same_day t now) false
                            (exit_timestamp s)
                       && is_result r (result s)) db.

(** Risky signals: ACTIVE and not breakeven_triggered, any symbol. *)
Definition risky_signals (db : list Signal) : Z :=
  count_rows (fun s => Status_eqb (status s) ACTIVE
                       && negb (flag_set (breakeven_triggered s))) db.

(** Pip multiplier: 10 with a gold marker in the symbol, 100 for a pair
    quoted in JPY, 10000 otherwise. *)
Definition pip_multiplier_by_rule (symbol : string) : Z :=
  let s := upper symbol in
  if contains "XAU" s || contains "GOLD" s || contains "GC" s then 10
  else if contains "JPY" s then 100
  else 10000.

Definition direction_sign (d : Decision) : Q :=
  match d with BUY => 1 | SELL => - (1) | WAIT => 0 end.

(** [(exit - entry) * pip_multiplier * sign], to one decimal. *)
Definition pips_by_formula (fl : Rounding) (entry exit : Q)
    (symbol : string) (d : Decision) : Q :=
  round1 fl
    (fmul fl (fsub fl exit entry) (inject_Z (pip_multiplier_by_rule symbol))
     * direction_sign d).


(** A run of breakeven passes, each with the feed and the clock it sees. *)
Definition breakeven_passes (fl : Rounding)
    (passes : list (option PriceFile * Z)) (db : list Signal) : list Signal :=
  fold_left (fun db pass =>
               check_breakeven_conditions fl (fst pass) (snd pass) db)
    passes db.

End Rules.

Import Rules.

(** ** The loops, row by row

    What one pass of each engine does to a single row; the passes are
    shown below to be maps of these functions over the table. *)

Module RowWise.

Definition breakeven_row (fl : Rounding) (feed : option PriceFile) (now : Z)
    (s : Signal) : Signal :=
  match usable_price (get_current_price feed (symbol s)) with
  | None => s
  | Some current_price =>
      if breakeven_reached fl (decision s) (entry_price s) (stop_loss s)
           current_price
      then
        set_breakeven (entry_price s) now
          (stop_modifications s
             ++ [breakeven_record now current_price (entry_price s)]) s
      else s
  end.

Definition breakeven_pass_row (fl : Rounding) (feed : option PriceFile)
    (now : Z) (s : Signal) : Signal :=
  if breakeven_pending s then breakeven_row fl feed now s else s.

Definition outcome_row (fl : Rounding) (feed : option PriceFile) (now : Z)
    (s : Signal) : Signal :=
  match usable_price (get_current_price feed (symbol s)) with
  | None => s
  | Some current_price =>
      let d := decision s in
      let hypothetical :=
        hypothetical_outcome d current_price (stop_loss s) (take_profit s) in
      match actual_outcome d current_price (entry_price s)
              (effective_stop s) (take_profit s) with
      | Some (actual_result, actual_exit_price) =>
          let actual_pnl :=
            calculate_pips fl (entry_price s) actual_exit_price (symbol s) d in
          let hypothetical_pnl :=
            hypothetical_pips fl (entry_price s) (symbol s) d hypothetical in
          set_closed now (Z.quot (now - timestamp s) minute)
            actual_result actual_exit_price actual_pnl
            hypothetical hypothetical_pnl
            (calculate_breakeven_impact (Some actual_result)
               (fst <$> hypothetical) actual_pnl hypothetical_pnl
               (breakeven_triggered s))
            s
      | None => s
      end
  end.

Definition outcome_pass_row (fl : Rounding) (feed : option PriceFile)
    (now : Z) (s : Signal) : Signal :=
  if is_active s then outcome_row fl feed now s else s.

Definition is_pending (t : Trigger) : bool :=
  TStatus_eqb (t_status t) PENDING.

Definition watch_row (fl : Rounding) (env : Env) (t : Trigger) : Trigger :=
  if expiry_ts t <? now env then
    set_status EXPIRED (now env) None None t
  else if negb (is_valid_trading_time env) then t
  else if is_news_window (t_symbol t) then t
  else
    let (met, reason) :=
      eval_trigger fl (feed env) (trigger_json t) (t_symbol t) in
    if negb met then t
    else
      match re_analyze_with_trigger env (t_symbol t) (trigger_json t)
              (context_json t) with
      | Some result =>
          set_status CONSUMED (now env)
            (Some (decision_name (a_decision result))) (Some reason) t
      | None =>
          set_status CONSUMED (now env) (Some "ERROR"%string) (Some reason) t
      end.

Definition watch_pass_row (fl : Rounding) (env : Env) (t : Trigger)
    : Trigger :=
  if is_pending t then watch_row fl env t else t.

(** The number of pending triggers of a symbol. *)
Definition pending_count (symbol : string) (db : list Trigger) : nat :=
  length (List.filter (pending_for symbol) db).

(** At most one PENDING trigger per symbol. *)
Definition one_pending (db : list Trigger) : Prop :=
  forall symbol, (pending_count symbol db <= 1)%nat.

(** [row] is [s] after some breakeven passes: the plan is the one of [s],
    and the row is either untouched or has its stop at the entry. *)
Definition evolves (s row : Signal) : Prop :=
  id row = id s /\
  entry_price row = entry_price s /\
  stop_loss row = stop_loss s /\
  take_profit row = take_profit s /\
  original_stop_loss row = original_stop_loss s /\
  (row = s \/
   (breakeven_triggered row = Some 1 /\
    current_stop_loss row = Some (entry_price s))).

End RowWise.

Import RowWise.

(** ** Sample data *)

Module Samples.

Definition plain : Narrative :=
  {| timeframe := "Multi-TF (H4+H1+M15)";
     confidence := "High";
     risk_reward := "2.5:1";
     reasoning := "H4 uptrend, H1 pullback complete";
     market_structure := "";
     invalidation_criteria := "";
     screenshot_path := "" |}.

(** The scenario of the specification: EURUSD bought at 1.1000 with the
    stop at 1.0980 and the target at 1.1050. *)
Definition eurusd_buy : SignalData :=
  {| sd_symbol := "EURUSD";
     sd_decision := BUY;
     sd_entry := 11000 # 10000;
     sd_sl := 10980 # 10000;
     sd_tp := 11050 # 10000;
     sd_narrative := plain |}.

(** A BUY whose stop was given above the entry. *)
Definition eurusd_buy_stop_above : SignalData :=
  {| sd_symbol := "EURUSD";
     sd_decision := BUY;
     sd_entry := 11000 # 10000;
     sd_sl := 11020 # 10000;
     sd_tp := 11050 # 10000;
     sd_narrative := plain |}.

Definition gbpusd_sell : SignalData :=
  {| sd_symbol := "GBPUSD";
     sd_decision := SELL;
     sd_entry := 12500 # 10000;
     sd_sl := 12530 # 10000;
     sd_tp := 12440 # 10000;
     sd_narrative := plain |}.

(** A fresh price file quoting one symbol. *)
Definition quote (symbol : string) (price : Q) : option PriceFile :=
  Some {| file_age := 1; prices := {[ symbol := price ]} |}.

(** The column holds a number equal to [q]. *)
Definition holds (q : Q) (column : option Q) : Prop :=
  match column with
  | Some x => (x == q)%Q
  | None => False
  end.

(** A table holding one signal made from [sd]. *)
Definition one_signal (sd : SignalData) : list Signal :=
  fst (save_signal_to_db 0 [] sd "m15.png").

(** The WAIT answer of the scenario of the specification: watch for a
    bullish retest of 1.0835 on M15, for eight bars. *)
Definition retest_1_0835 : gmap string json :=
  {[ "type" := JStr "retest_hold";
     "timeframe" := JStr "M15";
     "level" := JFloat (10835 # 10000);
     "direction" := JStr "bullish";
     "expiry_bars" := JInt 8 ]}.

Definition no_context : H4Context :=
  {| trend := Some "UPTREND"%string;
     trade_bias := Some "LONG_ONLY"%string;
     key_levels := [] |}.

Definition wait_for (trigger : gmap string json) : Analysis :=
  {| a_decision := WAIT;
     next_trigger := Some trigger;
     h4_analysis := no_context;
     a_playbook := None |}.

(** A range boundary watched with direction [above]. *)
Definition edge_above_1_0850 : gmap string json :=
  {[ "type" := JStr "range_edge_reject";
     "timeframe" := JStr "M15";
     "level" := JFloat (10850 # 10000);
     "direction" := JStr "above" ]}.

(** The range boundary of the third example of the prompt. *)
Definition edge_bearish_1_0850 : gmap string json :=
  {[ "type" := JStr "range_edge_reject";
     "timeframe" := JStr "M15";
     "level" := JFloat (10850 # 10000);
     "direction" := JStr "bearish" ]}.

(** A watch with a timeframe label outside the table and no
    [expiry_bars]. *)
Definition ema_h2_no_expiry : gmap string json :=
  {[ "type" := JStr "ema_retouch";
     "timeframe" := JStr "H2";
     "level" := JFloat (10812 # 10000);
     "direction" := JStr "bullish" ]}.

(** The pending row that saving [retest_1_0835] at time 0 creates. *)
Definition pending_retest : Trigger :=
  {| t_id := 1;
     t_symbol := "EURUSD";
     trigger_json := retest_1_0835;
     context_json := no_context;
     playbook := "unknown";
     setup_type := Some (JStr "retest_hold");
     expiry_ts := 120 * minute;
     t_status := PENDING;
     consumed_at := None;
     t_result := None;
     fire_reason := None |}.

(** A watcher cycle at [now], during trading hours, in which every call
    of the language model fails. *)
Definition model_down (now : Z) (feed : option PriceFile) : Env :=
  {| now := now; hour := 10; feed := feed;
     model := fun _ _ _ => None |}.

End Samples.

Import Samples.

(** ** Admission of a request *)

Module Admission.

(** The dictionary that [has_active_signal] answers when a row exists. *)
Record ActiveSignal := {
  as_signal_id : Z;
  as_decision : Decision;
  as_entry : Q;
  as_sl : Q;
  as_tp : Q;
  as_timestamp : Z
}.

Definition active_for (symbol : string) (s : Signal) : bool :=
  bool_decide (Signals.symbol s = symbol) && is_active s.

(** [ORDER BY timestamp DESC LIMIT 1] over a list of rows: the row with
    the largest value of [key]; among equal values, which SQLite leaves
    open, the earliest row. *)
Fixpoint latest_by (key : Signal -> Z) (rows : list Signal) : option Signal :=
  match rows with
  | [] => None
  | r :: rows' =>
      match latest_by key rows' with
      | Some best => if key r <? key best then Some best else Some r
      | None => Some r
      end
  end.

(** [None] stands for [{'exists': False}]. *)
Definition has_active_signal (db : list Signal) (symbol : string)
    : option ActiveSignal :=
  match latest_by timestamp (List.filter (active_for symbol) db) with
  | Some s =>
      Some {| as_signal_id := id s;
              as_decision := decision s;
              as_entry := entry_price s;
              as_sl := effective_stop s;
              as_tp := take_profit s;
              as_timestamp := timestamp s |}
  | None => None
  end.

Definition hour_us : Z := 3600000000.

Definition closed_for (symbol : string) (s : Signal) : bool :=
  bool_decide (Signals.symbol s = symbol) && Status_eqb (status s) CLOSED
  && bool_decide (is_Some (exit_timestamp s)).

Definition exit_time (s : Signal) : Z := default 0 (exit_timestamp s).

(** The cooldown gate: one hour after the latest exit of the symbol. *)
Definition is_symbol_analysis_allowed (now : Z) (db : list Signal)
    (symbol : string) : bool :=
  match latest_by exit_time (List.filter (closed_for symbol) db) with
  | None => true
  | Some s =>
      let last_exit_time := exit_time s in
      let time_diff := now - last_exit_time in
      if time_diff <? 1 * hour_us then false else true
  end.

(** The answers of the four gates of [analyze_multi_timeframe]. *)
Inductive Gate :=
  | ActiveSignalExists (active : ActiveSignal)
  | InCooldown
  | DailyLimitReached
  | TooManyRisky
  | Passed.

(** The gates in the order of the handler; [blocking] is
    [ENABLE_SIGNAL_BLOCKING]. *)
Definition admission (blocking : bool) (now : Z) (db : list Signal)
    (symbol : string) : Gate :=
  match (if blocking then has_active_signal db symbol else None) with
  | Some active => ActiveSignalExists active
  | None =>
      if negb (is_symbol_analysis_allowed now db symbol) then InCooldown
      else if negb (is_daily_analysis_allowed now db) then DailyLimitReached
      else if 3 <? risky_count db then TooManyRisky
      else Passed
  end.

(** *** Manual close *)

Definition set_result (now duration : Z) (res : Result)
    (exit pnl : Q) (note : option string) (s : Signal) : Signal :=
  {| id := id s;
     timestamp := timestamp s;
     symbol := Signals.symbol s;
     decision := decision s;
     entry_price := entry_price s;
     stop_loss := stop_loss s;
     take_profit := take_profit s;
     narrative := narrative s;
     status := CLOSED;
     result := Some res;
     exit_price := Some exit;
     exit_timestamp := Some now;
     pnl_pips := Some pnl;
     duration_minutes := Some duration;
     notes := note;
     original_stop_loss := original_stop_loss s;
     current_stop_loss := current_stop_loss s;
     breakeven_triggered := breakeven_triggered s;
     breakeven_timestamp := breakeven_timestamp s;
     stop_modifications := stop_modifications s;
     hypothetical_exit_price := hypothetical_exit_price s;
     hypothetical_result := hypothetical_result s;
     hypothetical_pnl_pips := hypothetical_pnl_pips s;
     breakeven_impact := breakeven_impact s |}.

(** Returns the table and whether the update was made; an unknown id
    raises on [fetchone()[0]] and the handler answers [False]. *)
Definition update_signal_result (now : Z) (db : list Signal) (signal_id : Z)
    (res : Result) (exit pnl : Q) (note : option string)
    : list Signal * bool :=
  match select_by_id signal_id db with
  | None => (db, false)
  | Some row =>
      let duration := Z.quot (now - timestamp row) minute in
      (update_by_id signal_id (set_result now duration res exit pnl note) db,
       true)
  end.

(** The answers of the route [/signal/<id>/close]. *)
Inductive CloseAnswer :=
  | CloseRejected
  | SignalNotFound
  | ClosedManually (signal_id : Z) (res : Result) (pnl : Q).

(** [result] and [exit_price] come from the request body; a missing
    result and an exit price that is missing or [0] are refused. *)
Definition close_signal_manually (fl : Rounding) (now : Z) (db : list Signal)
    (signal_id : Z) (res : option Result) (exit : option Q)
    (note : string) : list Signal * CloseAnswer :=
  match res, usable_price exit with
  | Some res, Some exit =>
      match select_by_id signal_id db with
      | None => (db, SignalNotFound)
      | Some signal_data =>
          let pnl :=
            calculate_pips fl (entry_price signal_data) exit
              (Signals.symbol signal_data) (decision signal_data) in
          (fst (update_signal_result now db signal_id res exit pnl (Some note)),
           ClosedManually signal_id res (round1 fl pnl))
      end
  | _, _ => (db, CloseRejected)
  end.

(** *** Migration of rows written before the breakeven columns *)

Definition migrate_row (s : Signal) : Signal :=
  match original_stop_loss s with
  | Some _ => s
  | None =>
      {| id := id s;
         timestamp := timestamp s;
         symbol := Signals.symbol s;
         decision := decision s;
         entry_price := entry_price s;
         stop_loss := stop_loss s;
         take_profit := take_profit s;
         narrative := narrative s;
         status := status s;
         result := result s;
         exit_price := exit_price s;
         exit_timestamp := exit_timestamp s;
         pnl_pips := pnl_pips s;
         duration_minutes := duration_minutes s;
         notes := notes s;
         original_stop_loss := Some (stop_loss s);
         current_stop_loss := Some (stop_loss s);
         breakeven_triggered := breakeven_triggered s;
         breakeven_timestamp := breakeven_timestamp s;
         stop_modifications := stop_modifications s;
         hypothetical_exit_price := hypothetical_exit_price s;
         hypothetical_result := hypothetical_result s;
         hypothetical_pnl_pips := hypothetical_pnl_pips s;
         breakeven_impact := breakeven_impact s |}
  end.

(** [UPDATE signals SET original_stop_loss = stop_loss, current_stop_loss
    = stop_loss WHERE original_stop_loss IS NULL]. *)
Definition migrate_existing_signals (db : list Signal) : list Signal :=
  List.map migrate_row db.

End Admission.

Import Admission.

(** ** The hard filters on a trade answer *)

Module Validation.

(** The indicator values sent with a request: the nested object
    [m15_indicators] when present, and the flat keys. *)
Record Indicators := {
  m15_indicators : option (gmap string Q);
  flat : gmap string Q
}.

Definition indicator_rsi (indicator_data : Indicators) : Q :=
  match m15_indicators indicator_data with
  | Some m15 => default 50%Q (m15 !! "rsi_14"%string)
  | None =>
      default (default 50%Q (flat indicator_data !! "rsi"%string))
        (flat indicator_data !! "m15_rsi"%string)
  end.

(** The field [risk_reward] of an answer: absent, a string, or a value
    of another type. *)
Inductive RiskReward :=
  | RRMissing
  | RRText (rr_str : string)
  | RROther.

(** The fields of the answer that the filters read; a price is a number,
    or [None] when the field is absent or [null]. *)
Record Proposal := {
  pr_symbol : string;
  pr_decision : Decision;
  pr_entry : option Q;
  pr_sl : option Q;
  pr_tp : option Q;
  pr_risk_reward : RiskReward
}.

(** [RISK_REWARD_TOO_LOW] carries the ratio when the message does. *)
Inductive Rejection :=
  | RSI_OVERBOUGHT
  | RSI_OVERSOLD
  | RISK_REWARD_TOO_LOW (rr : option Q)
  | INVALID_RISK_REWARD
  | STOP_LOSS_TOO_TIGHT (stop_size_pips : Q)
  | STOP_LOSS_TOO_WIDE (stop_size_pips : Q)
  | CLAUDE_SAYS_WAIT.

(** [s.split(':')[0]]. *)
Fixpoint before_colon (s : string) : string :=
  match s with
  | EmptyString => EmptyString
  | String c s' =>
      if Ascii.eqb c ":"%char then EmptyString else String c (before_colon s')
  end.

(** Rule 2 read from the text of [risk_reward]. *)
Definition stated_risk_reward (parse_float : string -> option Q)
    (rr_str : string) : option Rejection :=
  match parse_float (before_colon rr_str) with
  | None => Some INVALID_RISK_REWARD
  | Some rr =>
      if Qlt_bool rr (3 # 2) then Some (RISK_REWARD_TOO_LOW None) else None
  end.

(** Rule 2 when [entry], [sl] and [tp] are all truthy. *)
Definition risk_reward_of (fl : Rounding) (entry sl tp : Q) : Q :=
  let risk := Qabs (fsub fl entry sl) in
  let reward := Qabs (fsub fl tp entry) in
  if Qlt_bool 0 risk then fdiv fl reward risk else 0%Q.

Definition stop_size_pips (fl : Rounding) (symbol : string) (entry sl : Q)
    : Q :=
  let pip_multiplier := get_pip_multiplier symbol in
  fmul fl (Qabs (fsub fl entry sl)) (inject_Z pip_multiplier).

(** [None] stands for [(True, "PASSED_ALL_FILTERS")].  [parse_float] is
    Python's [float] on a string, [None] where it raises; [split] on a
    value that is no string raises too. *)
Definition validate_signal_before_execution (fl : Rounding)
    (parse_float : string -> option Q)
    (signal : Proposal) (indicator_data : Indicators) : option Rejection :=
  let rsi := indicator_rsi indicator_data in
  let is_buy := match pr_decision signal with BUY => true | _ => false end in
  let is_sell := match pr_decision signal with SELL => true | _ => false end in
  if is_buy && Qlt_bool 75 rsi then Some RSI_OVERBOUGHT
  else if is_sell && Qlt_bool rsi 25 then Some RSI_OVERSOLD
  else
    let rule2 :=
      match usable_price (pr_entry signal), usable_price (pr_sl signal),
            usable_price (pr_tp signal) with
      | Some entry, Some sl, Some tp =>
          let rr := risk_reward_of fl entry sl tp in
          if Qlt_bool rr (3 # 2) then Some (RISK_REWARD_TOO_LOW (Some rr))
          else None
      | _, _, _ =>
          match pr_risk_reward signal with
          | RRMissing => stated_risk_reward parse_float "0:1"
          | RRText rr_str => stated_risk_reward parse_float rr_str
          | RROther => Some INVALID_RISK_REWARD
          end
      end in
    match rule2 with
    | Some rejection => Some rejection
    | None =>
        let rule5 :=
          match usable_price (pr_entry signal),
                usable_price (pr_sl signal) with
          | Some entry, Some sl =>
              let size := stop_size_pips fl (pr_symbol signal) entry sl in
              if Qlt_bool size 10 then Some (STOP_LOSS_TOO_TIGHT size)
              else if Qlt_bool 100 size then Some (STOP_LOSS_TOO_WIDE size)
              else None
          | _, _ => None
          end in
        match rule5 with
        | Some rejection => Some rejection
        | None =>
            match pr_decision signal with
            | WAIT => Some CLAUDE_SAYS_WAIT
            | BUY | SELL => None
            end
        end
    end.

(** Returns whether the ratio meets [min_rr], and the ratio. *)
Definition verify_risk_reward (fl : Rounding) (entry sl tp : option Q)
    (min_rr : Q) : bool * Q :=
  match entry, sl, tp with
  | Some entry, Some sl, Some tp =>
      let risk := Qabs (fsub fl entry sl) in
      let reward := Qabs (fsub fl tp entry) in
      if Qeq_bool risk 0 then (false, 0%Q)
      else
        let rr_ratio := fdiv fl reward risk in
        (Qle_bool min_rr rr_ratio, rr_ratio)
  | _, _, _ => (false, 0%Q)
  end.

End Validation.

Import Validation.

(** ** The request handler *)

Module Handler.

Record Stores := {
  signals : list Signal;
  triggers : list Trigger
}.

(** The answer of the model as [parse_ai_response] returns it.  The three
    prices and [risk_reward] are read only for a BUY or SELL answer, for
    which the parser has checked that they are present and not [null];
    the prices are numbers and [risk_reward] is a string, as the system
    prompt asks. *)
Record Answer := {
  ans_analysis : Analysis;
  ans_entry : Q;
  ans_sl : Q;
  ans_tp : Q;
  ans_risk_reward : string;
  ans_narrative : Narrative
}.

Definition demote_to_wait (analysis : Analysis) : Analysis :=
  {| a_decision := WAIT;
     next_trigger := next_trigger analysis;
     h4_analysis := h4_analysis analysis;
     a_playbook := a_playbook analysis |}.

Definition proposal_of (symbol : string) (answer : Answer) : Proposal :=
  {| pr_symbol := symbol;
     pr_decision := a_decision (ans_analysis answer);
     pr_entry := Some (ans_entry answer);
     pr_sl := Some (ans_sl answer);
     pr_tp := Some (ans_tp answer);
     pr_risk_reward := RRText (ans_risk_reward answer) |}.

Definition signal_data_of (symbol : string) (d : Decision) (answer : Answer)
    : SignalData :=
  {| sd_symbol := symbol;
     sd_decision := d;
     sd_entry := ans_entry answer;
     sd_sl := ans_sl answer;
     sd_tp := ans_tp answer;
     sd_narrative :=
       {| timeframe := "Multi-TF (H4+H1+M15)";
          confidence := confidence (ans_narrative answer);
          risk_reward := ans_risk_reward answer;
          reasoning := reasoning (ans_narrative answer);
          market_structure := market_structure (ans_narrative answer);
          invalidation_criteria :=
            invalidation_criteria (ans_narrative answer);
          screenshot_path := "" |} |}.

(** The part of [analyze_multi_timeframe] that follows the parsing of
    the answer: the hard filters, then the trigger store, then the signal
    store. *)
Definition record_answer (fl : Rounding) (parse_float : string -> option Q)
    (now : Z) (st : Stores) (symbol : string) (indicator_data : Indicators)
    (answer : Answer) (m15_screenshot : string) : Stores :=
  let decision := a_decision (ans_analysis answer) in
  let rejection :=
    if is_trade decision
    then validate_signal_before_execution fl parse_float
           (proposal_of symbol answer) indicator_data
    else None in
  let filter_override := bool_decide (is_Some rejection) in
  let analysis :=
    if filter_override then demote_to_wait (ans_analysis answer)
    else ans_analysis answer in
  let final_decision := a_decision analysis in
  let triggers' :=
    if is_trade final_decision && negb filter_override then
      fst (clear_pending_triggers now (triggers st) symbol
             ("Trade signal: " ++ decision_name final_decision))
    else
      match final_decision with
      | WAIT => fst (save_trigger fl now (triggers st) symbol analysis)
      | BUY | SELL => triggers st
      end in
  let signals' :=
    if negb filter_override && is_trade final_decision then
      fst (save_signal_to_db now (signals st)
             (signal_data_of symbol final_decision answer) m15_screenshot)
    else signals st in
  {| signals := signals'; triggers := triggers' |}.

(** One request.  [answer] is [None] on every path that leaves before
    the stores are written: missing or unreadable screenshots, a failed
    call of the model, an answer that does not parse, an exception
    raised before that point. *)
Definition analyze_multi_timeframe (blocking : bool) (fl : Rounding)
    (parse_float : string -> option Q) (now : Z) (st : Stores)
    (symbol : string) (indicator_data : Indicators)
    (answer : option Answer) (m15_screenshot : string) : Stores * Gate :=
  match admission blocking now (signals st) symbol with
  | Passed =>
      match answer with
      | Some answer =>
          (record_answer fl parse_float now st symbol indicator_data
             answer m15_screenshot, Passed)
      | None => (st, Passed)
      end
  | gate => (st, gate)
  end.

(** What happens to the stores, one event at a time: a request, a cycle
    of the signal tracker, a cycle of the trigger watcher, a manual
    close, a start of the server. *)
Inductive Action :=
  | Request (now : Z) (symbol : string) (indicator_data : Indicators)
      (answer : option Answer) (m15_screenshot : string)
  | Track (feed : option PriceFile) (now : Z)
  | Watch (env : Env)
  | Close (now : Z) (signal_id : Z) (res : option Result) (exit : option Q)
      (note : string)
  | Startup.

Definition act (blocking : bool) (fl : Rounding)
    (parse_float : string -> option Q) (st : Stores) (a : Action) : Stores :=
  match a with
  | Request now symbol indicator_data answer m15_screenshot =>
      fst (analyze_multi_timeframe blocking fl parse_float now st symbol
             indicator_data answer m15_screenshot)
  | Track feed now =>
      {| signals := check_active_signals fl feed now (signals st);
         triggers := triggers st |}
  | Watch env =>
      {| signals := signals st;
         triggers := process_pending_triggers fl env (triggers st) |}
  | Close now signal_id res exit note =>
      {| signals :=
           fst (close_signal_manually fl now (signals st) signal_id res exit
                  note);
         triggers := triggers st |}
  | Startup =>
      {| signals := migrate_existing_signals (signals st);
         triggers := triggers st |}
  end.

Definition serve (blocking : bool) (fl : Rounding)
    (parse_float : string -> option Q) (st : Stores)
    (actions : list Action) : Stores :=
  fold_left (act blocking fl parse_float) actions st.

Definition empty_stores : Stores := {| signals := []; triggers := [] |}.

(** The number of ACTIVE BUY or SELL signals of a symbol. *)
Definition active_count (symbol : string) (db : list Signal) : nat :=
  length (List.filter (active_for symbol) db).

End Handler.

Import Handler.

(** ** Checks on the parsed answer of the model *)

Module Response.

#[local] Unset Elimination Schemes.

(** JSON values, objects with their fields in order. *)
Inductive jv :=
  | VNull
  | VBool (b : bool)
  | VNum (q : Q)
  | VStr (s : string)
  | VArr (items : list jv)
  | VObj (fields : list (string * jv)).

#[local] Set Elimination Schemes.

Definition required_fields : list string :=
  ["decision"; "reasoning"; "confidence"]%string.

Definition trade_fields : list string :=
  ["entry"; "sl"; "tp"; "risk_reward"]%string.

Definition decisions : list string := ["BUY"; "SELL"; "WAIT"]%string.

(** An object where an array is expected is replaced by the array of
    its values; anything else is left as it is. *)
Definition as_array (v : jv) : jv :=
  match v with
  | VObj fields => VArr (List.map snd fields)
  | _ => v
  end.

Definition is_null_or_missing (data : gmap string jv) (field : string)
    : bool :=
  match data !! field with
  | None | Some VNull => true
  | Some _ => false
  end.

Definition conversion_note (field : string) : string :=
  " [Converted to WAIT: missing " ++ field ++ "]".

Fixpoint chars (s : string) : list jv :=
  match s with
  | EmptyString => []
  | String c s' => VStr (String c EmptyString) :: chars s'
  end.

(** [data['reasoning'] += note]: concatenation on a string, extension by
    the characters of the note on an array, an exception otherwise. *)
Definition add_note (note : string) (reasoning : jv) : option jv :=
  match reasoning with
  | VStr text => Some (VStr (text ++ note))
  | VArr items => Some (VArr (items ++ chars note))
  | _ => None
  end.

(** The part of [parse_ai_response] that follows [json.loads], on the
    object that was read; [None] when a check raises. *)
Definition check_parsed (data : gmap string jv) : option (gmap string jv) :=
  if negb (forallb (fun field => bool_decide (is_Some (data !! field)))
             required_fields)
  then None
  else
    match data !! "decision"%string with
    | Some (VStr decision) =>
        if negb (existsb (String.eqb decision) decisions) then None
        else
          let data := alter as_array "confluence_factors"%string data in
          let data := alter as_array "risk_factors"%string data in
          if String.eqb decision "BUY" || String.eqb decision "SELL" then
            match List.find (is_null_or_missing data) trade_fields with
            | Some field =>
                let data := <["decision"%string := VStr "WAIT"]> data in
                match data !! "reasoning"%string
                      ≫= add_note (conversion_note field) with
                | Some reasoning =>
                    Some (<["reasoning"%string := reasoning]> data)
                | None => None
                end
            | None => Some data
            end
          else Some data
    | _ => None
    end.

End Response.

Import Response.

(** ** Performance reports *)

Module Reports.

(** Python's [round(x, 2)]. *)
Definition round2 (fl : Rounding) (x : Q) : Q :=
  fl (inject_Z (round_half_even (x * 100)) / 100)%Q.

(** [sum] over floats, from the left, starting at [0]. *)
Definition fsum (fl : Rounding) (xs : list Q) : Q :=
  fold_left (fadd fl) xs 0%Q.

(** [sum] over a column that may hold NULL; adding [None] raises. *)
Definition fsum_nullable (fl : Rounding) (xs : list (option Q)) : option Q :=
  fold_left (fun acc x =>
               match acc, x with
               | Some a, Some v => Some (fadd fl a v)
               | _, _ => None
               end) xs (Some 0%Q).

Record PerformanceStats := {
  period_days : Z;
  total_signals : nat;
  winners : nat;
  losers : nat;
  breakeven : nat;
  win_rate : Q;
  avg_winner_pips : Q;
  avg_loser_pips : Q;
  total_pips : Q;
  high : nat;
  medium : nat;
  low : nat;
  high_confidence_win_rate : Q;
  avg_duration_minutes : Q;
  signals_with_breakeven : nat;
  breakeven_usage_rate : Q
}.

(** [datetime.now() - timedelta(days=days)]; [None] where [timedelta]
    or the subtraction raises [OverflowError]. *)
Definition cutoff_date (now days : Z) : option Z :=
  if timedelta_range (days * day) && datetime_range (now - days * day)
  then Some (now - days * day)
  else None.

Definition in_window (cutoff_date : Z) (s : Signal) : bool :=
  Status_eqb (status s) CLOSED && (cutoff_date <? timestamp s).

Definition has_result (r : Result) (s : Signal) : bool :=
  is_result r (result s).

Definition has_confidence (c : string) (s : Signal) : bool :=
  bool_decide (confidence (narrative s) = c).

(** A duration that Python takes as true: not NULL and not [0]. *)
Definition truthy_duration (s : Signal) : option Z :=
  match duration_minutes s with
  | Some d => if d =? 0 then None else Some d
  | None => None
  end.

Definition percent (fl : Rounding) (part whole : nat) : Q :=
  if (0 <? whole)%nat
  then fmul fl (fdiv fl (inject_Z (Z.of_nat part)) (inject_Z (Z.of_nat whole)))
         100
  else 0%Q.

(** The mean of a column, [0] for no row; [None] when a value is NULL. *)
Definition average (fl : Rounding) (xs : list (option Q)) : option Q :=
  match xs with
  | [] => Some 0%Q
  | _ =>
      match fsum_nullable fl xs with
      | Some total => Some (fdiv fl total (inject_Z (Z.of_nat (length xs))))
      | None => None
      end
  end.

(** The statistics of the rows that the query returned; [None] when
    there is none and when the computation raises. *)
Definition stats_of (fl : Rounding) (days : Z) (signals : list Signal)
    : option PerformanceStats :=
  match signals with
  | [] => None
  | _ =>
      let total_signals := length signals in
      let winners := length (List.filter (has_result WIN) signals) in
      let losers := length (List.filter (has_result LOSS) signals) in
      let breakeven := length (List.filter (has_result BREAKEVEN) signals) in
      let win_rate := percent fl winners total_signals in
      let winner_pips :=
        List.map pnl_pips (List.filter (has_result WIN) signals) in
      let loser_pips :=
        List.map pnl_pips (List.filter (has_result LOSS) signals) in
      match average fl winner_pips, average fl loser_pips with
      | Some avg_winner, Some avg_loser =>
          let total_pips := fsum fl (omap pnl_pips signals) in
          let high_conf :=
            length (List.filter (has_confidence "High") signals) in
          let med_conf :=
            length (List.filter (has_confidence "Medium") signals) in
          let low_conf := length (List.filter (has_confidence "Low") signals) in
          let high_conf_winners :=
            length (List.filter
                      (fun s => has_confidence "High" s && has_result WIN s)
                      signals) in
          let high_conf_win_rate := percent fl high_conf_winners high_conf in
          let breakeven_used :=
            length (List.filter
                      (fun s => match breakeven_triggered s with
                                | Some 1 => true
                                | _ => false
                                end) signals) in
          let durations := omap truthy_duration signals in
          match durations with
          | [] => None
          | _ =>
              Some
                {| period_days := days;
                   total_signals := total_signals;
                   winners := winners;
                   losers := losers;
                   breakeven := breakeven;
                   win_rate := round2 fl win_rate;
                   avg_winner_pips := round1 fl avg_winner;
                   avg_loser_pips := round1 fl avg_loser;
                   total_pips := round1 fl total_pips;
                   high := high_conf;
                   medium := med_conf;
                   low := low_conf;
                   high_confidence_win_rate := round2 fl high_conf_win_rate;
                   avg_duration_minutes :=
                     round1 fl
                       (fdiv fl (inject_Z (fold_left Z.add durations 0))
                          (inject_Z (Z.of_nat (length durations))));
                   signals_with_breakeven := breakeven_used;
                   breakeven_usage_rate :=
                     round1 fl (percent fl breakeven_used total_signals) |}
          end
      | _, _ => None
      end
  end.

(** [None] when the cutoff cannot be computed, when there is no closed
    signal in the window and when the computation raises. *)
Definition calculate_performance_stats (fl : Rounding) (now days : Z)
    (db : list Signal) : option PerformanceStats :=
  match cutoff_date now days with
  | None => None
  | Some cutoff_date =>
      let signals := List.filter (in_window cutoff_date) db in
      stats_of fl days signals
  end.

Inductive Grade :=
  | GradeAPlus | GradeA | GradeB | GradeC | GradeD | GradeF.

(** The literal [1.2] is the float nearest to 6/5; the other thresholds
    are floats exactly. *)
Definition get_performance_grade (fl : Rounding)
    (win_rate profit_factor total_pips : Q) : Grade :=
  if Qle_bool 60 win_rate && Qle_bool 2 profit_factor
     && Qlt_bool 0 total_pips
  then GradeAPlus
  else if Qle_bool 55 win_rate && Qle_bool (3 # 2) profit_factor
          && Qlt_bool 0 total_pips
  then GradeA
  else if Qle_bool 50 win_rate && Qle_bool (fl (6 # 5)) profit_factor
          && Qlt_bool 0 total_pips
  then GradeB
  else if Qle_bool 45 win_rate && Qle_bool 0 total_pips then GradeC
  else if Qle_bool 0 total_pips then GradeD
  else GradeF.

End Reports.

Import Reports.

(** ** Conditions used in the further properties *)

Module Conditions.


(** A pass of the tracker whose writes come after other writers: the
    rows [selected] are those the pass read, and [db] is the table that
    its updates find. *)
Definition breakeven_pass_on (fl : Rounding) (feed : option PriceFile)
    (now : Z) (selected db : list Signal) : list Signal :=
  fold_left (breakeven_step fl feed now) selected db.

Definition exit_pass_on (fl : Rounding) (feed : option PriceFile)
    (now : Z) (selected db : list Signal) : list Signal :=
  fold_left (outcome_step fl feed now) selected db.

(** What one cycle of the signal tracker does to a row: the breakeven
    pass, then the exit pass. *)
Definition tracker_row (fl : Rounding) (feed : option PriceFile) (now : Z)
    (s : Signal) : Signal :=
  outcome_pass_row fl feed now (breakeven_pass_row fl feed now s).

(** The columns that describe the trade and its creation. *)
Definition same_plan (s row : Signal) : Prop :=
  id row = id s /\ timestamp row = timestamp s /\
  symbol row = symbol s /\ decision row = decision s /\
  entry_price row = entry_price s /\ stop_loss row = stop_loss s /\
  take_profit row = take_profit s /\
  original_stop_loss row = original_stop_loss s /\
  narrative row = narrative s.

(** A row after an update that opens no trade: the trade it describes
    is the same, it is ACTIVE only if it was, and an original stop that
    was recorded stays. *)
Definition update_of (s row : Signal) : Prop :=
  id row = id s /\ symbol row = symbol s /\ decision row = decision s /\
  entry_price row = entry_price s /\ stop_loss row = stop_loss s /\
  take_profit row = take_profit s /\
  (status row = ACTIVE -> status s = ACTIVE) /\
  (is_Some (original_stop_loss s) ->
   original_stop_loss row = original_stop_loss s).

(** What the hard filters leave of a trade: a BUY or SELL whose stop,
    when entry and stop are not [0], lies 10 to 100 pips from the entry,
    and whose reward, when the target is not [0] either, is at least one
    and a half times the risk. *)
Definition within_filters (fl : Rounding) (s : Signal) : Prop :=
  is_trade (decision s) = true /\
  (~ (entry_price s == 0)%Q -> ~ (stop_loss s == 0)%Q ->
   let size := stop_size_pips fl (symbol s) (entry_price s) (stop_loss s) in
   (10 <= size)%Q /\ (size <= 100)%Q /\
   (~ (take_profit s == 0)%Q ->
    (3 # 2 <= risk_reward_of fl (entry_price s) (stop_loss s)
                (take_profit s))%Q)).

End Conditions.

Import Conditions.

(** ** More sample data *)

Module MoreSamples.

Definition break_above_1_0900 : gmap string json :=
  {[ "type" := JStr "level_break";
     "timeframe" := JStr "M15";
     "level" := JFloat (10900 # 10000);
     "direction" := JStr "above" ]}.

(** A watch whose level is [null]. *)
Definition break_without_level : gmap string json :=
  {[ "type" := JStr "level_break";
     "timeframe" := JStr "M15";
     "level" := JNull;
     "direction" := JStr "above" ]}.

(** The EURUSD signal of the scenario, stopped at 1.0980 after twenty
    minutes. *)
Definition eurusd_buy_lost : Signal :=
  outcome_row exact (quote "EURUSD" (10975 # 10000)) (20 * minute)
    (new_signal 0 1 eurusd_buy "m15.png").

(** The EURUSD signal of the scenario after the price has touched
    1.1020: the stop sits at the entry. *)
Definition eurusd_buy_protected : Signal :=
  breakeven_row exact (quote "EURUSD" (11020 # 10000)) (10 * minute)
    (new_signal 0 1 eurusd_buy "m15.png").

(** A table with an open EURUSD buy and an open GBPUSD sell. *)
Definition two_open : list Signal :=
  fst (save_signal_to_db 5 (one_signal eurusd_buy) gbpusd_sell "m15.png").

(** An answer of the model with decision [d] and no next trigger. *)
Definition answer_of (d : Decision) : Analysis :=
  {| a_decision := d;
     next_trigger := None;
     h4_analysis := no_context;
     a_playbook := None |}.

(** A watcher cycle at [now], at hour [h], in which the model answers
    every re-analysis with decision [d]. *)
Definition model_says (d : Decision) (now h : Z) (feed : option PriceFile)
    : Env :=
  {| now := now; hour := h; feed := feed;
     model := fun _ _ _ => Some (answer_of d) |}.

(** A request that carries no indicator values: the RSI counts as 50. *)
Definition no_indicators : Indicators :=
  {| m15_indicators := None; flat := ∅ |}.

(** A reading of [float] that accepts no text; the sample answers carry
    their prices, so that the stated ratio is not read. *)
Definition no_float : string -> option Q := fun _ => None.

(** The answer of the model that proposes the scenario trade. *)
Definition buy_answer : Answer :=
  {| ans_analysis := answer_of BUY;
     ans_entry := 11000 # 10000;
     ans_sl := 10980 # 10000;
     ans_tp := 11050 # 10000;
     ans_risk_reward := "2.5:1";
     ans_narrative := plain |}.

(** A BUY that risks twenty pips for a target ten pips away, while it
    states a ratio of 2:1. *)
Definition thin_proposal : Proposal :=
  {| pr_symbol := "EURUSD";
     pr_decision := BUY;
     pr_entry := Some (11000 # 10000);
     pr_sl := Some (10980 # 10000);
     pr_tp := Some (11010 # 10000);
     pr_risk_reward := RRText "2:1" |}.

(** Python's [float] on the ratio texts of the samples. *)
Definition float_of_ratio (text : string) : option Q :=
  if String.eqb text "2" then Some 2%Q
  else if String.eqb text "2.5" then Some (5 # 2)
  else None.

(** An answer that names a SELL and gives [0] for entry, stop and
    target. *)
Definition sell_at_zero : Answer :=
  {| ans_analysis := answer_of SELL;
     ans_entry := 0;
     ans_sl := 0;
     ans_tp := 0;
     ans_risk_reward := "2:1";
     ans_narrative := plain |}.

(** A fresh price file quoting three pairs at the same price. *)
Definition three_quotes (price : Q) : option PriceFile :=
  Some {| file_age := 1;
          prices := {[ "EURUSD" := price; "GBPUSD" := price;
                       "AUDUSD" := price ]} |}.

(** Three trades opened late on one day, in the last three hours before
    midnight, and the tracker cycle that finds all three at their target
    one hour after midnight. *)
Definition overnight_wins : list Action :=
  [ Request (21 * hour_us) "EURUSD" no_indicators (Some buy_answer) "a.png";
    Request (22 * hour_us) "GBPUSD" no_indicators (Some buy_answer) "b.png";
    Request (23 * hour_us) "AUDUSD" no_indicators (Some buy_answer) "c.png";
    Track (three_quotes (11050 # 10000)) (25 * hour_us) ].

(** The stores with no signal and one PENDING trigger for EURUSD. *)
Definition one_trigger : Stores :=
  {| signals := []; triggers := [pending_retest] |}.

(** A parsed answer that names a BUY and gives no target. *)
Definition buy_without_target : gmap string jv :=
  {[ "decision" := VStr "BUY";
     "reasoning" := VStr "Pullback complete.";
     "confidence" := VStr "High";
     "entry" := VNum (11000 # 10000);
     "sl" := VNum (10980 # 10000);
     "tp" := VNull;
     "risk_reward" := VStr "2.5:1" ]}.

(** What the parser makes of it. *)
Definition buy_without_target_parsed : gmap string jv :=
  {[ "decision" := VStr "WAIT";
     "reasoning" := VStr "Pullback complete. [Converted to WAIT: missing tp]";
     "confidence" := VStr "High";
     "entry" := VNum (11000 # 10000);
     "sl" := VNum (10980 # 10000);
     "tp" := VNull;
     "risk_reward" := VStr "2.5:1" ]}.

End MoreSamples.

Import MoreSamples.

(** * Properties *)

(** ** Rounding *)

Section RoundingFacts.

Lemma Qfloor_unique (x : Q) (f : Z) :
  (inject_Z f <= x)%Q -> (x < inject_Z f + 1)%Q -> Qfloor x = f.
Proof.
  intros Hle Hlt.
  assert (H1 : (f <= Qfloor x)%Z).
  { rewrite <- (Qfloor_Z f). now apply Qfloor_resp_le. }
  assert (H2 : (Qfloor x < f + 1)%Z).
  { rewrite Zlt_Qlt, inject_Z_plus.
    apply Qle_lt_trans with x; [apply Qfloor_le | exact Hlt]. }
  lia.
Qed.

Lemma Qfloor_bounds (x : Q) :
  (inject_Z (Qfloor x) <= x)%Q /\ (x < inject_Z (Qfloor x) + 1)%Q.
Proof.
  split; [apply Qfloor_le |].
  generalize (Qlt_floor x). rewrite inject_Z_plus. auto.
Qed.

Lemma inject_Z_pred_opp (f : Z) :
  (inject_Z (- f - 1) == - inject_Z f - 1)%Q.
Proof.
  unfold Z.sub. rewrite inject_Z_plus, inject_Z_opp.
  change (inject_Z (- (1))) with (- (1))%Q. lra.
Qed.

Lemma round_half_even_proper (x y : Q) :
  (x == y)%Q -> round_half_even x = round_half_even y.
Proof.
  intros H. unfold round_half_even.
  rewrite (Qfloor_comp _ _ H).
  assert (E : (x - inject_Z (Qfloor y) ?= 1 # 2)%Q
              = (y - inject_Z (Qfloor y) ?= 1 # 2)%Q).
  { apply Qcompare_comp; [rewrite H|]; reflexivity. }
  now rewrite E.
Qed.

Lemma round_half_even_opp (x : Q) :
  round_half_even (- x) = (- round_half_even x)%Z.
Proof.
  unfold round_half_even.
  destruct (Qfloor_bounds x) as [Hlo Hhi].
  set (f := Qfloor x) in *.
  destruct (Qle_lt_or_eq _ _ Hlo) as [Hlt | Heq].
  - assert (Hf : Qfloor (- x) = (- f - 1)%Z).
    { apply Qfloor_unique; rewrite inject_Z_pred_opp; lra. }
    rewrite Hf.
    assert (Hr : (- x - inject_Z (- f - 1) == 1 - (x - inject_Z f))%Q).
    { rewrite inject_Z_pred_opp; lra. }
    rewrite (Qcompare_comp _ _ Hr _ _ (Qeq_refl _)).
    destruct (Qcompare_spec (x - inject_Z f) (1 # 2)) as [H | H | H];
      destruct (Qcompare_spec (1 - (x - inject_Z f)) (1 # 2)) as [H' | H' | H'];
      try lra; try lia.
    replace (- f - 1)%Z with (- (f + 1))%Z by lia.
    rewrite Z.even_opp, Z.even_add.
    destruct (Z.even f); simpl; lia.
  - assert (Hf : Qfloor (- x) = (- f)%Z).
    { apply Qfloor_unique; rewrite inject_Z_opp; lra. }
    rewrite Hf.
    assert (Hr : (- x - inject_Z (- f) == x - inject_Z f)%Q).
    { rewrite inject_Z_opp; lra. }
    rewrite (Qcompare_comp _ _ Hr _ _ (Qeq_refl _)).
    destruct (Qcompare_spec (x - inject_Z f) (1 # 2)) as [H | H | H];
      try lra; lia.
Qed.

Lemma round_half_even_range (x : Q) :
  Qfloor x <= round_half_even x <= Qfloor x + 1.
Proof.
  unfold round_half_even.
  destruct (x - inject_Z (Qfloor x) ?= 1 # 2)%Q; [| lia | lia].
  destruct (Z.even (Qfloor x)); lia.
Qed.

Lemma round_half_even_mono (x y : Q) :
  (x <= y)%Q -> round_half_even x <= round_half_even y.
Proof.
  intros Hxy.
  pose proof (Qfloor_resp_le _ _ Hxy) as Hf.
  destruct (Z.eq_dec (Qfloor x) (Qfloor y)) as [E | E].
  - unfold round_half_even. rewrite E.
    set (f := Qfloor y).
    destruct (Qcompare_spec (x - inject_Z f) (1 # 2)) as [Hx | Hx | Hx];
      destruct (Qcompare_spec (y - inject_Z f) (1 # 2)) as [Hy | Hy | Hy];
      try lra; try lia; destruct (Z.even f); lia.
  - pose proof (round_half_even_range x).
    pose proof (round_half_even_range y).
    lia.
Qed.

Lemma grid_round_rounding (k : positive) :
  exists fl : Rounding, forall x, rnd fl x = grid_round k x.
Proof.
  assert (Hk : (0 < inject_Z (Z.pos k))%Q).
  { change 0%Q with (inject_Z 0). rewrite <- Zlt_Qlt. lia. }
  unshelve eexists.
  - refine {| rnd := grid_round k |}; unfold grid_round.
    + intros x y H.
      rewrite (round_half_even_proper (x * inject_Z (Z.pos k))
                 (y * inject_Z (Z.pos k))) by (now rewrite H).
      reflexivity.
    + intros x.
      rewrite (round_half_even_proper (- x * inject_Z (Z.pos k))
                 (- (x * inject_Z (Z.pos k)))) by lra.
      rewrite round_half_even_opp, inject_Z_opp. field. lra.
    + intros x y H.
      apply Qmult_le_compat_r; [| apply Qlt_le_weak, Qinv_lt_0_compat, Hk].
      rewrite <- Zle_Qle. apply round_half_even_mono.
      apply Qmult_le_compat_r; [exact H | lra].
  - intros x. reflexivity.
Qed.

Lemma rnd_zero (fl : Rounding) : (fl 0 == 0)%Q.
Proof.
  generalize (rnd_opp fl 0). intros H.
  assert (E : (fl (- 0) == fl 0)%Q) by (apply rnd_proper; lra).
  rewrite E in H. lra.
Qed.

Lemma rnd_nonneg (fl : Rounding) (x : Q) : (0 <= x)%Q -> (0 <= fl x)%Q.
Proof.
  intros H. rewrite <- (rnd_zero fl). now apply rnd_mono.
Qed.

Lemma round1_opp (fl : Rounding) (x y : Q) :
  (y == - x)%Q -> (round1 fl y == - round1 fl x)%Q.
Proof.
  intros H. unfold round1.
  rewrite <- rnd_opp. apply rnd_proper.
  assert (E : round_half_even (y * 10) = (- round_half_even (x * 10))%Z).
  { rewrite <- round_half_even_opp. apply round_half_even_proper.
    rewrite H. lra. }
  rewrite E, inject_Z_opp. field.
Qed.

End RoundingFacts.

(** ** Pips *)

Section PipsFacts.

Lemma prefix_contains (t s : string) :
  String.prefix t s = true -> contains t s = true.
Proof.
  intros H. destruct s; cbn [contains]; rewrite H; reflexivity.
Qed.

Lemma contains_cons (t : string) (a : ascii) (s : string) :
  contains t s = true -> contains t (String a s) = true.
Proof.
  intros H. cbn [contains]. rewrite H. apply orb_true_r.
Qed.

Lemma contains_tail (c : ascii) (t s : string) :
  contains (String c t) s = true -> contains t s = true.
Proof.
  induction s as [| a s IH].
  - simpl. discriminate.
  - intros H. apply contains_cons.
    change (String.prefix (String c t) (String a s) || contains (String c t) s
            = true) in H.
    apply orb_true_iff in H. destruct H as [H | H].
    + simpl in H. destruct (Ascii.ascii_dec c a); [| discriminate].
      now apply prefix_contains.
    + auto.
Qed.

Lemma jpy_pairs_contain_jpy (s : string) :
  any_in jpy_pairs s = contains "JPY" s.
Proof.
  unfold any_in, jpy_pairs, existsb.
  destruct (contains "JPY" s) eqn:E; [reflexivity |].
  rewrite orb_false_r, orb_false_l.
  assert (H : forall t, contains t s = true ->
                contains "JPY" s = true -> False) by congruence.
  repeat match goal with
  | |- context [contains ?t s] =>
      lazymatch t with
      | "JPY"%string => fail
      | _ =>
          let E' := fresh in
          destruct (contains t s) eqn:E';
          [ exfalso; apply (H _ E');
            do 3 (apply contains_tail in E'); exact E'
          | ]
      end
  end.
  reflexivity.
Qed.

Lemma pip_multiplier_rule (symbol : string) :
  get_pip_multiplier symbol = pip_multiplier_by_rule symbol.
Proof.
  unfold get_pip_multiplier, pip_multiplier_by_rule.
  rewrite jpy_pairs_contain_jpy.
  unfold any_in, gold_terms, existsb. now rewrite orb_false_r, orb_assoc.
Qed.

Lemma fsub_opp (fl : Rounding) (x y : Q) :
  (fsub fl x y == - fsub fl y x)%Q.
Proof.
  unfold fsub. rewrite <- rnd_opp. apply rnd_proper. lra.
Qed.

Lemma fmul_opp_l (fl : Rounding) (x x' y : Q) :
  (x' == - x)%Q -> (fmul fl x' y == - fmul fl x y)%Q.
Proof.
  intros H. unfold fmul. rewrite <- rnd_opp. apply rnd_proper.
  rewrite H. lra.
Qed.

(** C7: the pips of a BUY are the negation of the pips of a SELL with the
  same entry, exit and symbol; both are
  [(exit - entry) * pip_multiplier * sign] rounded to one decimal, and
  the multiplier is 10 with a gold marker in the symbol, 100 for a pair
  quoted in JPY and 10000 otherwise. *)
Theorem calculate_pips_antisymmetric (fl : Rounding) (entry exit : Q)
    (symbol : string) :
  (calculate_pips fl entry exit symbol BUY
   == - calculate_pips fl entry exit symbol SELL)%Q
  /\ (calculate_pips fl entry exit symbol BUY
      == pips_by_formula fl entry exit symbol BUY)%Q
  /\ (calculate_pips fl entry exit symbol SELL
      == pips_by_formula fl entry exit symbol SELL)%Q
  /\ get_pip_multiplier symbol = pip_multiplier_by_rule symbol.
Proof.
  assert (Hsell : forall m,
    (round1 fl (fmul fl (fsub fl entry exit) m)
     == - round1 fl (fmul fl (fsub fl exit entry) m))%Q).
  { intros m. apply round1_opp. apply fmul_opp_l. apply fsub_opp. }
  unfold calculate_pips, pips_by_formula; simpl.
  rewrite <- pip_multiplier_rule.
  repeat split.
  - rewrite Hsell. lra.
  - unfold round1. apply rnd_proper.
    rewrite (round_half_even_proper
               (fmul fl (fsub fl exit entry)
                  (inject_Z (get_pip_multiplier symbol)) * 1 * 10)
               (fmul fl (fsub fl exit entry)
                  (inject_Z (get_pip_multiplier symbol)) * 10)) by lra.
    reflexivity.
  - rewrite Hsell. symmetry. apply round1_opp. lra.
Qed.

End PipsFacts.
(** ** Loops that update a table row by row

    Both engines and the trigger watcher read a list of rows and then
    update the table once per row read, addressing the row by its id.
    With unique ids such a loop is a map over the table. *)

Section FoldById.
Context {A : Type} (key : A -> Z).

Lemma find_fresh (k : Z) (l1 l2 : list A) (r : A) :
  ~ In k (List.map key l1) -> key r = k ->
  List.find (fun s => key s =? k) (l1 ++ r :: l2) = Some r.
Proof.
  intros Hfresh Hk. induction l1 as [| a l1 IH]; simpl.
  - rewrite Hk, Z.eqb_refl. reflexivity.
  - simpl in Hfresh. destruct (Z.eqb_spec (key a) k) as [E | E].
    + exfalso. apply Hfresh. now left.
    + apply IH. intros H. apply Hfresh. now right.
Qed.

Lemma map_fresh (k : Z) (f : A -> A) (l : list A) :
  ~ In k (List.map key l) ->
  List.map (fun s => if key s =? k then f s else s) l = l.
Proof.
  intros Hfresh. induction l as [| a l IH]; simpl; [reflexivity |].
  simpl in Hfresh. destruct (Z.eqb_spec (key a) k) as [E | E].
  - exfalso. apply Hfresh. now left.
  - f_equal. apply IH. intros H. apply Hfresh. now right.
Qed.

Lemma map_at (k : Z) (f : A -> A) (l1 l2 : list A) (r : A) :
  ~ In k (List.map key l1) -> ~ In k (List.map key l2) -> key r = k ->
  List.map (fun s => if key s =? k then f s else s) (l1 ++ r :: l2)
  = l1 ++ f r :: l2.
Proof.
  intros H1 H2 Hk. rewrite List.map_app. simpl.
  rewrite (map_fresh k f l1 H1), (map_fresh k f l2 H2).
  rewrite Hk, Z.eqb_refl. reflexivity.
Qed.

Variables (P : A -> bool) (f : A -> A) (step : list A -> A -> list A).
Hypothesis f_key : forall r, key (f r) = key r.
Hypothesis step_spec : forall l1 r l2,
  P r = true ->
  ~ In (key r) (List.map key l1) -> ~ In (key r) (List.map key l2) ->
  step (l1 ++ r :: l2) r = l1 ++ f r :: l2.

Let row (r : A) : A := if P r then f r else r.

Lemma row_key (r : A) : key (row r) = key r.
Proof. unfold row. destruct (P r); auto. Qed.

Lemma keys_of_rows (l : list A) :
  List.map key (List.map row l) = List.map key l.
Proof.
  induction l as [| a l IH]; simpl; [reflexivity |].
  now rewrite row_key, IH.
Qed.

Lemma fold_by_id_from (todo done : list A) :
  List.NoDup (List.map key (done ++ todo)) ->
  fold_left step (List.filter P todo) (List.map row done ++ todo)
  = List.map row (done ++ todo).
Proof.
  revert done. induction todo as [| r todo IH]; intros done Hnd.
  - simpl. now rewrite !app_nil_r.
  - assert (Hnd' : List.NoDup (List.map key ((done ++ [r]) ++ todo))).
    { now rewrite <- app_assoc. }
    specialize (IH (done ++ [r]) Hnd').
    rewrite <- app_assoc in IH. simpl in IH.
    rewrite List.map_app in Hnd. simpl in Hnd.
    apply List.NoDup_remove_2 in Hnd.
    assert (H1 : ~ In (key r) (List.map key (List.map row done))).
    { rewrite keys_of_rows. intros H. apply Hnd.
      apply List.in_or_app. now left. }
    assert (H2 : ~ In (key r) (List.map key todo)).
    { intros H. apply Hnd. apply List.in_or_app. now right. }
    assert (Hrow : List.map row (done ++ [r]) ++ todo
                   = List.map row done ++ row r :: todo).
    { rewrite List.map_app, <- app_assoc. reflexivity. }
    rewrite Hrow in IH. rewrite <- IH. clear IH Hrow.
    assert (Hr : row r = if P r then f r else r) by reflexivity.
    rewrite Hr. clear Hr.
    cbn [List.filter]. destruct (P r) eqn:HP.
    + cbn [fold_left]. now rewrite (step_spec _ _ _ HP H1 H2).
    + reflexivity.
Qed.

Lemma fold_by_id (db : list A) :
  List.NoDup (List.map key db) ->
  fold_left step (List.filter P db) db = List.map row db.
Proof. intros H. apply (fold_by_id_from db []). exact H. Qed.

End FoldById.

Section FindInMap.
Context {A : Type} (key : A -> Z) (g : A -> A).
Hypothesis g_key : forall r, key (g r) = key r.

Lemma find_in_map (db : list A) (r : A) :
  List.NoDup (List.map key db) -> In r db ->
  List.find (fun s => key s =? key r) (List.map g db) = Some (g r).
Proof.
  induction db as [| a db IH]; simpl; intros Hnd Hin; [contradiction |].
  apply List.NoDup_cons_iff in Hnd. destruct Hnd as [Ha Hnd].
  rewrite g_key. destruct Hin as [-> | Hin].
  - now rewrite Z.eqb_refl.
  - destruct (Z.eqb_spec (key a) (key r)) as [E | E].
    + exfalso. apply Ha. rewrite E. now apply List.in_map.
    + now apply IH.
Qed.
End FindInMap.

(** ** The signal engines *)

Section SignalFacts.
Context (fl : Rounding).

Lemma select_update_at (k : Z) (g : Signal -> Signal -> Signal)
    (l1 l2 : list Signal) (r : Signal) :
  ~ In k (List.map id l1) -> ~ In k (List.map id l2) -> id r = k ->
  match select_by_id k (l1 ++ r :: l2) with
  | None => l1 ++ r :: l2
  | Some row => update_by_id k (g row) (l1 ++ r :: l2)
  end = l1 ++ g r r :: l2.
Proof.
  intros H1 H2 Hk. unfold select_by_id, update_by_id.
  rewrite (find_fresh id k l1 l2 r H1 Hk).
  now apply map_at.
Qed.

Lemma breakeven_step_at (feed : option PriceFile) (now : Z)
    (l1 l2 : list Signal) (r : Signal) :
  ~ In (id r) (List.map id l1) -> ~ In (id r) (List.map id l2) ->
  breakeven_step fl feed now (l1 ++ r :: l2) r
  = l1 ++ breakeven_row fl feed now r :: l2.
Proof.
  intros H1 H2. unfold breakeven_step, breakeven_row.
  destruct (usable_price _) as [p |]; [| reflexivity].
  destruct (breakeven_reached _ _ _ _ _); [| reflexivity].
  unfold update_stop_loss_to_breakeven.
  apply (select_update_at (id r)
           (fun row => set_breakeven (entry_price r) now
                         (stop_modifications row
                            ++ [breakeven_record now p (entry_price r)])));
    auto.
Qed.

Lemma breakeven_row_id (feed : option PriceFile) (now : Z) (s : Signal) :
  id (breakeven_row fl feed now s) = id s.
Proof.
  unfold breakeven_row.
  destruct (usable_price _); [| reflexivity].
  destruct (breakeven_reached _ _ _ _ _); reflexivity.
Qed.

Lemma breakeven_pass_row_id (feed : option PriceFile) (now : Z)
    (s : Signal) :
  id (breakeven_pass_row fl feed now s) = id s.
Proof.
  unfold breakeven_pass_row.
  destruct (breakeven_pending s); auto using breakeven_row_id.
Qed.

(** The breakeven pass is a map over the table. *)
Lemma check_breakeven_conditions_map (feed : option PriceFile) (now : Z)
    (db : list Signal) :
  List.NoDup (List.map id db) ->
  check_breakeven_conditions fl feed now db
  = List.map (breakeven_pass_row fl feed now) db.
Proof.
  intros Hnd. unfold check_breakeven_conditions.
  apply (fold_by_id id breakeven_pending (breakeven_row fl feed now));
    auto using breakeven_row_id.
  intros l1 r l2 _. apply breakeven_step_at.
Qed.

Lemma outcome_step_at (feed : option PriceFile) (now : Z)
    (l1 l2 : list Signal) (r : Signal) :
  ~ In (id r) (List.map id l1) -> ~ In (id r) (List.map id l2) ->
  outcome_step fl feed now (l1 ++ r :: l2) r
  = l1 ++ outcome_row fl feed now r :: l2.
Proof.
  intros H1 H2. unfold outcome_step, outcome_row.
  destruct (usable_price _) as [p |]; [| reflexivity].
  destruct (actual_outcome _ _ _ _ _) as [[res ex] |]; [| reflexivity].
  unfold update_signal_with_hypothetical.
  apply (select_update_at (id r)
           (fun row => set_closed now (Z.quot (now - timestamp row) minute)
                         res ex _ _ _ _));
    auto.
Qed.

Lemma outcome_row_id (feed : option PriceFile) (now : Z) (s : Signal) :
  id (outcome_row fl feed now s) = id s.
Proof.
  unfold outcome_row.
  destruct (usable_price _); [| reflexivity].
  destruct (actual_outcome _ _ _ _ _) as [[res ex] |]; reflexivity.
Qed.

Lemma outcome_pass_row_id (feed : option PriceFile) (now : Z)
    (s : Signal) :
  id (outcome_pass_row fl feed now s) = id s.
Proof.
  unfold outcome_pass_row.
  destruct (is_active s); auto using outcome_row_id.
Qed.

(** The exit pass is a map over the table. *)
Lemma check_exits_map (feed : option PriceFile) (now : Z)
    (db : list Signal) :
  List.NoDup (List.map id db) ->
  check_exits fl feed now db
  = List.map (outcome_pass_row fl feed now) db.
Proof.
  intros Hnd. unfold check_exits.
  apply (fold_by_id id is_active (outcome_row fl feed now));
    auto using outcome_row_id.
  intros l1 r l2 _. apply outcome_step_at.
Qed.

Lemma map_ids (g : Signal -> Signal) (db : list Signal) :
  (forall s, id (g s) = id s) ->
  List.map id (List.map g db) = List.map id db.
Proof.
  intros Hg. induction db as [| a db IH]; simpl; [reflexivity |].
  now rewrite Hg, IH.
Qed.

End SignalFacts.

(** ** Creation and breakeven: what a breakeven pass may change *)

Section StopFacts.
Context (fl : Rounding).

Lemma evolves_refl (s : Signal) : evolves s s.
Proof. unfold evolves. tauto. Qed.

Lemma evolves_trans (s r1 r2 : Signal) :
  evolves s r1 -> evolves r1 r2 -> evolves s r2.
Proof.
  intros (A1 & A2 & A3 & A4 & A5 & A6) (B1 & B2 & B3 & B4 & B5 & B6).
  unfold evolves. repeat split; try congruence.
  destruct B6 as [-> | [Hf Hc]].
  - exact A6.
  - right. split; [exact Hf | congruence].
Qed.

Lemma breakeven_pass_row_evolves (feed : option PriceFile) (now : Z)
    (s : Signal) :
  evolves s (breakeven_pass_row fl feed now s).
Proof.
  unfold breakeven_pass_row, breakeven_row.
  destruct (breakeven_pending s); [| apply evolves_refl].
  destruct (usable_price _); [| apply evolves_refl].
  destruct (breakeven_reached _ _ _ _ _); [| apply evolves_refl].
  unfold evolves; simpl. repeat split; auto.
Qed.

Lemma breakeven_passes_evolve (passes : list (option PriceFile * Z)) :
  forall (db : list Signal) (s : Signal),
    List.NoDup (List.map id db) -> In s db ->
    exists row,
      select_by_id (id s) (breakeven_passes fl passes db) = Some row /\
      evolves s row.
Proof.
  induction passes as [| [feed now] passes IH]; intros db s Hnd Hin.
  - exists s. split; [| apply evolves_refl].
    destruct (List.in_split _ _ Hin) as (l1 & l2 & ->).
    rewrite List.map_app in Hnd. simpl in Hnd.
    apply List.NoDup_remove_2 in Hnd.
    apply find_fresh; [| reflexivity].
    intros H. apply Hnd. apply List.in_or_app. now left.
  - unfold breakeven_passes. cbn [fold_left fst snd].
    rewrite (check_breakeven_conditions_map fl feed now db Hnd).
    set (g := breakeven_pass_row fl feed now).
    destruct (IH (List.map g db) (g s)) as (row & Hsel & Hev).
    + rewrite map_ids; [exact Hnd |].
      intros r. apply breakeven_pass_row_id.
    + now apply List.in_map.
    + exists row. split.
      * unfold g in Hsel at 1. rewrite breakeven_pass_row_id in Hsel.
        exact Hsel.
      * apply evolves_trans with (g s); [| exact Hev].
        apply breakeven_pass_row_evolves.
Qed.

Lemma next_id_above (db : list Signal) (s : Signal) :
  In s db -> id s < next_id db.
Proof.
  unfold next_id. induction db as [| a db IH]; simpl; [contradiction |].
  intros [-> | H]; [lia |]. specialize (IH H). lia.
Qed.

Lemma next_id_fresh (db : list Signal) :
  ~ In (next_id db) (List.map id db).
Proof.
  intros H. apply List.in_map_iff in H. destruct H as (s & E & Hin).
  apply next_id_above in Hin. lia.
Qed.

Lemma save_signal_ids (now : Z) (db : list Signal) (sd : SignalData)
    (shot : string) :
  List.NoDup (List.map id db) ->
  List.NoDup (List.map id (fst (save_signal_to_db now db sd shot))).
Proof.
  intros Hnd. simpl. rewrite List.map_app. simpl.
  apply List.NoDup_app; auto.
  - repeat constructor. simpl. tauto.
  - intros k Hk [<- | []]. now apply next_id_fresh in Hk.
Qed.

Lemma breakeven_passes_ids (passes : list (option PriceFile * Z)) :
  forall db : list Signal,
    List.NoDup (List.map id db) ->
    List.map id (breakeven_passes fl passes db) = List.map id db.
Proof.
  induction passes as [| [feed now] passes IH]; intros db Hnd;
    [reflexivity |].
  unfold breakeven_passes. cbn [fold_left fst snd].
  rewrite (check_breakeven_conditions_map fl feed now db Hnd).
  assert (Hids : List.map id (List.map (breakeven_pass_row fl feed now) db)
                 = List.map id db).
  { apply map_ids. intros r. apply breakeven_pass_row_id. }
  rewrite <- Hids. apply IH. now rewrite Hids.
Qed.

Lemma breakeven_passes_app (passes : list (option PriceFile * Z))
    (feed : option PriceFile) (now : Z) (db : list Signal) :
  breakeven_passes fl (passes ++ [(feed, now)]) db
  = check_breakeven_conditions fl feed now (breakeven_passes fl passes db).
Proof.
  unfold breakeven_passes. now rewrite List.fold_left_app.
Qed.

Lemma select_in (k : Z) (db : list Signal) (s : Signal) :
  select_by_id k db = Some s -> In s db /\ id s = k.
Proof.
  unfold select_by_id. intros H. apply List.find_some in H.
  destruct H as [Hin Hid]. split; [assumption |]. now apply Z.eqb_eq.
Qed.

(** C9: a signal created with stop [S] has [original_stop_loss] and
    [current_stop_loss] equal to [S].  After any sequence of breakeven
    passes its [original_stop_loss], entry and target are the ones it
    was created with, and its current stop is either still [S], no
    breakeven having happened, or the entry.  The transition itself: a
    pass that finds the signal, a BUY or SELL not yet at breakeven, with
    the price at its breakeven level sets the flag, stamps the time and
    moves the current stop to the entry, and so does a call of
    [update_stop_loss_to_breakeven] for the stop it is given; both leave
    the original stop, the stop, the entry and the target as they
    were. *)
Theorem original_stop_immutable (now : Z) (db : list Signal)
    (sd : SignalData) (shot : string)
    (Hids : List.NoDup (List.map id db)) :
  let db1 := fst (save_signal_to_db now db sd shot) in
  let sid := snd (save_signal_to_db now db sd shot) in
  (exists s,
     select_by_id sid db1 = Some s /\
     original_stop_loss s = Some (sd_sl sd) /\
     current_stop_loss s = Some (sd_sl sd) /\
     breakeven_triggered s = Some 0) /\
  (forall passes : list (option PriceFile * Z),
     exists row,
       select_by_id sid (breakeven_passes fl passes db1) = Some row /\
       original_stop_loss row = Some (sd_sl sd) /\
       entry_price row = sd_entry sd /\
       take_profit row = sd_tp sd /\
       ((breakeven_triggered row = Some 0 /\
         current_stop_loss row = Some (sd_sl sd)) \/
        (breakeven_triggered row = Some 1 /\
         current_stop_loss row = Some (sd_entry sd)))) /\
  (forall (passes : list (option PriceFile * Z)) (feed : option PriceFile)
          (now' : Z) (p : Q),
     is_trade (sd_decision sd) = true ->
     (exists row,
        select_by_id sid (breakeven_passes fl passes db1) = Some row /\
        breakeven_triggered row = Some 0) ->
     usable_price (get_current_price feed (sd_symbol sd)) = Some p ->
     breakeven_reached fl (sd_decision sd) (sd_entry sd) (sd_sl sd) p
     = true ->
     exists row,
       select_by_id sid
         (breakeven_passes fl (passes ++ [(feed, now')]) db1) = Some row /\
       breakeven_triggered row = Some 1 /\
       breakeven_timestamp row = Some now' /\
       current_stop_loss row = Some (sd_entry sd) /\
       original_stop_loss row = Some (sd_sl sd) /\
       stop_loss row = sd_sl sd /\
       entry_price row = sd_entry sd /\
       take_profit row = sd_tp sd) /\
  (forall (now' : Z) (new_stop_loss trigger_price : Q),
     exists row,
       select_by_id sid
         (update_stop_loss_to_breakeven now' db1 sid new_stop_loss
            trigger_price) = Some row /\
       breakeven_triggered row = Some 1 /\
       breakeven_timestamp row = Some now' /\
       current_stop_loss row = Some new_stop_loss /\
       original_stop_loss row = Some (sd_sl sd) /\
       stop_loss row = sd_sl sd /\
       entry_price row = sd_entry sd /\
       take_profit row = sd_tp sd).
Proof.
  intros db1 sid.
  set (s := new_signal now (next_id db) sd shot).
  assert (Hsel : select_by_id sid db1 = Some s).
  { apply (find_fresh id (next_id db) db [] s);
      [apply next_id_fresh | reflexivity]. }
  assert (Hids1 : List.NoDup (List.map id db1)) by now apply save_signal_ids.
  assert (Hin1 : In s db1) by (apply List.in_or_app; right; now left).
  split; [| split; [| split]].
  - exists s. repeat split; auto.
  - intros passes.
    destruct (breakeven_passes_evolve passes db1 s) as (row & Hrow & Hev);
      [assumption | assumption |].
    exists row. destruct Hev as (_ & E1 & _ & E3 & E4 & E5).
    split; [exact Hrow |]. repeat split; auto.
    destruct E5 as [-> | E5]; [left | right]; auto.
  - intros passes feed now' p Htrade (row0 & Hrow0 & Hflag) Hprice Hreached.
    destruct (breakeven_passes_evolve passes db1 s) as (row & Hrow & Hev);
      [assumption | assumption |].
    change (id s) with sid in Hrow. rewrite Hrow0 in Hrow.
    injection Hrow as <-.
    assert (Hsame : row0 = s).
    { destruct Hev as (_ & _ & _ & _ & _ & [E | [E _]]); [exact E |].
      congruence. }
    subst row0.
    set (db2 := breakeven_passes fl passes db1) in *.
    assert (Hids2 : List.NoDup (List.map id db2)).
    { unfold db2. now rewrite breakeven_passes_ids. }
    destruct (select_in _ _ _ Hrow0) as [Hin2 _].
    rewrite breakeven_passes_app. fold db2.
    rewrite (check_breakeven_conditions_map fl feed now' db2 Hids2).
    change sid with (id s).
    unfold select_by_id.
    rewrite (find_in_map id (breakeven_pass_row fl feed now')
               (breakeven_pass_row_id fl feed now') db2 s Hids2 Hin2).
    unfold breakeven_pass_row, breakeven_row, breakeven_pending.
    cbn [s new_signal status decision breakeven_triggered Status_eqb
         Signals.symbol entry_price stop_loss andb].
    rewrite Htrade, Hprice, Hreached.
    eexists. split; [reflexivity |]. repeat split.
  - intros now' new_stop_loss trigger_price.
    unfold update_stop_loss_to_breakeven. rewrite Hsel.
    set (f := set_breakeven new_stop_loss now'
                (stop_modifications s
                   ++ [breakeven_record now' trigger_price new_stop_loss])).
    exists (f s). split; [| repeat split].
    change sid with (id s). unfold select_by_id, update_by_id.
    rewrite (find_in_map id (fun r => if id r =? id s then f r else r));
      [now rewrite Z.eqb_refl | | assumption | assumption].
    intros r. now destruct (id r =? id s).
Qed.

End StopFacts.

Lemma original_stop_immutable_witness :
  let db := one_signal gbpusd_sell in
  let db1 := fst (save_signal_to_db 5 db eurusd_buy "") in
  let passes := [(quote "EURUSD" (11010 # 10000), 60)] in
  let feed := quote "EURUSD" (11020 # 10000) in
  (List.NoDup (List.map id db) /\
   is_trade (sd_decision eurusd_buy) = true /\
   (exists row,
      select_by_id 2 (breakeven_passes exact passes db1) = Some row /\
      breakeven_triggered row = Some 0) /\
   usable_price (get_current_price feed (sd_symbol eurusd_buy))
   = Some (11020 # 10000) /\
   breakeven_reached exact (sd_decision eurusd_buy) (sd_entry eurusd_buy)
     (sd_sl eurusd_buy) (11020 # 10000) = true) /\
  exists row,
    select_by_id 2 (breakeven_passes exact (passes ++ [(feed, 120)]) db1)
    = Some row /\
    breakeven_triggered row = Some 1 /\
    breakeven_timestamp row = Some 120 /\
    current_stop_loss row = Some (11000 # 10000) /\
    original_stop_loss row = Some (10980 # 10000) /\
    stop_loss row = 10980 # 10000 /\
    entry_price row = 11000 # 10000 /\
    take_profit row = 11050 # 10000.
Proof.
  intros db db1 passes feed.
  assert (H : List.NoDup (List.map id db)).
  { repeat constructor. simpl. tauto. }
  assert (H1 : is_trade (sd_decision eurusd_buy) = true) by reflexivity.
  assert (H2 : exists row,
             select_by_id 2 (breakeven_passes exact passes db1) = Some row /\
             breakeven_triggered row = Some 0).
  { eexists. split; vm_compute; reflexivity. }
  assert (H3 : usable_price (get_current_price feed (sd_symbol eurusd_buy))
               = Some (11020 # 10000)) by (vm_compute; reflexivity).
  assert (H4 : breakeven_reached exact (sd_decision eurusd_buy)
                 (sd_entry eurusd_buy) (sd_sl eurusd_buy) (11020 # 10000)
               = true) by (vm_compute; reflexivity).
  split; [tauto |].
  exact (proj1 (proj2 (proj2
           (original_stop_immutable exact 5 db eurusd_buy "" H)))
           passes feed 120 (11020 # 10000) H1 H2 H3 H4).
Defined.

(** ** Breakeven engine *)

Section BreakevenFacts.
Context (fl : Rounding).

Lemma Qle_bool_false (x y : Q) : Qle_bool x y = false -> ~ (x <= y)%Q.
Proof.
  intros H Hle. apply Qle_bool_iff in Hle. congruence.
Qed.

Lemma reached_iff (d : Decision) (entry original_sl p bp : Q) :
  breakeven_price fl d entry original_sl = Some bp ->
  breakeven_reached fl d entry original_sl p = true <-> reached d p bp.
Proof.
  unfold breakeven_reached.
  destruct d; simpl; intros [= <-]; apply Qle_bool_iff.
Qed.

Lemma breakeven_price_by_rule (d : Decision) (entry original_sl : Q) :
  protective d entry original_sl ->
  exists bp,
    breakeven_price fl d entry original_sl = Some bp /\
    (bp == trigger_by_rule fl d entry original_sl)%Q.
Proof.
  destruct d; simpl; intros H; [| | contradiction].
  - eexists. split; [reflexivity |].
    unfold fadd. apply rnd_proper.
    rewrite Qabs_pos; [reflexivity |].
    apply rnd_nonneg. lra.
  - eexists. split; [reflexivity |].
    unfold fsub at 1 3. apply rnd_proper.
    rewrite Qabs_neg.
    + rewrite (fsub_opp fl original_sl entry). reflexivity.
    + rewrite (fsub_opp fl entry original_sl).
      assert (0 <= fsub fl original_sl entry)%Q
        by (apply rnd_nonneg; lra).
      lra.
Qed.

Lemma pass_row_lookup (g : Signal -> Signal) (db : list Signal)
    (s : Signal) :
  (forall r, id (g r) = id r) ->
  List.NoDup (List.map id db) -> In s db ->
  select_by_id (id s) (List.map g db) = Some (g s).
Proof.
  intros Hg Hnd Hin. unfold select_by_id.
  now apply (find_in_map id g Hg).
Qed.

(** C2, amended: for an active signal with no breakeven yet and a usable
    price, the trigger price computed by the pass is the entry plus
    [|entry - original_stop|] in the favourable direction whenever the
    stop lies on the losing side of the entry; when the price has
    reached the computed trigger price the pass puts the stop at the
    entry, sets the flag, appends the modification record and stamps
    the time, otherwise the row is left alone; and a row whose flag is
    set is never touched by the pass. *)
Theorem breakeven_pass_correct (feed : option PriceFile) (now : Z)
    (db : list Signal) (s : Signal) (p os : Q)
    (Hids : List.NoDup (List.map id db))
    (Hin : In s db)
    (Hpending : breakeven_pending s = true)
    (Horig : original_stop_loss s = Some os)
    (Hstop : stop_loss s = os)
    (Hprice : usable_price (get_current_price feed (symbol s)) = Some p) :
  let d := decision s in
  let entry := entry_price s in
  let db' := check_breakeven_conditions fl feed now db in
  (protective d entry os ->
   exists bp,
     breakeven_price fl d entry os = Some bp /\
     (bp == trigger_by_rule fl d entry os)%Q) /\
  (exists bp,
     breakeven_price fl d entry os = Some bp /\
     (reached d p bp ->
      exists row,
        select_by_id (id s) db' = Some row /\
        current_stop_loss row = Some entry /\
        breakeven_triggered row = Some 1 /\
        stop_modifications row
        = stop_modifications s ++ [breakeven_record now p entry] /\
        breakeven_timestamp row = Some now /\
        evolves s row) /\
     (~ reached d p bp -> select_by_id (id s) db' = Some s)) /\
  (forall r,
     In r db -> breakeven_triggered r = Some 1 ->
     select_by_id (id r) db' = Some r).
Proof.
  intros d entry db'. unfold db'.
  rewrite (check_breakeven_conditions_map fl feed now db Hids).
  assert (Hlook : forall r, In r db ->
            select_by_id (id r)
              (List.map (breakeven_pass_row fl feed now) db)
            = Some (breakeven_pass_row fl feed now r)).
  { intros r Hr. apply pass_row_lookup; auto.
    intros r'. apply breakeven_pass_row_id. }
  split; [apply breakeven_price_by_rule |]. split.
  - assert (Hd : is_trade d = true).
    { unfold breakeven_pending in Hpending.
      apply andb_true_iff in Hpending. destruct Hpending as [H _].
      apply andb_true_iff in H. tauto. }
    destruct (breakeven_price fl d entry os) as [bp |] eqn:Hbp;
      [| destruct d; discriminate].
    exists bp. split; [reflexivity |].
    rewrite (Hlook s Hin).
    unfold breakeven_pass_row, breakeven_row.
    rewrite Hpending, Hprice, Hstop. fold d entry.
    pose proof (reached_iff d entry os p bp Hbp) as Hiff.
    destruct (breakeven_reached fl d entry os p).
    + split; [| intros H; exfalso; apply H; now apply Hiff].
      intros _. eexists. split; [reflexivity |].
      repeat split; try reflexivity. now right.
    + split; [| reflexivity].
      intros H. apply Hiff in H. discriminate.
  - intros r Hr Hflag. rewrite (Hlook r Hr).
    unfold breakeven_pass_row, breakeven_pending.
    rewrite Hflag. now rewrite andb_false_r.
Qed.

End BreakevenFacts.

Lemma breakeven_pass_correct_witness :
  let s := new_signal 0 1 eurusd_buy "m15.png" in
  let p := 11020 # 10000 in
  let feed := quote "EURUSD" p in
  (List.NoDup (List.map id [s]) /\ In s [s] /\
   breakeven_pending s = true /\
   original_stop_loss s = Some (10980 # 10000) /\
   stop_loss s = 10980 # 10000 /\
   usable_price (get_current_price feed (symbol s)) = Some p) /\
  exists bp,
    breakeven_price exact BUY (11000 # 10000) (10980 # 10000) = Some bp /\
    (reached BUY p bp ->
     exists row,
       select_by_id 1 (check_breakeven_conditions exact feed 60 [s])
       = Some row /\
       current_stop_loss row = Some (11000 # 10000) /\
       breakeven_triggered row = Some 1 /\
       stop_modifications row
       = [] ++ [breakeven_record 60 p (11000 # 10000)] /\
       breakeven_timestamp row = Some 60 /\
       evolves s row) /\
    (~ reached BUY p bp ->
     select_by_id 1 (check_breakeven_conditions exact feed 60 [s]) = Some s).
Proof.
  intros s p feed.
  assert (H1 : List.NoDup (List.map id [s])).
  { repeat constructor. simpl. tauto. }
  assert (H2 : In s [s]) by (left; reflexivity).
  assert (H3 : breakeven_pending s = true) by reflexivity.
  assert (H4 : original_stop_loss s = Some (10980 # 10000)) by reflexivity.
  assert (H5 : stop_loss s = 10980 # 10000) by reflexivity.
  assert (H6 : usable_price (get_current_price feed (symbol s)) = Some p)
    by (vm_compute; reflexivity).
  split; [tauto |].
  exact (proj1 (proj2
           (breakeven_pass_correct exact feed 60 [s] s p _ H1 H2 H3 H4 H5 H6))).
Defined.

(** C2 as stated fails on a BUY whose stop was given above the entry:
    the pass computes the trigger price 1.0980, not
    [entry + |entry - stop| = 1.1020], and moves the stop to the entry at
    the price 1.1000, which has not reached 1.1020. *)
Lemma breakeven_trigger_ignores_stop_side :
  let s := new_signal 0 1 eurusd_buy_stop_above "m15.png" in
  let p := 11000 # 10000 in
  let feed := quote "EURUSD" p in
  breakeven_pending s = true /\
  usable_price (get_current_price feed (symbol s)) = Some p /\
  (exists bp,
     breakeven_price exact BUY (entry_price s) (stop_loss s) = Some bp /\
     (bp == 10980 # 10000)%Q) /\
  (trigger_by_rule exact BUY (entry_price s) (stop_loss s)
   == 11020 # 10000)%Q /\
  ~ reached BUY p (trigger_by_rule exact BUY (entry_price s) (stop_loss s)) /\
  (breakeven_triggered <$>
     select_by_id 1 (check_breakeven_conditions exact feed 60 [s]))
  = Some (Some 1).
Proof.
  intros s p feed. repeat split; try (vm_compute; reflexivity).
  - eexists. split; [reflexivity | vm_compute; reflexivity].
  - vm_compute. congruence.
Qed.

(** ** Outcome engine *)

Section OutcomeFacts.
Context (fl : Rounding).

Lemma is_active_trade (s : Signal) :
  is_active s = true -> status s = ACTIVE /\ is_trade (decision s) = true.
Proof.
  unfold is_active. intros H. apply andb_true_iff in H.
  destruct H as [H1 H2]. split; [| exact H2].
  destruct (status s); [reflexivity | discriminate].
Qed.

Lemma actual_outcome_target (d : Decision) (p entry sl tp : Q) :
  reached d p tp -> actual_outcome d p entry sl tp = Some (WIN, tp).
Proof.
  destruct d; simpl; intros H; [| | contradiction];
    apply Qle_bool_iff in H; now rewrite H.
Qed.

Lemma actual_outcome_stop (d : Decision) (p entry sl tp : Q) :
  ~ reached d p tp -> stopped d p sl ->
  actual_outcome d p entry sl tp
  = Some (if Qeq_bool sl entry then BREAKEVEN else LOSS, sl).
Proof.
  destruct d; simpl; intros Hn H; [| | contradiction];
    apply Qle_bool_iff in H; rewrite H.
  - destruct (Qle_bool tp p) eqn:E; [| reflexivity].
    apply Qle_bool_iff in E. contradiction.
  - destruct (Qle_bool p tp) eqn:E; [| reflexivity].
    apply Qle_bool_iff in E. contradiction.
Qed.

Lemma actual_outcome_none (d : Decision) (p entry sl tp : Q) :
  ~ reached d p tp -> ~ stopped d p sl ->
  actual_outcome d p entry sl tp = None.
Proof.
  destruct d; simpl; intros Hn Hs; [| | reflexivity].
  - destruct (Qle_bool tp p) eqn:E;
      [apply Qle_bool_iff in E; contradiction |].
    destruct (Qle_bool p sl) eqn:E';
      [apply Qle_bool_iff in E'; contradiction | reflexivity].
  - destruct (Qle_bool p tp) eqn:E;
      [apply Qle_bool_iff in E; contradiction |].
    destruct (Qle_bool sl p) eqn:E';
      [apply Qle_bool_iff in E'; contradiction | reflexivity].
Qed.

Lemma hypothetical_outcome_target (d : Decision) (p sl tp : Q) :
  reached d p tp -> hypothetical_outcome d p sl tp = Some (WIN, tp).
Proof.
  destruct d; simpl; intros H; [| | contradiction];
    apply Qle_bool_iff in H; now rewrite H.
Qed.

Lemma hypothetical_outcome_stop (d : Decision) (p sl tp : Q) :
  ~ reached d p tp -> stopped d p sl ->
  hypothetical_outcome d p sl tp = Some (LOSS, sl).
Proof.
  destruct d; simpl; intros Hn H; [| | contradiction];
    apply Qle_bool_iff in H; rewrite H.
  - destruct (Qle_bool tp p) eqn:E; [| reflexivity].
    apply Qle_bool_iff in E. contradiction.
  - destruct (Qle_bool p tp) eqn:E; [| reflexivity].
    apply Qle_bool_iff in E. contradiction.
Qed.

Lemma hypothetical_outcome_none (d : Decision) (p sl tp : Q) :
  ~ reached d p tp -> ~ stopped d p sl ->
  hypothetical_outcome d p sl tp = None.
Proof.
  destruct d; simpl; intros Hn Hs; [| | reflexivity].
  - destruct (Qle_bool tp p) eqn:E;
      [apply Qle_bool_iff in E; contradiction |].
    destruct (Qle_bool p sl) eqn:E';
      [apply Qle_bool_iff in E'; contradiction | reflexivity].
  - destruct (Qle_bool p tp) eqn:E;
      [apply Qle_bool_iff in E; contradiction |].
    destruct (Qle_bool sl p) eqn:E';
      [apply Qle_bool_iff in E'; contradiction | reflexivity].
Qed.

(** C1, amended: for an active BUY or SELL signal with a usable price,
    the exit pass closes the signal as WIN at the target when the price
    has reached the target; otherwise, when the price has come back to
    the current stop, it closes it at the current stop, as BREAKEVEN
    when that stop equals the entry and as LOSS otherwise; otherwise the
    row is left alone.  The hypothetical leg recorded at the close is
    WIN at the target when the price has reached the target, LOSS at the
    original stop when the price has come back to the original stop
    (LOSS also when the original stop equals the entry), and null
    otherwise. *)
Theorem exit_pass_correct (feed : option PriceFile) (now : Z)
    (db : list Signal) (s : Signal) (p os : Q)
    (Hids : List.NoDup (List.map id db))
    (Hin : In s db)
    (Hactive : is_active s = true)
    (Horig : original_stop_loss s = Some os)
    (Hstop : stop_loss s = os)
    (Hprice : usable_price (get_current_price feed (symbol s)) = Some p) :
  let d := decision s in
  let entry := entry_price s in
  let target := take_profit s in
  let cs := effective_stop s in
  let after := select_by_id (id s) (check_exits fl feed now db) in
  (reached d p target ->
   exists row,
     after = Some row /\ status row = CLOSED /\
     result row = Some WIN /\ exit_price row = Some target /\
     hypothetical_result row = Some WIN /\
     hypothetical_exit_price row = Some target) /\
  (~ reached d p target -> stopped d p cs ->
   exists row,
     after = Some row /\ status row = CLOSED /\
     result row = Some (if Qeq_bool cs entry then BREAKEVEN else LOSS) /\
     exit_price row = Some cs /\
     (stopped d p os ->
      hypothetical_result row = Some LOSS /\
      hypothetical_exit_price row = Some os) /\
     (~ stopped d p os ->
      hypothetical_result row = None /\
      hypothetical_exit_price row = None)) /\
  (~ reached d p target -> ~ stopped d p cs -> after = Some s).
Proof.
  intros d entry target cs after. unfold after.
  rewrite (check_exits_map fl feed now db Hids).
  rewrite (pass_row_lookup (outcome_pass_row fl feed now) db s
             (outcome_pass_row_id fl feed now) Hids Hin).
  unfold outcome_pass_row, outcome_row.
  rewrite Hactive, Hprice, Hstop. fold d entry target cs.
  repeat split.
  - intros Hr.
    rewrite (actual_outcome_target d p entry cs target Hr).
    rewrite (hypothetical_outcome_target d p os target Hr).
    eexists. split; [reflexivity |]. repeat split; reflexivity.
  - intros Hn Hs.
    rewrite (actual_outcome_stop d p entry cs target Hn Hs).
    eexists. split; [reflexivity |]. repeat split; try reflexivity.
    + simpl. now rewrite (hypothetical_outcome_stop d p os target Hn).
    + simpl. now rewrite (hypothetical_outcome_stop d p os target Hn).
    + simpl. now rewrite (hypothetical_outcome_none d p os target Hn).
    + simpl. now rewrite (hypothetical_outcome_none d p os target Hn).
  - intros Hn Hs.
    now rewrite (actual_outcome_none d p entry cs target Hn Hs).
Qed.

End OutcomeFacts.

Lemma exit_pass_correct_witness :
  let s := new_signal 0 1 gbpusd_sell "m15.png" in
  let p := 12535 # 10000 in
  let feed := quote "GBPUSD" p in
  (List.NoDup (List.map id [s]) /\ In s [s] /\ is_active s = true /\
   original_stop_loss s = Some (12530 # 10000) /\
   stop_loss s = 12530 # 10000 /\
   usable_price (get_current_price feed (symbol s)) = Some p) /\
  (~ reached SELL p (12440 # 10000) -> stopped SELL p (12530 # 10000) ->
   exists row,
     select_by_id 1 (check_exits exact feed 90 [s]) = Some row /\
     status row = CLOSED /\
     result row = Some LOSS /\
     exit_price row = Some (12530 # 10000) /\
     (stopped SELL p (12530 # 10000) ->
      hypothetical_result row = Some LOSS /\
      hypothetical_exit_price row = Some (12530 # 10000)) /\
     (~ stopped SELL p (12530 # 10000) ->
      hypothetical_result row = None /\
      hypothetical_exit_price row = None)).
Proof.
  intros s p feed.
  assert (H1 : List.NoDup (List.map id [s])).
  { repeat constructor. simpl. tauto. }
  assert (H2 : In s [s]) by (left; reflexivity).
  assert (H3 : is_active s = true) by reflexivity.
  assert (H4 : original_stop_loss s = Some (12530 # 10000)) by reflexivity.
  assert (H5 : stop_loss s = 12530 # 10000) by reflexivity.
  assert (H6 : usable_price (get_current_price feed (symbol s)) = Some p)
    by (vm_compute; reflexivity).
  split; [tauto |].
  exact (proj1 (proj2
           (exit_pass_correct exact feed 90 [s] s p _ H1 H2 H3 H4 H5 H6))).
Defined.

(** C1 as stated fails on the hypothetical leg of a signal whose original
    stop equals the entry.  The filters let such a signal through only
    when entry and stop are both [0], the prices they skip: a SELL
    answered with [0] for its three prices is stored, and at the first
    quote the tracker closes it at its stop.  The exit rule applied to
    the original stop says BREAKEVEN, and the pass records LOSS. *)
Lemma hypothetical_leg_never_breakeven :
  let p := 11000 # 10000 in
  let feed := quote "EURUSD" p in
  let request :=
    Request 0 "EURUSD" no_indicators (Some sell_at_zero) "m15.png" in
  let stored := signals (serve true exact float_of_ratio empty_stores
                           [request]) in
  let tracked := signals (serve true exact float_of_ratio empty_stores
                            [request; Track feed (10 * minute)]) in
  exists s,
    stored = [s] /\
    is_active s = true /\
    usable_price (get_current_price feed (symbol s)) = Some p /\
    original_stop_loss s = Some (stop_loss s) /\
    fst <$> exit_rule (decision s) p (entry_price s) (stop_loss s)
              (take_profit s)
    = Some BREAKEVEN /\
    (result <$> select_by_id (id s) tracked) = Some (Some BREAKEVEN) /\
    (hypothetical_result <$> select_by_id (id s) tracked)
    = Some (Some LOSS).
Proof.
  intros p feed request stored tracked.
  eexists. split; [vm_compute; reflexivity |].
  repeat split; vm_compute; reflexivity.
Qed.

(** ** Breakeven impact *)

(** C3: the classification is NO_BREAKEVEN_USED when breakeven was not
    triggered; otherwise SAVED_LOSS for an actual BREAKEVEN against a
    hypothetical LOSS, MISSED_PROFIT for an actual BREAKEVEN against a
    hypothetical WIN, REDUCED_PROFIT for two WINs with the actual pips
    below the hypothetical pips, and NO_IMPACT in every other case, a null
    hypothetical result included. *)
Theorem breakeven_impact_classification
    (actual_result hypothetical_result : option Result)
    (actual_pnl hypothetical_pnl : Q) (breakeven_used : option Z) :
  calculate_breakeven_impact actual_result hypothetical_result
    actual_pnl hypothetical_pnl breakeven_used
  = impact_by_rule actual_result hypothetical_result
      actual_pnl hypothetical_pnl (flag_set breakeven_used).
Proof.
  unfold calculate_breakeven_impact, impact_by_rule.
  destruct (flag_set breakeven_used); simpl; [| reflexivity].
  destruct hypothetical_result as [[] |], actual_result as [[] |];
    simpl; reflexivity.
Qed.

(** ** Daily admission gate *)

Section AdmissionFacts.

Lemma filter_filter (P Q : Signal -> bool) (l : list Signal) :
  List.filter Q (List.filter P l) = List.filter (fun s => P s && Q s) l.
Proof.
  induction l as [| a l IH]; simpl; [reflexivity |].
  destruct (P a); simpl; [destruct (Q a) |]; now rewrite IH.
Qed.

Lemma sum_case_count (r : Result) (rows : list Signal) :
  sum_case r rows
  = Z.of_nat (length (List.filter (fun s => is_result r (result s)) rows)).
Proof.
  unfold sum_case. induction rows as [| a rows IH]; simpl; [reflexivity |].
  rewrite IH. destruct (is_result r (result a)); simpl length; lia.
Qed.

Lemma same_day_today (now t : Z) :
  (today_start now <=? t) && (t <=? today_end now) = same_day t now.
Proof.
  unfold today_end, today_start, same_day.
  assert (Hd : 0 < day) by reflexivity.
  assert (Hd0 : day <> 0) by discriminate.
  pose proof (Z.div_mod now day Hd0) as Hn.
  pose proof (Z.mod_pos_bound now day Hd) as Hnb.
  pose proof (Z.div_mod t day Hd0) as Ht.
  pose proof (Z.mod_pos_bound t day Hd) as Htb.
  set (k := now / day) in *. set (k' := t / day) in *.
  set (r := now mod day) in *. set (r' := t mod day) in *.
  clearbody k k' r r'. clear Hd0. unfold day in *.
  replace (now - r) with (86400000000 * k) by lia.
  destruct (Z.eqb_spec k' k) as [E | E].
  - apply andb_true_iff. split; apply Z.leb_le; lia.
  - apply andb_false_iff.
    destruct (Z_lt_le_dec k' k) as [Hlt | Hge].
    + left. apply Z.leb_gt. lia.
    + right. apply Z.leb_gt. lia.
Qed.

Lemma net_wins_today (now : Z) (db : list Signal) :
  net_wins (get_daily_net_wins now db)
  = created_today_as WIN now db - created_today_as LOSS now db.
Proof.
  unfold get_daily_net_wins, created_today_as, count_rows. simpl.
  rewrite !sum_case_count, !filter_filter.
  assert (E : forall r,
            List.filter (fun s => closed_today now s && is_result r (result s))
              db
            = List.filter (fun s => Status_eqb (status s) CLOSED
                                    && same_day (timestamp s) now
                                    && is_result r (result s)) db).
  { intros r. apply List.filter_ext. intros s. unfold closed_today.
    rewrite <- same_day_today.
    now destruct (Status_eqb (status s) CLOSED),
      (today_start now <=? timestamp s), (timestamp s <=? today_end now). }
  now rewrite !E.
Qed.

Lemma risky_count_signals (db : list Signal) :
  risky_count db = risky_signals db.
Proof.
  unfold risky_count, risky_signals, count_rows, get_risky_active_trades.
  do 2 f_equal. apply List.filter_ext. intros s. unfold is_risky.
  destruct (breakeven_triggered s) as [[] |]; reflexivity.
Qed.

(** C4, amended: the daily gate rejects exactly when the wins minus the
    losses among the CLOSED signals that were created on the current
    calendar day are at least 3 and no risky signal (ACTIVE, breakeven
    not triggered, any symbol) is open; with the cap reached and a risky
    signal open the request is admitted. *)
Theorem daily_gate (now : Z) (db : list Signal) :
  let net := created_today_as WIN now db - created_today_as LOSS now db in
  (is_daily_analysis_allowed now db = false <->
   3 <= net /\ risky_signals db = 0) /\
  (3 <= net /\ 0 < risky_signals db ->
   is_daily_analysis_allowed now db = true).
Proof.
  intros net. unfold is_daily_analysis_allowed, daily_limit.
  rewrite net_wins_today, risky_count_signals. fold net.
  destruct (Z.leb_spec 3 net), (Z.eqb_spec (risky_signals db) 0),
    (Z.ltb_spec 0 (risky_signals db)); simpl;
    repeat split; intros; try discriminate; try lia; tauto.
Qed.

End AdmissionFacts.

(** C4 as stated fails for wins that close today on signals of an
    earlier day: three trades opened in the evening reach their targets
    after midnight; today's wins minus losses are 3 and nothing is at
    risk, and the gate stays open, since it counts a signal on the day of
    its creation. *)
Lemma overnight_wins_leave_gate_open :
  let db := signals (serve true exact no_float empty_stores overnight_wins) in
  let now := 26 * hour_us in
  exited_today_as WIN now db - exited_today_as LOSS now db = 3 /\
  risky_signals db = 0 /\
  created_today_as WIN now db - created_today_as LOSS now db = 0 /\
  is_daily_analysis_allowed now db = true.
Proof.
  intros db now. repeat split; vm_compute; reflexivity.
Qed.

(** ** Trigger evaluation *)

Section EvalFacts.
Context (fl : Rounding).

Lemma is_str_spec (s : string) (j : json) :
  is_str s j = true <-> j = JStr s.
Proof.
  destruct j; simpl; try (split; [discriminate | congruence]).
  rewrite bool_decide_eq_true. split; congruence.
Qed.

Lemma is_str_other (s s' : string) :
  s <> s' -> is_str s (JStr s') = false.
Proof.
  intros H. simpl. apply bool_decide_eq_false. congruence.
Qed.

Lemma within_slop_iff (symbol : string) (price level : Q) :
  within_slop fl symbol price level = true <->
  (Qabs (fsub fl price level)
   <= fdiv fl (1 # 2) (inject_Z (get_pip_multiplier symbol)))%Q.
Proof. apply Qle_bool_iff. Qed.

(** C5, amended: with a price available, a pending trigger of type
    [range_edge_reject] is met exactly when its direction is bullish or
    bearish and [|price - level| <= slop], the slop being half a pip in
    price units of the symbol; with direction above or below it is
    never met. *)
Theorem range_edge_reject_met (feed : option PriceFile)
    (trigger : gmap string json) (symbol : string)
    (price level : Q) (direction : json)
    (Hprice : get_current_price feed symbol = Some price)
    (Htype : trigger !! "type"%string = Some (JStr "range_edge_reject"))
    (Hlevel : trigger !! "level"%string ≫= as_float = Some level)
    (Hdir : trigger !! "direction"%string = Some direction) :
  fst (eval_trigger fl feed trigger symbol) = true <->
  (direction = JStr "bullish" \/ direction = JStr "bearish") /\
  (Qabs (fsub fl price level)
   <= fdiv fl (1 # 2) (inject_Z (get_pip_multiplier symbol)))%Q.
Proof.
  unfold eval_trigger, get_recent_rates.
  rewrite Hprice, Hlevel, Htype, Hdir. cbn [List.last bar_close].
  unfold eval_condition.
  rewrite (is_str_other "level_break" "range_edge_reject") by discriminate.
  rewrite (is_str_other "retest_hold" "range_edge_reject") by discriminate.
  replace (is_str "range_edge_reject" (JStr "range_edge_reject"))
    with true by (symmetry; now apply is_str_spec).
  rewrite <- within_slop_iff, <- !is_str_spec.
  destruct (is_str "bullish" direction), (is_str "bearish" direction),
    (within_slop fl symbol price level); simpl;
    split; intros; try discriminate; try tauto;
    intuition discriminate.
Qed.

End EvalFacts.

Lemma range_edge_reject_met_witness :
  let price := 108503 # 100000 in
  let feed := quote "EURUSD" price in
  (get_current_price feed "EURUSD" = Some price /\
   edge_bearish_1_0850 !! "type"%string = Some (JStr "range_edge_reject") /\
   edge_bearish_1_0850 !! "level"%string ≫= as_float
   = Some (10850 # 10000) /\
   edge_bearish_1_0850 !! "direction"%string = Some (JStr "bearish")) /\
  (fst (eval_trigger exact feed edge_bearish_1_0850 "EURUSD") = true <->
   (JStr "bearish" = JStr "bullish" \/ JStr "bearish" = JStr "bearish") /\
   (Qabs (fsub exact price (10850 # 10000))
    <= fdiv exact (1 # 2) (inject_Z (get_pip_multiplier "EURUSD")))%Q).
Proof.
  intros price feed.
  assert (H1 : get_current_price feed "EURUSD" = Some price)
    by (vm_compute; reflexivity).
  assert (H2 : edge_bearish_1_0850 !! "type"%string
               = Some (JStr "range_edge_reject"))
    by (vm_compute; reflexivity).
  assert (H3 : edge_bearish_1_0850 !! "level"%string ≫= as_float
               = Some (10850 # 10000))
    by (vm_compute; reflexivity).
  assert (H4 : edge_bearish_1_0850 !! "direction"%string
               = Some (JStr "bearish"))
    by (vm_compute; reflexivity).
  split; [tauto |].
  exact (range_edge_reject_met exact feed edge_bearish_1_0850 "EURUSD"
           price (10850 # 10000) (JStr "bearish") H1 H2 H3 H4).
Defined.

(** C5 as stated fails for the direction [above]: with the price on the
    level, inside the slop, the trigger is not met, while the same
    trigger with direction [bearish] is. *)
Lemma range_edge_reject_above_not_met :
  let price := 10850 # 10000 in
  let feed := quote "EURUSD" price in
  edge_above_1_0850 !! "type"%string = Some (JStr "range_edge_reject") /\
  edge_above_1_0850 !! "direction"%string = Some (JStr "above") /\
  get_current_price feed "EURUSD" = Some price /\
  within_slop exact "EURUSD" price (10850 # 10000) = true /\
  fst (eval_trigger exact feed edge_above_1_0850 "EURUSD") = false /\
  fst (eval_trigger exact feed edge_bearish_1_0850 "EURUSD") = true.
Proof.
  intros price feed. repeat split; vm_compute; reflexivity.
Qed.

(** ** The watcher cycle *)

Section WatcherFacts.
Context (fl : Rounding).

Lemma mark_trigger_status_at (now : Z) (st : TStatus)
    (res : option string) (why : option Reason)
    (l1 l2 : list Trigger) (t : Trigger) :
  ~ In (t_id t) (List.map t_id l1) -> ~ In (t_id t) (List.map t_id l2) ->
  mark_trigger_status now (l1 ++ t :: l2) (t_id t) st res why
  = l1 ++ set_status st now res why t :: l2.
Proof.
  intros H1 H2. unfold mark_trigger_status. now apply map_at.
Qed.

Lemma process_trigger_at (env : Env) (l1 l2 : list Trigger) (t : Trigger) :
  ~ In (t_id t) (List.map t_id l1) -> ~ In (t_id t) (List.map t_id l2) ->
  process_trigger fl env (l1 ++ t :: l2) t
  = l1 ++ watch_row fl env t :: l2.
Proof.
  intros H1 H2. unfold process_trigger, watch_row.
  destruct (expiry_ts t <? now env);
    [now apply mark_trigger_status_at |].
  destruct (negb (is_valid_trading_time env)); [reflexivity |].
  destruct (is_news_window (t_symbol t)); [reflexivity |].
  destruct (eval_trigger _ _ _ _) as [met reason].
  destruct (negb met); [reflexivity |].
  destruct (re_analyze_with_trigger _ _ _ _);
    now apply mark_trigger_status_at.
Qed.

Lemma watch_row_id (env : Env) (t : Trigger) :
  t_id (watch_row fl env t) = t_id t.
Proof.
  unfold watch_row.
  destruct (expiry_ts t <? now env); [reflexivity |].
  destruct (negb (is_valid_trading_time env)); [reflexivity |].
  destruct (is_news_window (t_symbol t)); [reflexivity |].
  destruct (eval_trigger _ _ _ _) as [met reason].
  destruct (negb met); [reflexivity |].
  destruct (re_analyze_with_trigger _ _ _ _); reflexivity.
Qed.

Lemma watch_pass_row_id (env : Env) (t : Trigger) :
  t_id (watch_pass_row fl env t) = t_id t.
Proof.
  unfold watch_pass_row. destruct (is_pending t); auto using watch_row_id.
Qed.

(** One uninterrupted cycle of the watcher is a map over the table. *)
Lemma process_pending_triggers_map (env : Env) (db : list Trigger) :
  List.NoDup (List.map t_id db) ->
  process_pending_triggers fl env db
  = List.map (watch_pass_row fl env) db.
Proof.
  intros Hnd. unfold process_pending_triggers, get_pending_triggers.
  apply (fold_by_id t_id is_pending (watch_row fl env));
    auto using watch_row_id.
  intros l1 t l2 _. apply process_trigger_at.
Qed.

(** C6, amended: when the condition of a pending trigger is met and the
    re-analysis fails, the cycle marks the trigger CONSUMED with result
    ERROR and the match as fire reason; the trigger is no longer
    PENDING, so no later cycle selects it again. *)
Theorem failed_reanalysis_consumes (env : Env) (db : list Trigger)
    (t : Trigger) (reason : Reason)
    (Hids : List.NoDup (List.map t_id db))
    (Hin : In t db)
    (Hpending : t_status t = PENDING)
    (Hfresh : now env <= expiry_ts t)
    (Hhours : is_valid_trading_time env = true)
    (Hmet : eval_trigger fl (feed env) (trigger_json t) (t_symbol t)
            = (true, reason))
    (Hfail : re_analyze_with_trigger env (t_symbol t) (trigger_json t)
               (context_json t) = None) :
  let db' := process_pending_triggers fl env db in
  exists row,
    List.find (fun r => t_id r =? t_id t) db' = Some row /\
    t_status row = CONSUMED /\
    t_result row = Some "ERROR"%string /\
    fire_reason row = Some reason /\
    consumed_at row = Some (now env) /\
    ~ In row (get_pending_triggers db').
Proof.
  intros db'. unfold db'.
  rewrite (process_pending_triggers_map env db Hids).
  rewrite (find_in_map t_id (watch_pass_row fl env)
             (watch_pass_row_id env) db t Hids Hin).
  unfold watch_pass_row, is_pending, watch_row.
  rewrite Hpending, Hhours, Hmet, Hfail. simpl.
  destruct (Z.ltb_spec (expiry_ts t) (now env)) as [H | _]; [lia |].
  eexists. split; [reflexivity |]. repeat split.
  unfold get_pending_triggers. intros H.
  apply List.filter_In in H. simpl in H. destruct H. discriminate.
Qed.

End WatcherFacts.

Lemma failed_reanalysis_consumes_witness :
  let feed := quote "EURUSD" (10835 # 10000) in
  let env := model_down (60 * minute) feed in
  let t := pending_retest in
  (List.NoDup (List.map t_id [t]) /\ In t [t] /\ t_status t = PENDING /\
   now env <= expiry_ts t /\ is_valid_trading_time env = true /\
   eval_trigger exact (Triggers.feed env) (trigger_json t) (t_symbol t)
   = (true, RetestingBullish (10835 # 10000) (10835 # 10000)) /\
   re_analyze_with_trigger env (t_symbol t) (trigger_json t)
     (context_json t) = None) /\
  exists row,
    List.find (fun r => t_id r =? t_id t)
      (process_pending_triggers exact env [t]) = Some row /\
    t_status row = CONSUMED /\
    t_result row = Some "ERROR"%string /\
    fire_reason row
    = Some (RetestingBullish (10835 # 10000) (10835 # 10000)) /\
    consumed_at row = Some (now env) /\
    ~ In row (get_pending_triggers (process_pending_triggers exact env [t])).
Proof.
  intros feed env t.
  assert (H1 : List.NoDup (List.map t_id [t])).
  { repeat constructor. simpl. tauto. }
  assert (H2 : In t [t]) by (left; reflexivity).
  assert (H3 : t_status t = PENDING) by reflexivity.
  assert (H4 : now env <= expiry_ts t) by (vm_compute; discriminate).
  assert (H5 : is_valid_trading_time env = true) by reflexivity.
  assert (H6 : eval_trigger exact (Triggers.feed env) (trigger_json t)
                 (t_symbol t)
               = (true, RetestingBullish (10835 # 10000) (10835 # 10000)))
    by (vm_compute; reflexivity).
  assert (H7 : re_analyze_with_trigger env (t_symbol t) (trigger_json t)
                 (context_json t) = None)
    by (vm_compute; reflexivity).
  split; [tauto |].
  exact (failed_reanalysis_consumes exact env [t] t _ H1 H2 H3 H4 H5 H6 H7).
Defined.

(** C6 as stated fails: a pending trigger whose condition is met while
    every call of the model fails is CONSUMED by the cycle, and the next
    cycle finds no pending trigger to retry. *)
Lemma failed_reanalysis_not_retried :
  let feed := quote "EURUSD" (10835 # 10000) in
  let env := model_down (60 * minute) feed in
  let db := fst (save_trigger exact 0 [] "EURUSD" (wait_for retest_1_0835)) in
  status_of 1 db = Some PENDING /\
  fst (eval_trigger exact feed retest_1_0835 "EURUSD") = true /\
  re_analyze_with_trigger env "EURUSD" retest_1_0835 no_context = None /\
  status_of 1 (process_pending_triggers exact env db) = Some CONSUMED /\
  get_pending_triggers (process_pending_triggers exact env db) = [].
Proof.
  intros feed env db. repeat split; vm_compute; reflexivity.
Qed.

(** ** Saving a trigger *)

Section SaveFacts.
Context (fl : Rounding).





Lemma timedelta_range_spec (delta : Z) :
  timedelta_range delta = true <->
  -999999999 * day <= delta < 1000000000 * day.
Proof.
  unfold timedelta_range. rewrite andb_true_iff, Z.leb_le, Z.ltb_lt. tauto.
Qed.

Lemma datetime_range_spec (t : Z) :
  datetime_range t = true <-> 0 <= t < 3652059 * day.
Proof.
  unfold datetime_range. rewrite andb_true_iff, Z.leb_le, Z.ltb_lt. tauto.
Qed.


End SaveFacts.


(** ** The trigger state machine *)

Section StoreFacts.
Context (fl : Rounding).

Lemma pending_for_status (symbol : string) (t : Trigger) :
  pending_for symbol t = true -> t_status t = PENDING.
Proof.
  unfold pending_for. intros H. apply andb_true_iff in H.
  destruct H as [_ H]. destruct (t_status t); (reflexivity || discriminate).
Qed.

Lemma pending_for_set_status (symbol : string) (st : TStatus) (now : Z)
    (res : option string) (why : option Reason) (t : Trigger) :
  st <> PENDING -> pending_for symbol (set_status st now res why t) = false.
Proof.
  intros H. unfold pending_for. simpl.
  destruct st; try contradiction; apply andb_false_r.
Qed.

(** Moving rows to a terminal status never adds a pending row. *)
Lemma pending_count_retire (symbol : string) (sel : Trigger -> bool)
    (st : TStatus) (now : Z) (change : Trigger -> Trigger)
    (db : list Trigger) :
  (forall t, pending_for symbol (change t) = false) ->
  (pending_count symbol
     (List.map (fun t => if sel t then change t else t) db)
   <= pending_count symbol db)%nat.
Proof.
  intros Hc. unfold pending_count.
  induction db as [| a db IH]; simpl; [lia |].
  destruct (sel a).
  - rewrite Hc. destruct (pending_for symbol a); simpl; lia.
  - destruct (pending_for symbol a); simpl; lia.
Qed.

Lemma pending_count_supersede (now : Z) (symbol : string)
    (db : list Trigger) :
  pending_count symbol (supersede now symbol db) = 0%nat.
Proof.
  unfold pending_count, supersede.
  induction db as [| a db IH]; simpl; [reflexivity |].
  destruct (pending_for symbol a) eqn:E.
  - rewrite pending_for_set_status by discriminate. exact IH.
  - rewrite E. exact IH.
Qed.

Lemma pending_count_app (symbol : string) (l1 l2 : list Trigger) :
  pending_count symbol (l1 ++ l2)
  = (pending_count symbol l1 + pending_count symbol l2)%nat.
Proof.
  unfold pending_count. now rewrite List.filter_app, List.length_app.
Qed.

Lemma save_trigger_one_pending (now : Z) (db : list Trigger)
    (symbol : string) (analysis : Analysis) :
  one_pending db ->
  one_pending (fst (save_trigger fl now db symbol analysis)).
Proof.
  intros Hinv. unfold save_trigger.
  destruct (a_decision analysis); try exact Hinv.
  destruct (next_trigger analysis) as [nt |]; [| exact Hinv].
  destruct (_ || _); [exact Hinv |].
  destruct (negb _); [exact Hinv |].
  destruct (expiry_delta _ _ _); [| exact Hinv].
  destruct (negb (datetime_range _)); [exact Hinv |].
  intros symbol'. cbn [fst]. rewrite pending_count_app.
  destruct (decide (symbol' = symbol)) as [-> | Hne].
  - rewrite pending_count_supersede.
    unfold pending_count. simpl.
    destruct (pending_for _ _); simpl; lia.
  - assert (Hnew : forall t, t_symbol t = symbol ->
              pending_count symbol' [t] = 0%nat).
    { intros t Ht. unfold pending_count, pending_for. simpl.
      rewrite Ht, bool_decide_eq_false_2 by congruence. reflexivity. }
    rewrite Hnew by reflexivity.
    pose proof (pending_count_retire symbol' (pending_for symbol)
                  SUPERSEDED now
                  (fun t => set_status SUPERSEDED now (t_result t)
                              (fire_reason t) t) db) as Hle.
    unfold supersede. specialize (Hinv symbol').
    assert (forall t, pending_for symbol'
              (set_status SUPERSEDED now (t_result t) (fire_reason t) t)
            = false)
      by (intros; now apply pending_for_set_status).
    specialize (Hle H). lia.
Qed.

Lemma clear_one_pending (now : Z) (db : list Trigger) (symbol : string)
    (reason : string) :
  one_pending db ->
  one_pending (fst (clear_pending_triggers now db symbol reason)).
Proof.
  intros Hinv symbol'. cbn [fst clear_pending_triggers].
  pose proof (pending_count_retire symbol' (pending_for symbol)
                CLEARED now
                (fun t => set_status CLEARED now (t_result t)
                            (Some (Override reason)) t) db) as Hle.
  specialize (Hinv symbol').
  assert (forall t, pending_for symbol'
            (set_status CLEARED now (t_result t)
               (Some (Override reason)) t) = false)
    by (intros; now apply pending_for_set_status).
  specialize (Hle H). lia.
Qed.

Lemma mark_one_pending (now : Z) (db : list Trigger) (k : Z)
    (st : TStatus) (res : option string) (why : option Reason) :
  st <> PENDING -> one_pending db ->
  one_pending (mark_trigger_status now db k st res why).
Proof.
  intros Hst Hinv symbol'. unfold mark_trigger_status.
  pose proof (pending_count_retire symbol' (fun t => t_id t =? k)
                st now (set_status st now res why) db) as Hle.
  specialize (Hinv symbol').
  assert (forall t, pending_for symbol' (set_status st now res why t)
                    = false)
    by (intros; now apply pending_for_set_status).
  specialize (Hle H). lia.
Qed.

Lemma process_trigger_one_pending (env : Env) (db : list Trigger)
    (t : Trigger) :
  one_pending db -> one_pending (process_trigger fl env db t).
Proof.
  intros Hinv. unfold process_trigger.
  destruct (expiry_ts t <? now env);
    [apply mark_one_pending; [discriminate | exact Hinv] |].
  destruct (negb (is_valid_trading_time env)); [exact Hinv |].
  destruct (is_news_window (t_symbol t)); [exact Hinv |].
  destruct (eval_trigger _ _ _ _) as [met reason].
  destruct (negb met); [exact Hinv |].
  destruct (re_analyze_with_trigger _ _ _ _);
    (apply mark_one_pending; [discriminate | exact Hinv]).
Qed.

(** However the request handler and the watcher interleave, no symbol
    ever has two PENDING triggers. *)
Lemma one_pending_always (events : list Event) (w : World) :
  one_pending (table w) -> one_pending (table (run fl w events)).
Proof.
  revert w. induction events as [| e events IH]; intros w Hinv;
    [exact Hinv |].
  unfold run. cbn [fold_left]. apply IH.
  destruct e; cbn [step table].
  - now apply save_trigger_one_pending.
  - now apply clear_one_pending.
  - destruct (snapshot w); exact Hinv.
  - destruct (snapshot w) as [| t rest]; [exact Hinv |].
    cbn [table]. now apply process_trigger_one_pending.
Qed.

(** Superseding keeps every row: the rows that were PENDING for the
    symbol are still there, with status SUPERSEDED, and the others are
    unchanged. *)
Lemma supersede_keeps_rows (now : Z) (symbol : string) (db : list Trigger) :
  List.map t_id (supersede now symbol db) = List.map t_id db /\
  forall t, In t db ->
    exists t',
      In t' (supersede now symbol db) /\ t_id t' = t_id t /\
      t_status t'
      = (if pending_for symbol t then SUPERSEDED else t_status t).
Proof.
  unfold supersede. split.
  - induction db as [| a db IH]; simpl; [reflexivity |].
    rewrite IH. now destruct (pending_for symbol a).
  - intros t Hin.
    exists (if pending_for symbol t
            then set_status SUPERSEDED now (t_result t) (fire_reason t) t
            else t).
    split.
    + apply List.in_map_iff. exists t. split; [reflexivity | exact Hin].
    + now destruct (pending_for symbol t).
Qed.

Lemma next_trigger_id_above (db : list Trigger) (t : Trigger) :
  In t db -> t_id t < next_trigger_id db.
Proof.
  unfold next_trigger_id. induction db as [| a db IH]; simpl; [contradiction |].
  intros [-> | H]; [lia |]. specialize (IH H). lia.
Qed.

(** Saving keeps the ids unique. *)
Lemma save_trigger_ids (now : Z) (db : list Trigger) (symbol : string)
    (analysis : Analysis) :
  List.NoDup (List.map t_id db) ->
  List.NoDup (List.map t_id (fst (save_trigger fl now db symbol analysis))).
Proof.
  intros Hnd. unfold save_trigger.
  destruct (a_decision analysis); try exact Hnd.
  destruct (next_trigger analysis) as [nt |]; [| exact Hnd].
  destruct (_ || _); [exact Hnd |].
  destruct (negb _); [exact Hnd |].
  destruct (expiry_delta _ _ _); [| exact Hnd].
  destruct (negb (datetime_range _)); [exact Hnd |].
  cbn [fst]. rewrite List.map_app.
  rewrite (proj1 (supersede_keeps_rows now symbol db)). simpl.
  apply List.NoDup_app; auto.
  - repeat constructor. simpl. tauto.
  - intros k Hk [<- | []].
    apply List.in_map_iff in Hk. destruct Hk as (t & E & Hin).
    apply next_trigger_id_above in Hin. lia.
Qed.

(** Saving and clearing leave every row that is not PENDING as it is. *)
Lemma save_trigger_keeps_terminal (now : Z) (db : list Trigger)
    (symbol : string) (analysis : Analysis) (t : Trigger) :
  In t db -> t_status t <> PENDING ->
  In t (fst (save_trigger fl now db symbol analysis)).
Proof.
  intros Hin Hst. unfold save_trigger.
  destruct (a_decision analysis); try exact Hin.
  destruct (next_trigger analysis) as [nt |]; [| exact Hin].
  destruct (_ || _); [exact Hin |].
  destruct (negb _); [exact Hin |].
  destruct (expiry_delta _ _ _); [| exact Hin].
  destruct (negb (datetime_range _)); [exact Hin |].
  cbn [fst]. apply List.in_or_app. left.
  unfold supersede. apply List.in_map_iff. exists t. split; [| exact Hin].
  destruct (pending_for symbol t) eqn:E; [| reflexivity].
  apply pending_for_status in E. contradiction.
Qed.

Lemma clear_keeps_terminal (now : Z) (db : list Trigger)
    (symbol reason : string) (t : Trigger) :
  In t db -> t_status t <> PENDING ->
  In t (fst (clear_pending_triggers now db symbol reason)).
Proof.
  intros Hin Hst. cbn [fst clear_pending_triggers].
  apply List.in_map_iff. exists t. split; [| exact Hin].
  destruct (pending_for symbol t) eqn:E; [| reflexivity].
  apply pending_for_status in E. contradiction.
Qed.

(** So does a watcher cycle that runs without interruption. *)
Lemma cycle_keeps_terminal (env : Env) (db : list Trigger) (t : Trigger) :
  List.NoDup (List.map t_id db) ->
  In t db -> t_status t <> PENDING ->
  In t (process_pending_triggers fl env db).
Proof.
  intros Hnd Hin Hst.
  rewrite (process_pending_triggers_map fl env db Hnd).
  apply List.in_map_iff. exists t. split; [| exact Hin].
  unfold watch_pass_row, is_pending.
  destruct (t_status t); (contradiction || reflexivity).
Qed.

End StoreFacts.

(** C8: the watcher read trigger 1 as PENDING; before the watcher comes
    to it the request handler saves a new trigger for the same symbol,
    which moves trigger 1 to SUPERSEDED; the watcher then marks the row
    it read, and [mark_trigger_status] moves trigger 1 from SUPERSEDED to
    CONSUMED. *)
Lemma stale_watcher_moves_superseded_trigger :
  let start := {| table := []; snapshot := [] |} in
  let price := quote "EURUSD" (10835 # 10000) in
  let e1 := Save 0 "EURUSD" (wait_for retest_1_0835) in
  let e2 := Poll in
  let e3 := Save (30 * minute) "EURUSD" (wait_for edge_bearish_1_0850) in
  let e4 := Work (model_down (30 * minute + 1) price) in
  status_of 1 (table (run exact start [e1; e2])) = Some PENDING /\
  status_of 1 (table (run exact start [e1; e2; e3])) = Some SUPERSEDED /\
  status_of 2 (table (run exact start [e1; e2; e3])) = Some PENDING /\
  status_of 1 (table (run exact start [e1; e2; e3; e4])) = Some CONSUMED.
Proof.
  repeat split; vm_compute; reflexivity.
Qed.

(** ** The scenarios of the specification *)

Section Scenarios.

(** The price rises to entry plus risk, the stop moves to the entry; the
    price then falls to 1.0995: BREAKEVEN at 1.1000 with 0 pips, the
    hypothetical leg still running, no impact. *)
Example scenario_breakeven_then_back :
  let db1 :=
    check_active_signals exact (quote "EURUSD" (11020 # 10000))
      (10 * minute) (one_signal eurusd_buy) in
  let db2 :=
    check_active_signals exact (quote "EURUSD" (10995 # 10000))
      (20 * minute) db1 in
  (exists row,
     select_by_id 1 db1 = Some row /\ status row = ACTIVE /\
     breakeven_triggered row = Some 1 /\
     current_stop_loss row = Some (11000 # 10000)) /\
  (exists row,
     select_by_id 1 db2 = Some row /\ status row = CLOSED /\
     result row = Some BREAKEVEN /\
     exit_price row = Some (11000 # 10000) /\
     holds 0 (pnl_pips row) /\
     hypothetical_result row = None /\
     breakeven_impact row = Some NO_IMPACT /\
     original_stop_loss row = Some (10980 # 10000)).
Proof.
  split; eexists; (split; [vm_compute; reflexivity |]);
    repeat split; vm_compute; reflexivity.
Qed.

(** The price falls straight to 1.0975: LOSS at 1.0980 with -20 pips on
    both legs, breakeven never used. *)
Example scenario_straight_loss :
  let db1 :=
    check_active_signals exact (quote "EURUSD" (10975 # 10000))
      (20 * minute) (one_signal eurusd_buy) in
  exists row,
    select_by_id 1 db1 = Some row /\ status row = CLOSED /\
    result row = Some LOSS /\
    exit_price row = Some (10980 # 10000) /\
    holds (- (20)) (pnl_pips row) /\
    hypothetical_result row = Some LOSS /\
    holds (- (20)) (hypothetical_pnl_pips row) /\
    breakeven_impact row = Some NO_BREAKEVEN_USED.
Proof.
  eexists; (split; [vm_compute; reflexivity |]);
    repeat split; vm_compute; reflexivity.
Qed.

(** A stale price file closes nothing. *)
Example scenario_stale_feed :
  let stale :=
    Some {| file_age := 301; prices := {[ "EURUSD"%string := 10975 # 10000 ]} |}
  in
  check_active_signals exact stale (20 * minute) (one_signal eurusd_buy)
  = one_signal eurusd_buy.
Proof. vm_compute. reflexivity. Qed.

(** The retest trigger expires 120 minutes after its creation; a second
    WAIT for the symbol supersedes it; left alone for 130 minutes it is
    marked EXPIRED without an evaluation. *)
Example scenario_trigger_lifecycle :
  let t1 := fst (save_trigger exact 0 [] "EURUSD" (wait_for retest_1_0835)) in
  let t2 :=
    fst (save_trigger exact (5 * minute) t1 "EURUSD"
           (wait_for retest_1_0835)) in
  let t3 :=
    process_pending_triggers exact (model_down (130 * minute) None) t1 in
  List.map (fun t => (t_id t, t_status t, expiry_ts t)) t1
  = [(1, PENDING, 120 * minute)] /\
  List.map (fun t => (t_id t, t_status t)) t2
  = [(1, SUPERSEDED); (2, PENDING)] /\
  List.map (fun t => (t_id t, t_status t, fire_reason t)) t3
  = [(1, EXPIRED, None)].
Proof. repeat split; vm_compute; reflexivity. Qed.

(** Three wins today and nothing at risk close the gate; one risky
    signal opens it again. *)
Example scenario_daily_gate :
  let won :=
    check_active_signals exact (quote "EURUSD" (11050 # 10000)) minute in
  let day1 :=
    won (fst (save_signal_to_db 0
      (won (fst (save_signal_to_db 0
        (won (one_signal eurusd_buy)) eurusd_buy "")))
      eurusd_buy "")) in
  is_daily_analysis_allowed (2 * minute) day1 = false /\
  is_daily_analysis_allowed (2 * minute)
    (fst (save_signal_to_db minute day1 gbpusd_sell "")) = true.
Proof. split; vm_compute; reflexivity. Qed.

End Scenarios.

(** * Further properties of the code *)

(** ** The other trigger conditions *)

Section ConditionFacts.
Context (fl : Rounding).

Lemma Qlt_bool_iff (x y : Q) : Qlt_bool x y = true <-> (x < y)%Q.
Proof.
  unfold Qlt_bool. rewrite negb_true_iff. split.
  - intros H. apply Qnot_le_lt. now apply Qle_bool_false.
  - intros H. destruct (Qle_bool y x) eqn:E; [| reflexivity].
    apply Qle_bool_iff in E. lra.
Qed.

Lemma eval_trigger_ready (feed : option PriceFile)
    (trigger : gmap string json) (symbol : string)
    (price level : Q) (ty direction : json) :
  get_current_price feed symbol = Some price ->
  trigger !! "type"%string = Some ty ->
  trigger !! "level"%string ≫= as_float = Some level ->
  trigger !! "direction"%string = Some direction ->
  eval_trigger fl feed trigger symbol
  = eval_condition fl symbol ty direction price level.
Proof.
  intros Hp Ht Hl Hd. unfold eval_trigger, get_recent_rates.
  now rewrite Hp, Hl, Ht, Hd.
Qed.

(** A [level_break] trigger is met exactly when the price is strictly
    beyond the level on the side its direction names; a price on the
    level, and a direction other than above or below, never meet it. *)
Theorem level_break_met (feed : option PriceFile)
    (trigger : gmap string json) (symbol : string)
    (price level : Q) (direction : json)
    (Hprice : get_current_price feed symbol = Some price)
    (Htype : trigger !! "type"%string = Some (JStr "level_break"))
    (Hlevel : trigger !! "level"%string ≫= as_float = Some level)
    (Hdir : trigger !! "direction"%string = Some direction) :
  fst (eval_trigger fl feed trigger symbol) = true <->
  (direction = JStr "above" /\ (level < price)%Q) \/
  (direction = JStr "below" /\ (price < level)%Q).
Proof.
  rewrite (eval_trigger_ready feed trigger symbol price level _ direction
             Hprice Htype Hlevel Hdir).
  unfold eval_condition.
  replace (is_str "level_break" (JStr "level_break")) with true
    by (symmetry; now apply is_str_spec).
  rewrite <- !Qlt_bool_iff, <- !is_str_spec.
  destruct (is_str "above" direction), (is_str "below" direction),
    (Qlt_bool level price), (Qlt_bool price level); simpl;
    split; intros; try discriminate; try tauto; intuition discriminate.
Qed.

(** A [retest_hold] trigger is met exactly when the price is within the
    slop of the level and on the side of the level its direction asks
    for: at or above for bullish, at or below for bearish. *)
Theorem retest_hold_met (feed : option PriceFile)
    (trigger : gmap string json) (symbol : string)
    (price level : Q) (direction : json)
    (Hprice : get_current_price feed symbol = Some price)
    (Htype : trigger !! "type"%string = Some (JStr "retest_hold"))
    (Hlevel : trigger !! "level"%string ≫= as_float = Some level)
    (Hdir : trigger !! "direction"%string = Some direction) :
  fst (eval_trigger fl feed trigger symbol) = true <->
  (Qabs (fsub fl price level)
   <= fdiv fl (1 # 2) (inject_Z (get_pip_multiplier symbol)))%Q /\
  ((direction = JStr "bullish" /\ (level <= price)%Q) \/
   (direction = JStr "bearish" /\ (price <= level)%Q)).
Proof.
  rewrite (eval_trigger_ready feed trigger symbol price level _ direction
             Hprice Htype Hlevel Hdir).
  unfold eval_condition.
  rewrite (is_str_other "level_break" "retest_hold") by discriminate.
  replace (is_str "retest_hold" (JStr "retest_hold")) with true
    by (symmetry; now apply is_str_spec).
  rewrite <- within_slop_iff, <- !Qle_bool_iff, <- !is_str_spec.
  destruct (is_str "bullish" direction), (is_str "bearish" direction),
    (within_slop fl symbol price level), (Qle_bool level price),
    (Qle_bool price level); simpl;
    split; intros; try discriminate; try tauto; intuition discriminate.
Qed.

(** An [ema_retouch] trigger is met exactly when the price is within the
    slop of the level, whatever its direction. *)
Theorem ema_retouch_met (feed : option PriceFile)
    (trigger : gmap string json) (symbol : string)
    (price level : Q) (direction : json)
    (Hprice : get_current_price feed symbol = Some price)
    (Htype : trigger !! "type"%string = Some (JStr "ema_retouch"))
    (Hlevel : trigger !! "level"%string ≫= as_float = Some level)
    (Hdir : trigger !! "direction"%string = Some direction) :
  fst (eval_trigger fl feed trigger symbol) = true <->
  (Qabs (fsub fl price level)
   <= fdiv fl (1 # 2) (inject_Z (get_pip_multiplier symbol)))%Q.
Proof.
  rewrite (eval_trigger_ready feed trigger symbol price level _ direction
             Hprice Htype Hlevel Hdir).
  unfold eval_condition.
  rewrite (is_str_other "level_break" "ema_retouch") by discriminate.
  rewrite (is_str_other "retest_hold" "ema_retouch") by discriminate.
  rewrite (is_str_other "range_edge_reject" "ema_retouch") by discriminate.
  replace (is_str "ema_retouch" (JStr "ema_retouch")) with true
    by (symmetry; now apply is_str_spec).
  rewrite <- within_slop_iff.
  destruct (within_slop fl symbol price level); simpl;
    split; intros; try discriminate; tauto.
Qed.

(** A trigger is not met when no price is available, when its level is
    missing or [null], when its type or its direction is missing, and
    when its type is none of the four known ones. *)
Theorem eval_trigger_not_met (feed : option PriceFile)
    (trigger : gmap string json) (symbol : string)
    (Hbad : get_current_price feed symbol = None \/
            trigger !! "level"%string = None \/
            trigger !! "level"%string = Some JNull \/
            trigger !! "type"%string = None \/
            trigger !! "direction"%string = None \/
            (forall ty, trigger !! "type"%string = Some ty ->
               ty <> JStr "level_break" /\ ty <> JStr "retest_hold" /\
               ty <> JStr "range_edge_reject" /\ ty <> JStr "ema_retouch")) :
  fst (eval_trigger fl feed trigger symbol) = false.
Proof.
  unfold eval_trigger, get_recent_rates.
  destruct (get_current_price feed symbol) as [price |] eqn:Hp;
    [| reflexivity].
  destruct Hbad as [H | [H | [H | [H | [H | H]]]]].
  - discriminate.
  - rewrite H. reflexivity.
  - rewrite H. reflexivity.
  - rewrite H. now destruct (_ ≫= _).
  - rewrite H. destruct (_ ≫= _); [| reflexivity].
    now destruct (trigger !! "type"%string).
  - destruct (_ ≫= _) as [level |]; [| reflexivity].
    destruct (trigger !! "type"%string) as [ty |]; [| reflexivity].
    destruct (trigger !! "direction"%string) as [direction |];
      [| reflexivity].
    destruct (H ty eq_refl) as (H1 & H2 & H3 & H4).
    cbn [List.last bar_close]. unfold eval_condition.
    repeat match goal with
    | |- context [is_str ?s ty] =>
        let E := fresh in
        destruct (is_str s ty) eqn:E;
        [apply is_str_spec in E; contradiction |]
    end.
    reflexivity.
Qed.

End ConditionFacts.

Lemma level_break_met_witness :
  let price := 10905 # 10000 in
  let feed := quote "EURUSD" price in
  (get_current_price feed "EURUSD" = Some price /\
   break_above_1_0900 !! "type"%string = Some (JStr "level_break") /\
   break_above_1_0900 !! "level"%string ≫= as_float = Some (10900 # 10000) /\
   break_above_1_0900 !! "direction"%string = Some (JStr "above")) /\
  (fst (eval_trigger exact feed break_above_1_0900 "EURUSD") = true <->
   (JStr "above" = JStr "above" /\ (10900 # 10000 < price)%Q) \/
   (JStr "above" = JStr "below" /\ (price < 10900 # 10000)%Q)).
Proof.
  intros price feed.
  assert (H1 : get_current_price feed "EURUSD" = Some price)
    by (vm_compute; reflexivity).
  assert (H2 : break_above_1_0900 !! "type"%string
               = Some (JStr "level_break")) by (vm_compute; reflexivity).
  assert (H3 : break_above_1_0900 !! "level"%string ≫= as_float
               = Some (10900 # 10000)) by (vm_compute; reflexivity).
  assert (H4 : break_above_1_0900 !! "direction"%string
               = Some (JStr "above")) by (vm_compute; reflexivity).
  split; [tauto |].
  exact (level_break_met exact feed break_above_1_0900 "EURUSD" price
           (10900 # 10000) (JStr "above") H1 H2 H3 H4).
Defined.

Lemma retest_hold_met_witness :
  let price := 108352 # 100000 in
  let feed := quote "EURUSD" price in
  (get_current_price feed "EURUSD" = Some price /\
   retest_1_0835 !! "type"%string = Some (JStr "retest_hold") /\
   retest_1_0835 !! "level"%string ≫= as_float = Some (10835 # 10000) /\
   retest_1_0835 !! "direction"%string = Some (JStr "bullish")) /\
  (fst (eval_trigger exact feed retest_1_0835 "EURUSD") = true <->
   (Qabs (fsub exact price (10835 # 10000))
    <= fdiv exact (1 # 2) (inject_Z (get_pip_multiplier "EURUSD")))%Q /\
   ((JStr "bullish" = JStr "bullish" /\ (10835 # 10000 <= price)%Q) \/
    (JStr "bullish" = JStr "bearish" /\ (price <= 10835 # 10000)%Q))).
Proof.
  intros price feed.
  assert (H1 : get_current_price feed "EURUSD" = Some price)
    by (vm_compute; reflexivity).
  assert (H2 : retest_1_0835 !! "type"%string = Some (JStr "retest_hold"))
    by (vm_compute; reflexivity).
  assert (H3 : retest_1_0835 !! "level"%string ≫= as_float
               = Some (10835 # 10000)) by (vm_compute; reflexivity).
  assert (H4 : retest_1_0835 !! "direction"%string = Some (JStr "bullish"))
    by (vm_compute; reflexivity).
  split; [tauto |].
  exact (retest_hold_met exact feed retest_1_0835 "EURUSD" price
           (10835 # 10000) (JStr "bullish") H1 H2 H3 H4).
Defined.

Lemma ema_retouch_met_witness :
  let price := 10812 # 10000 in
  let feed := quote "EURUSD" price in
  (get_current_price feed "EURUSD" = Some price /\
   ema_h2_no_expiry !! "type"%string = Some (JStr "ema_retouch") /\
   ema_h2_no_expiry !! "level"%string ≫= as_float = Some (10812 # 10000) /\
   ema_h2_no_expiry !! "direction"%string = Some (JStr "bullish")) /\
  (fst (eval_trigger exact feed ema_h2_no_expiry "EURUSD") = true <->
   (Qabs (fsub exact price (10812 # 10000))
    <= fdiv exact (1 # 2) (inject_Z (get_pip_multiplier "EURUSD")))%Q).
Proof.
  intros price feed.
  assert (H1 : get_current_price feed "EURUSD" = Some price)
    by (vm_compute; reflexivity).
  assert (H2 : ema_h2_no_expiry !! "type"%string = Some (JStr "ema_retouch"))
    by (vm_compute; reflexivity).
  assert (H3 : ema_h2_no_expiry !! "level"%string ≫= as_float
               = Some (10812 # 10000)) by (vm_compute; reflexivity).
  assert (H4 : ema_h2_no_expiry !! "direction"%string
               = Some (JStr "bullish")) by (vm_compute; reflexivity).
  split; [tauto |].
  exact (ema_retouch_met exact feed ema_h2_no_expiry "EURUSD" price
           (10812 # 10000) (JStr "bullish") H1 H2 H3 H4).
Defined.

Lemma eval_trigger_not_met_witness :
  let feed := quote "EURUSD" (10905 # 10000) in
  break_without_level !! "level"%string = Some JNull /\
  fst (eval_trigger exact feed break_without_level "EURUSD") = false.
Proof.
  intros feed.
  assert (H : break_without_level !! "level"%string = Some JNull)
    by (vm_compute; reflexivity).
  split; [exact H |].
  exact (eval_trigger_not_met exact feed break_without_level "EURUSD"
           (or_intror (or_intror (or_introl H)))).
Defined.

(** ** The trigger store *)

Section TriggerStoreFacts.
Context (fl : Rounding).

Lemma map_id_on {A : Type} (g : A -> A) (l : list A) :
  (forall x, In x l -> g x = x) -> List.map g l = l.
Proof.
  intros H. induction l as [| a l IH]; simpl; [reflexivity |].
  rewrite H by now left. f_equal. apply IH. intros x Hx. apply H. now right.
Qed.

(** Clearing reports the number of triggers that were PENDING for the
    symbol, leaves none of them PENDING, marks each of them CLEARED with
    the reason, and touches no other row; a second clearing finds
    nothing to clear. *)
Theorem clear_pending_triggers_effect (now now' : Z) (db : list Trigger)
    (symbol reason reason' : string) :
  let db' := fst (clear_pending_triggers now db symbol reason) in
  snd (clear_pending_triggers now db symbol reason)
  = Z.of_nat (pending_count symbol db) /\
  pending_count symbol db' = 0%nat /\
  List.map t_id db' = List.map t_id db /\
  (forall t, In t db -> pending_for symbol t = false -> In t db') /\
  (forall t, In t db -> pending_for symbol t = true ->
     In (set_status CLEARED now (t_result t) (Some (Override reason)) t) db') /\
  snd (clear_pending_triggers now' db' symbol reason') = 0.
Proof.
  intros db'.
  assert (Hcount : pending_count symbol db' = 0%nat).
  { unfold db', pending_count. cbn [fst clear_pending_triggers].
    induction db as [| a db IH]; simpl; [reflexivity |].
    destruct (pending_for symbol a) eqn:E.
    - rewrite pending_for_set_status by discriminate. exact IH.
    - rewrite E. exact IH. }
  repeat split.
  - exact Hcount.
  - unfold db'. cbn [fst clear_pending_triggers].
    clear Hcount db'.
    induction db as [| a db IH]; simpl; [reflexivity |].
    rewrite IH. now destruct (pending_for symbol a).
  - intros t Hin Hp. unfold db'. cbn [fst clear_pending_triggers].
    apply List.in_map_iff. exists t. now rewrite Hp.
  - intros t Hin Hp. unfold db'. cbn [fst clear_pending_triggers].
    apply List.in_map_iff. exists t. now rewrite Hp.
  - cbn [snd clear_pending_triggers]. fold (pending_count symbol db').
    now rewrite Hcount.
Qed.


(** A pending trigger whose expiry has passed is marked EXPIRED by the
    cycle, with no result and no fire reason, whatever the price feed,
    the hour and the model would have said. *)
Theorem expired_trigger_marked (env : Env) (db : list Trigger) (t : Trigger)
    (Hids : List.NoDup (List.map t_id db))
    (Hin : In t db)
    (Hpending : t_status t = PENDING)
    (Hlate : expiry_ts t < now env) :
  exists row,
    List.find (fun r => t_id r =? t_id t) (process_pending_triggers fl env db)
    = Some row /\
    t_status row = EXPIRED /\ t_result row = None /\
    fire_reason row = None /\ consumed_at row = Some (now env) /\
    trigger_json row = trigger_json t /\ expiry_ts row = expiry_ts t.
Proof.
  rewrite (process_pending_triggers_map fl env db Hids).
  rewrite (find_in_map t_id (watch_pass_row fl env)
             (watch_pass_row_id fl env) db t Hids Hin).
  unfold watch_pass_row, is_pending, watch_row. rewrite Hpending. simpl.
  destruct (Z.ltb_spec (expiry_ts t) (now env)) as [_ | H]; [| lia].
  eexists. split; [reflexivity |]. repeat split.
Qed.

(** Outside the trading hours, 06:00 to 20:00, a cycle leaves the table
    as it is when no pending trigger has expired. *)
Theorem off_hours_cycle_changes_nothing (env : Env) (db : list Trigger)
    (Hids : List.NoDup (List.map t_id db))
    (Hhour : hour env < 6 \/ 20 <= hour env)
    (Hfresh : forall t, In t db -> t_status t = PENDING ->
                now env <= expiry_ts t) :
  process_pending_triggers fl env db = db.
Proof.
  rewrite (process_pending_triggers_map fl env db Hids).
  apply map_id_on. intros t Hin.
  unfold watch_pass_row, is_pending, watch_row.
  destruct (t_status t) eqn:Hst; try reflexivity. simpl.
  specialize (Hfresh t Hin Hst).
  destruct (Z.ltb_spec (expiry_ts t) (now env)) as [H | _]; [lia |].
  assert (Hv : is_valid_trading_time env = false).
  { unfold is_valid_trading_time.
    destruct (Z.leb_spec 6 (hour env)), (Z.ltb_spec (hour env) 20);
      simpl; try reflexivity; exfalso; lia. }
  now rewrite Hv.
Qed.

(** When the condition of a pending trigger is met and the re-analysis
    answers, the trigger is CONSUMED with the decision of the answer as
    result and the match as fire reason, whether the decision is a trade
    or WAIT. *)
Theorem answered_reanalysis_consumes (env : Env) (db : list Trigger)
    (t : Trigger) (reason : Reason) (answer : Analysis)
    (Hids : List.NoDup (List.map t_id db))
    (Hin : In t db)
    (Hpending : t_status t = PENDING)
    (Hfresh : now env <= expiry_ts t)
    (Hhours : is_valid_trading_time env = true)
    (Hmet : eval_trigger fl (feed env) (trigger_json t) (t_symbol t)
            = (true, reason))
    (Hanswer : re_analyze_with_trigger env (t_symbol t) (trigger_json t)
                 (context_json t) = Some answer) :
  exists row,
    List.find (fun r => t_id r =? t_id t) (process_pending_triggers fl env db)
    = Some row /\
    t_status row = CONSUMED /\
    t_result row = Some (decision_name (a_decision answer)) /\
    fire_reason row = Some reason /\
    consumed_at row = Some (now env).
Proof.
  rewrite (process_pending_triggers_map fl env db Hids).
  rewrite (find_in_map t_id (watch_pass_row fl env)
             (watch_pass_row_id fl env) db t Hids Hin).
  unfold watch_pass_row, is_pending, watch_row.
  rewrite Hpending, Hhours, Hmet, Hanswer. simpl.
  destruct (Z.ltb_spec (expiry_ts t) (now env)) as [H | _]; [lia |].
  eexists. split; [reflexivity |]. repeat split.
Qed.

(** Starting from an empty table, however saves, clears and the steps of
    the watcher interleave, no symbol ever has two PENDING triggers. *)
Theorem one_pending_from_empty (events : list Event) :
  one_pending (table (run fl {| table := []; snapshot := [] |} events)).
Proof.
  apply one_pending_always. intros symbol.
  unfold pending_count. simpl. lia.
Qed.

End TriggerStoreFacts.

Lemma expired_trigger_marked_witness :
  let env :=
    model_says BUY (130 * minute) 10 (quote "EURUSD" (10835 # 10000)) in
  let t := pending_retest in
  (List.NoDup (List.map t_id [t]) /\ In t [t] /\ t_status t = PENDING /\
   expiry_ts t < now env) /\
  exists row,
    List.find (fun r => t_id r =? t_id t)
      (process_pending_triggers exact env [t]) = Some row /\
    t_status row = EXPIRED /\ t_result row = None /\
    fire_reason row = None /\ consumed_at row = Some (now env) /\
    trigger_json row = trigger_json t /\ expiry_ts row = expiry_ts t.
Proof.
  intros env t.
  assert (H1 : List.NoDup (List.map t_id [t])).
  { repeat constructor. simpl. tauto. }
  assert (H2 : In t [t]) by (left; reflexivity).
  assert (H3 : t_status t = PENDING) by reflexivity.
  assert (H4 : expiry_ts t < now env) by (vm_compute; reflexivity).
  split; [tauto |].
  exact (expired_trigger_marked exact env [t] t H1 H2 H3 H4).
Defined.

Lemma off_hours_cycle_changes_nothing_witness :
  let env := model_says BUY (60 * minute) 22 (quote "EURUSD" (10835 # 10000)) in
  let db := [pending_retest] in
  (List.NoDup (List.map t_id db) /\
   (hour env < 6 \/ 20 <= hour env) /\
   (forall t, In t db -> t_status t = PENDING -> now env <= expiry_ts t)) /\
  process_pending_triggers exact env db = db.
Proof.
  intros env db.
  assert (H1 : List.NoDup (List.map t_id db)).
  { repeat constructor. simpl. tauto. }
  assert (H2 : hour env < 6 \/ 20 <= hour env)
    by (right; vm_compute; discriminate).
  assert (H3 : forall t, In t db -> t_status t = PENDING ->
                 now env <= expiry_ts t).
  { intros t [<- | []] _. vm_compute. discriminate. }
  split; [tauto |].
  exact (off_hours_cycle_changes_nothing exact env db H1 H2 H3).
Defined.

Lemma answered_reanalysis_consumes_witness :
  let env :=
    model_says WAIT (60 * minute) 10 (quote "EURUSD" (10835 # 10000)) in
  let t := pending_retest in
  let reason := RetestingBullish (10835 # 10000) (10835 # 10000) in
  (List.NoDup (List.map t_id [t]) /\ In t [t] /\ t_status t = PENDING /\
   now env <= expiry_ts t /\ is_valid_trading_time env = true /\
   eval_trigger exact (feed env) (trigger_json t) (t_symbol t)
   = (true, reason) /\
   re_analyze_with_trigger env (t_symbol t) (trigger_json t) (context_json t)
   = Some (answer_of WAIT)) /\
  exists row,
    List.find (fun r => t_id r =? t_id t)
      (process_pending_triggers exact env [t]) = Some row /\
    t_status row = CONSUMED /\
    t_result row = Some (decision_name (a_decision (answer_of WAIT))) /\
    fire_reason row = Some reason /\
    consumed_at row = Some (now env).
Proof.
  intros env t reason.
  assert (H1 : List.NoDup (List.map t_id [t])).
  { repeat constructor. simpl. tauto. }
  assert (H2 : In t [t]) by (left; reflexivity).
  assert (H3 : t_status t = PENDING) by reflexivity.
  assert (H4 : now env <= expiry_ts t) by (vm_compute; discriminate).
  assert (H5 : is_valid_trading_time env = true) by reflexivity.
  assert (H6 : eval_trigger exact (feed env) (trigger_json t) (t_symbol t)
               = (true, reason)) by (vm_compute; reflexivity).
  assert (H7 : re_analyze_with_trigger env (t_symbol t) (trigger_json t)
                 (context_json t) = Some (answer_of WAIT))
    by (vm_compute; reflexivity).
  split; [tauto |].
  exact (answered_reanalysis_consumes exact env [t] t reason _
           H1 H2 H3 H4 H5 H6 H7).
Defined.

(** ** The signal tracker as a whole *)

Section TrackerFacts.
Context (fl : Rounding).

Lemma tracker_row_id (feed : option PriceFile) (now : Z) (s : Signal) :
  id (tracker_row fl feed now s) = id s.
Proof.
  unfold tracker_row.
  now rewrite outcome_pass_row_id, breakeven_pass_row_id.
Qed.

(** One cycle of the tracker is a map over the table. *)
Lemma check_active_signals_map (feed : option PriceFile) (now : Z)
    (db : list Signal) :
  List.NoDup (List.map id db) ->
  check_active_signals fl feed now db
  = List.map (tracker_row fl feed now) db.
Proof.
  intros Hnd. unfold check_active_signals.
  rewrite (check_breakeven_conditions_map fl feed now db Hnd).
  rewrite check_exits_map.
  - now rewrite List.map_map.
  - rewrite map_ids; [exact Hnd |].
    intros r. apply breakeven_pass_row_id.
Qed.

Lemma breakeven_pass_row_plan (feed : option PriceFile) (now : Z)
    (s : Signal) :
  same_plan s (breakeven_pass_row fl feed now s).
Proof.
  unfold breakeven_pass_row, breakeven_row, same_plan.
  destruct (breakeven_pending s); [| tauto].
  destruct (usable_price _); [| tauto].
  destruct (breakeven_reached _ _ _ _ _); [| tauto].
  simpl. tauto.
Qed.

Lemma outcome_pass_row_plan (feed : option PriceFile) (now : Z)
    (s : Signal) :
  same_plan s (outcome_pass_row fl feed now s).
Proof.
  unfold outcome_pass_row, outcome_row, same_plan.
  destruct (is_active s); [| tauto].
  destruct (usable_price _); [| tauto].
  destruct (actual_outcome _ _ _ _ _) as [[res ex] |]; [| tauto].
  simpl. tauto.
Qed.

Lemma tracker_row_plan (feed : option PriceFile) (now : Z) (s : Signal) :
  same_plan s (tracker_row fl feed now s).
Proof.
  unfold tracker_row.
  pose proof (breakeven_pass_row_plan feed now s) as H1.
  pose proof (outcome_pass_row_plan feed now
                (breakeven_pass_row fl feed now s)) as H2.
  unfold same_plan in *. intuition congruence.
Qed.

(** A cycle of the tracker neither adds nor removes a row, and leaves on
    every row the columns of the plan: id, creation time, symbol,
    decision, entry, stop, target, original stop and the narrative. *)
Theorem tracker_keeps_rows_and_plan (feed : option PriceFile) (now : Z)
    (db : list Signal) (Hids : List.NoDup (List.map id db)) :
  let db' := check_active_signals fl feed now db in
  List.map id db' = List.map id db /\
  forall s, In s db ->
    exists row, select_by_id (id s) db' = Some row /\ same_plan s row.
Proof.
  intros db'. unfold db'.
  rewrite (check_active_signals_map feed now db Hids). split.
  - apply map_ids. intros r. apply tracker_row_id.
  - intros s Hin. exists (tracker_row fl feed now s). split.
    + apply pass_row_lookup; auto. intros r. apply tracker_row_id.
    + apply tracker_row_plan.
Qed.

Lemma closed_row_fixed (feed : option PriceFile) (now : Z) (s : Signal) :
  status s = CLOSED ->
  breakeven_pass_row fl feed now s = s /\
  outcome_pass_row fl feed now s = s.
Proof.
  intros H. unfold breakeven_pass_row, outcome_pass_row,
    breakeven_pending, is_active.
  now rewrite H.
Qed.

Lemma select_update_other (k j : Z) (f : Signal -> Signal)
    (db : list Signal) :
  (forall r, id (f r) = id r) -> j <> k ->
  select_by_id k (update_by_id j f db) = select_by_id k db.
Proof.
  intros Hf Hne. unfold select_by_id, update_by_id.
  induction db as [| a db IH]; simpl; [reflexivity |].
  destruct (Z.eqb_spec (id a) j) as [Ej | Ej].
  - rewrite Hf.
    destruct (Z.eqb_spec (id a) k) as [Ek | Ek]; [congruence | exact IH].
  - destruct (id a =? k); [reflexivity | exact IH].
Qed.

Lemma select_update_same (k : Z) (f : Signal -> Signal)
    (db : list Signal) (r : Signal) :
  (forall r, id (f r) = id r) ->
  select_by_id k db = Some r ->
  select_by_id k (update_by_id k f db) = Some (f r).
Proof.
  intros Hf. unfold select_by_id, update_by_id.
  induction db as [| a db IH]; simpl; [discriminate |].
  destruct (Z.eqb_spec (id a) k) as [E | E].
  - intros [= ->]. rewrite Hf.
    destruct (Z.eqb_spec (id r) k); [reflexivity | contradiction].
  - destruct (Z.eqb_spec (id a) k); [contradiction | exact IH].
Qed.

Lemma breakeven_step_other (feed : option PriceFile) (now : Z)
    (db : list Signal) (sig : Signal) (k : Z) :
  id sig <> k ->
  select_by_id k (breakeven_step fl feed now db sig) = select_by_id k db.
Proof.
  intros Hne. unfold breakeven_step.
  destruct (usable_price _) as [p |]; [| reflexivity].
  destruct (breakeven_reached _ _ _ _ _); [| reflexivity].
  unfold update_stop_loss_to_breakeven.
  destruct (select_by_id (id sig) db); [| reflexivity].
  now apply select_update_other.
Qed.

Lemma outcome_step_other (feed : option PriceFile) (now : Z)
    (db : list Signal) (sig : Signal) (k : Z) :
  id sig <> k ->
  select_by_id k (outcome_step fl feed now db sig) = select_by_id k db.
Proof.
  intros Hne. unfold outcome_step.
  destruct (usable_price _) as [p |]; [| reflexivity].
  destruct (actual_outcome _ _ _ _ _) as [[res ex] |]; [| reflexivity].
  unfold update_signal_with_hypothetical.
  destruct (select_by_id (id sig) db); [| reflexivity].
  now apply select_update_other.
Qed.

Lemma pass_on_other (step : list Signal -> Signal -> list Signal)
    (k : Z) (selected : list Signal) :
  (forall db sig, id sig <> k ->
                  select_by_id k (step db sig) = select_by_id k db) ->
  (forall sig, In sig selected -> id sig <> k) ->
  forall db,
    select_by_id k (fold_left step selected db) = select_by_id k db.
Proof.
  intros Hstep. induction selected as [| a l IH]; intros Hall db;
    [reflexivity |].
  cbn [fold_left]. rewrite IH.
  - apply Hstep, Hall. now left.
  - intros sig Hsig. apply Hall. now right.
Qed.

Lemma same_id_same_row (db : list Signal) (a b : Signal) :
  List.NoDup (List.map id db) -> In a db -> In b db -> id a = id b ->
  a = b.
Proof.
  induction db as [| x db IH]; intros Hnd Ha Hb E; [destruct Ha |].
  simpl in Hnd. apply List.NoDup_cons_iff in Hnd. destruct Hnd as [Hx Hnd].
  destruct Ha as [-> | Ha], Hb as [-> | Hb].
  - reflexivity.
  - exfalso. apply Hx. rewrite E. now apply List.in_map.
  - exfalso. apply Hx. rewrite <- E. now apply List.in_map.
  - now apply IH.
Qed.

Lemma filter_ids (P : Signal -> bool) (db : list Signal) :
  List.NoDup (List.map id db) ->
  List.NoDup (List.map id (List.filter P db)).
Proof.
  induction db as [| x db IH]; intros Hnd; [constructor |].
  simpl in Hnd. apply List.NoDup_cons_iff in Hnd. destruct Hnd as [Hx Hnd].
  simpl. destruct (P x); [| now apply IH].
  simpl. constructor; [| now apply IH].
  intros H. apply Hx. apply List.in_map_iff in H.
  destruct H as (y & E & Hy). apply List.filter_In in Hy.
  rewrite <- E. apply List.in_map. tauto.
Qed.

(** The tracker reads the rows it will work on, closes the connection,
    and then updates by id alone.  A signal that was CLOSED at the read
    is written by neither pass, whatever the other writers have made of
    the table in the meantime.  A signal that was ACTIVE at the read is
    closed by the exit pass when its price asks for it, with the
    tracker's result, exit and time, whatever the row has become since
    the read: a close by hand in between is overwritten. *)
Theorem tracker_writes_the_rows_it_read (feed : option PriceFile) (now : Z)
    (db0 : list Signal) (Hids : List.NoDup (List.map id db0)) :
  (forall s db,
     In s db0 -> status s = CLOSED ->
     select_by_id (id s)
       (breakeven_pass_on fl feed now (List.filter breakeven_pending db0) db)
     = select_by_id (id s) db /\
     select_by_id (id s)
       (exit_pass_on fl feed now (List.filter is_active db0) db)
     = select_by_id (id s) db) /\
  (forall s r db p res ex,
     In s db0 -> is_active s = true ->
     select_by_id (id s) db = Some r ->
     usable_price (get_current_price feed (symbol s)) = Some p ->
     actual_outcome (decision s) p (entry_price s) (effective_stop s)
       (take_profit s) = Some (res, ex) ->
     exists row,
       select_by_id (id s)
         (exit_pass_on fl feed now (List.filter is_active db0) db)
       = Some row /\
       status row = CLOSED /\ result row = Some res /\
       exit_price row = Some ex /\ exit_timestamp row = Some now /\
       timestamp row = timestamp r).
Proof.
  split.
  - intros s db Hin Hclosed.
    assert (Hother : forall P : Signal -> bool,
              (forall x, P x = true -> status x = ACTIVE) ->
              forall sig, In sig (List.filter P db0) -> id sig <> id s).
    { intros P HP sig Hsig E. apply List.filter_In in Hsig.
      destruct Hsig as [Hsig Hp].
      rewrite (same_id_same_row db0 sig s Hids Hsig Hin E) in Hp.
      apply HP in Hp. congruence. }
    split.
    + apply pass_on_other.
      * intros d sig. apply breakeven_step_other.
      * apply Hother. intros x Hx. unfold breakeven_pending in Hx.
        destruct (status x); [reflexivity | discriminate].
    + apply pass_on_other.
      * intros d sig. apply outcome_step_other.
      * apply Hother. intros x Hx. unfold is_active in Hx.
        destruct (status x); [reflexivity | discriminate].
  - intros s r db p res ex Hin Hactive Hr Hprice Hout.
    assert (Hsel : In s (List.filter is_active db0))
      by (apply List.filter_In; tauto).
    pose proof (filter_ids is_active db0 Hids) as Hnd.
    destruct (List.in_split _ _ Hsel) as (l1 & l2 & Hsplit).
    rewrite Hsplit in Hnd. rewrite List.map_app in Hnd. simpl in Hnd.
    pose proof (List.NoDup_remove_2 _ _ _ Hnd) as Hfresh.
    assert (H1 : forall sig, In sig l1 -> id sig <> id s).
    { intros sig Hsig E. apply Hfresh. apply List.in_or_app. left.
      rewrite <- E. now apply List.in_map. }
    assert (H2 : forall sig, In sig l2 -> id sig <> id s).
    { intros sig Hsig E. apply Hfresh. apply List.in_or_app. right.
      rewrite <- E. now apply List.in_map. }
    unfold exit_pass_on. rewrite Hsplit, List.fold_left_app.
    cbn [fold_left].
    rewrite (pass_on_other (outcome_step fl feed now) (id s) l2
               (fun d sig => outcome_step_other feed now d sig (id s)) H2).
    pose proof (pass_on_other (outcome_step fl feed now) (id s) l1
                  (fun d sig => outcome_step_other feed now d sig (id s))
                  H1 db) as Hl1.
    rewrite Hr in Hl1.
    unfold outcome_step at 1. rewrite Hprice, Hout.
    unfold update_signal_with_hypothetical. rewrite Hl1.
    match goal with
    | |- context [update_by_id (id s) ?f _] =>
        rewrite (select_update_same (id s) f _ r (fun _ => eq_refl) Hl1)
    end.
    eexists. split; [reflexivity |]. repeat split.
Qed.

Lemma breakeven_pass_row_cases (feed : option PriceFile) (now : Z)
    (s : Signal) :
  breakeven_pass_row fl feed now s = s \/
  breakeven_pending (breakeven_pass_row fl feed now s) = false.
Proof.
  unfold breakeven_pass_row, breakeven_row.
  destruct (breakeven_pending s); [| now left].
  destruct (usable_price _); [| now left].
  destruct (breakeven_reached _ _ _ _ _); [| now left].
  right. unfold breakeven_pending. simpl. apply andb_false_r.
Qed.

Lemma breakeven_pass_row_idem (feed : option PriceFile) (now : Z)
    (s : Signal) :
  breakeven_pass_row fl feed now (breakeven_pass_row fl feed now s)
  = breakeven_pass_row fl feed now s.
Proof.
  destruct (breakeven_pass_row_cases feed now s) as [E | E].
  - now rewrite !E.
  - remember (breakeven_pass_row fl feed now s) as r.
    unfold breakeven_pass_row. now rewrite E.
Qed.

Lemma outcome_pass_row_cases (feed : option PriceFile) (now : Z)
    (s : Signal) :
  outcome_pass_row fl feed now s = s \/
  status (outcome_pass_row fl feed now s) = CLOSED.
Proof.
  unfold outcome_pass_row, outcome_row.
  destruct (is_active s); [| now left].
  destruct (usable_price _); [| now left].
  destruct (actual_outcome _ _ _ _ _) as [[res ex] |]; [| now left].
  now right.
Qed.

Lemma tracker_row_idem (feed : option PriceFile) (now : Z) (s : Signal) :
  tracker_row fl feed now (tracker_row fl feed now s)
  = tracker_row fl feed now s.
Proof.
  unfold tracker_row.
  set (b := breakeven_pass_row fl feed now s).
  destruct (outcome_pass_row_cases feed now b) as [E | E].
  - rewrite E. unfold b. rewrite breakeven_pass_row_idem. fold b.
    now rewrite E.
  - destruct (closed_row_fixed feed now _ E) as [-> ->]. reflexivity.
Qed.

(** Running the tracker a second time on the same price file and clock
    changes nothing: what a cycle can do to a table it does at once. *)
Theorem tracker_idempotent (feed : option PriceFile) (now : Z)
    (db : list Signal) (Hids : List.NoDup (List.map id db)) :
  check_active_signals fl feed now (check_active_signals fl feed now db)
  = check_active_signals fl feed now db.
Proof.
  rewrite (check_active_signals_map feed now db Hids).
  rewrite check_active_signals_map.
  - rewrite List.map_map. apply List.map_ext. intros s.
    apply tracker_row_idem.
  - rewrite map_ids; [exact Hids |]. intros r. apply tracker_row_id.
Qed.

End TrackerFacts.

Lemma tracker_keeps_rows_and_plan_witness :
  let feed := quote "EURUSD" (11020 # 10000) in
  List.NoDup (List.map id two_open) /\
  List.map id (check_active_signals exact feed 60 two_open)
  = List.map id two_open /\
  forall s, In s two_open ->
    exists row,
      select_by_id (id s) (check_active_signals exact feed 60 two_open)
      = Some row /\ same_plan s row.
Proof.
  intros feed.
  assert (H : List.NoDup (List.map id two_open)).
  { repeat constructor; simpl; intuition discriminate. }
  split; [exact H |].
  exact (tracker_keeps_rows_and_plan exact feed 60 two_open H).
Defined.

Lemma tracker_writes_the_rows_it_read_witness :
  let feed := quote "EURUSD" (10975 # 10000) in
  let db0 := one_signal eurusd_buy in
  let s := new_signal 0 1 eurusd_buy "m15.png" in
  let db := fst (close_signal_manually exact (15 * minute) db0 1 (Some WIN)
                   (Some (11030 # 10000)) "by hand") in
  let r := set_result (15 * minute) 15 WIN (11030 # 10000)
             (calculate_pips exact (entry_price s) (11030 # 10000)
                (symbol s) (decision s))
             (Some "by hand"%string) s in
  (List.NoDup (List.map id db0) /\ In s db0 /\ is_active s = true /\
   select_by_id (id s) db = Some r /\ result r = Some WIN /\
   usable_price (get_current_price feed (symbol s))
   = Some (10975 # 10000) /\
   actual_outcome (decision s) (10975 # 10000) (entry_price s)
     (effective_stop s) (take_profit s) = Some (LOSS, 10980 # 10000)) /\
  exists row,
    select_by_id (id s)
      (exit_pass_on exact feed (20 * minute) (List.filter is_active db0) db)
    = Some row /\
    status row = CLOSED /\ result row = Some LOSS /\
    exit_price row = Some (10980 # 10000) /\
    exit_timestamp row = Some (20 * minute) /\
    timestamp row = timestamp r.
Proof.
  intros feed db0 s db r.
  assert (H1 : List.NoDup (List.map id db0)).
  { repeat constructor. simpl. tauto. }
  assert (H2 : In s db0) by (left; reflexivity).
  assert (H3 : is_active s = true) by (vm_compute; reflexivity).
  assert (H4 : select_by_id (id s) db = Some r) by (vm_compute; reflexivity).
  assert (H5 : result r = Some WIN) by reflexivity.
  assert (H6 : usable_price (get_current_price feed (symbol s))
               = Some (10975 # 10000)) by (vm_compute; reflexivity).
  assert (H7 : actual_outcome (decision s) (10975 # 10000) (entry_price s)
                 (effective_stop s) (take_profit s)
               = Some (LOSS, 10980 # 10000)) by (vm_compute; reflexivity).
  split; [tauto |].
  exact (proj2 (tracker_writes_the_rows_it_read exact feed (20 * minute)
                  db0 H1)
           s r db (10975 # 10000) LOSS (10980 # 10000) H2 H3 H4 H6 H7).
Defined.

Lemma tracker_idempotent_witness :
  let feed := quote "EURUSD" (11020 # 10000) in
  List.NoDup (List.map id two_open) /\
  check_active_signals exact feed 60
    (check_active_signals exact feed 60 two_open)
  = check_active_signals exact feed 60 two_open.
Proof.
  intros feed.
  assert (H : List.NoDup (List.map id two_open)).
  { repeat constructor; simpl; intuition discriminate. }
  split; [exact H |].
  exact (tracker_idempotent exact feed 60 two_open H).
Defined.

(** ** Pips and results of the exit pass *)

Section ExitFacts.
Context (fl : Rounding).

Lemma get_pip_multiplier_positive (symbol : string) :
  0 < get_pip_multiplier symbol.
Proof.
  unfold get_pip_multiplier.
  destruct (any_in gold_terms _); [lia |].
  destruct (any_in jpy_pairs _); lia.
Qed.

Lemma round_half_even_zero : round_half_even 0 = 0.
Proof. reflexivity. Qed.

Lemma round1_nonneg (x : Q) : (0 <= x)%Q -> (0 <= round1 fl x)%Q.
Proof.
  intros H. unfold round1. apply rnd_nonneg.
  assert (Hz : 0 <= round_half_even (x * 10)).
  { rewrite <- round_half_even_zero. apply round_half_even_mono. lra. }
  rewrite Zle_Qle in Hz. change (inject_Z 0) with 0%Q in Hz.
  apply Qle_shift_div_l; lra.
Qed.

Lemma pips_of_gain (x : Q) (m : Z) :
  0 < m -> (0 <= x)%Q -> (0 <= round1 fl (fmul fl x (inject_Z m)))%Q.
Proof.
  intros Hm Hx. apply round1_nonneg. unfold fmul. apply rnd_nonneg.
  apply Qmult_le_0_compat; [exact Hx |].
  change 0%Q with (inject_Z 0). rewrite <- Zle_Qle. lia.
Qed.

Lemma pips_opposite (a b : Q) (symbol : string) :
  (round1 fl (fmul fl (fsub fl a b) (inject_Z (get_pip_multiplier symbol)))
   == - round1 fl (fmul fl (fsub fl b a)
                     (inject_Z (get_pip_multiplier symbol))))%Q.
Proof.
  apply round1_opp, fmul_opp_l, fsub_opp.
Qed.

Lemma pips_with_the_trade (a b : Q) (symbol : string) :
  (a <= b)%Q ->
  (0 <= round1 fl (fmul fl (fsub fl b a)
                     (inject_Z (get_pip_multiplier symbol))))%Q.
Proof.
  intros Hab. apply pips_of_gain; [apply get_pip_multiplier_positive |].
  unfold fsub. apply rnd_nonneg. lra.
Qed.

Lemma pips_above_entry (entry exit : Q) (symbol : string) :
  (entry <= exit)%Q ->
  (0 <= calculate_pips fl entry exit symbol BUY)%Q /\
  (calculate_pips fl entry exit symbol SELL <= 0)%Q.
Proof.
  intros H. unfold calculate_pips. cbn zeta.
  pose proof (pips_with_the_trade entry exit symbol H) as Hgain.
  split; [exact Hgain |]. rewrite pips_opposite. lra.
Qed.

Lemma pips_below_entry (entry exit : Q) (symbol : string) :
  (exit <= entry)%Q ->
  (calculate_pips fl entry exit symbol BUY <= 0)%Q /\
  (0 <= calculate_pips fl entry exit symbol SELL)%Q.
Proof.
  intros H. unfold calculate_pips. cbn zeta.
  pose proof (pips_with_the_trade exit entry symbol H) as Hgain.
  split; [| exact Hgain]. rewrite pips_opposite. lra.
Qed.

(** A BUY that exits at or above its entry, and a SELL that exits at or
    below it, never show negative pips, and the opposite exits never show
    positive pips; a decision other than BUY and SELL gives [0]. *)
Theorem calculate_pips_sign (entry exit : Q) (symbol : string) :
  ((entry <= exit)%Q ->
   (0 <= calculate_pips fl entry exit symbol BUY)%Q /\
   (calculate_pips fl entry exit symbol SELL <= 0)%Q) /\
  ((exit <= entry)%Q ->
   (calculate_pips fl entry exit symbol BUY <= 0)%Q /\
   (0 <= calculate_pips fl entry exit symbol SELL)%Q) /\
  calculate_pips fl entry exit symbol WAIT = 0%Q.
Proof.
  split; [apply pips_above_entry |].
  split; [apply pips_below_entry | reflexivity].
Qed.

Lemma calculate_pips_flat (entry exit : Q) (symbol : string) (d : Decision) :
  (exit == entry)%Q -> (calculate_pips fl entry exit symbol d == 0)%Q.
Proof.
  intros H.
  destruct (pips_above_entry entry exit symbol) as [A1 A2]; [lra |].
  destruct (pips_below_entry entry exit symbol) as [B1 B2]; [lra |].
  destruct d; [lra | lra | reflexivity].
Qed.

Lemma Qlt_bool_irrefl (x : Q) : Qlt_bool x x = false.
Proof.
  unfold Qlt_bool. apply negb_false_iff. apply Qle_bool_iff. lra.
Qed.

Lemma actual_breakeven_at_entry (d : Decision) (p entry sl tp ex : Q) :
  actual_outcome d p entry sl tp = Some (BREAKEVEN, ex) ->
  (ex == entry)%Q /\ ex = sl.
Proof.
  unfold actual_outcome.
  destruct d; try discriminate;
    repeat match goal with
    | |- context [if ?c then _ else _] => destruct c eqn:?
    end; intros [= <-]; try discriminate; subst;
    (split; [now apply Qeq_bool_iff | reflexivity]).
Qed.

(** A signal that the exit pass closes as BREAKEVEN is closed with zero
    pips. *)
Theorem breakeven_close_has_zero_pips (feed : option PriceFile) (now : Z)
    (db : list Signal) (s row : Signal)
    (Hids : List.NoDup (List.map id db))
    (Hin : In s db)
    (Hactive : is_active s = true)
    (Hrow : select_by_id (id s) (check_exits fl feed now db) = Some row)
    (Hresult : result row = Some BREAKEVEN)
    (Hclosed : status row = CLOSED) :
  holds 0 (pnl_pips row) /\ exit_price row = Some (effective_stop s).
Proof.
  rewrite (check_exits_map fl feed now db Hids) in Hrow.
  rewrite (pass_row_lookup (outcome_pass_row fl feed now) db s
             (outcome_pass_row_id fl feed now) Hids Hin) in Hrow.
  injection Hrow as <-.
  destruct (is_active_trade s Hactive) as [Hst _].
  unfold outcome_pass_row, outcome_row in *. rewrite Hactive in *.
  destruct (usable_price _) as [p |]; [| congruence].
  destruct (actual_outcome _ _ _ _ _) as [[res ex] |] eqn:Ha; [| congruence].
  simpl in Hresult. injection Hresult as ->.
  destruct (actual_breakeven_at_entry _ _ _ _ _ _ Ha) as [He ->].
  simpl. split; [| reflexivity].
  now apply calculate_pips_flat.
Qed.

Lemma outcomes_agree_on_target (d : Decision) (p entry cs os tp ex ex' : Q) :
  actual_outcome d p entry cs tp = Some (WIN, ex) ->
  hypothetical_outcome d p os tp = Some (WIN, ex') ->
  ex = tp /\ ex' = tp.
Proof.
  unfold actual_outcome, hypothetical_outcome.
  destruct d; try discriminate;
    repeat match goal with
    | |- context [if ?c then _ else _] => destruct c eqn:?
    end; intros [= <-] [= <-]; try discriminate; auto.
Qed.

Lemma no_win_behind_breakeven (d : Decision) (p entry cs os tp ex ex' : Q) :
  actual_outcome d p entry cs tp = Some (BREAKEVEN, ex) ->
  hypothetical_outcome d p os tp <> Some (WIN, ex').
Proof.
  unfold actual_outcome, hypothetical_outcome.
  destruct d; try discriminate;
    repeat match goal with
    | |- context [if ?c then _ else _] => destruct c eqn:?
    end; intros [= <-]; try discriminate; congruence.
Qed.

(** The exit pass never records MISSED_PROFIT, and never REDUCED_PROFIT
    for a signal whose target is not [0]: both legs are judged on the
    same price, so the actual leg cannot stop where the hypothetical leg
    wins, and two wins exit at the same target. *)
Theorem exit_pass_impacts (feed : option PriceFile) (now : Z)
    (db : list Signal) (s row : Signal)
    (Hids : List.NoDup (List.map id db))
    (Hin : In s db)
    (Hactive : is_active s = true)
    (Hrow : select_by_id (id s) (check_exits fl feed now db) = Some row)
    (Hclosed : status row = CLOSED) :
  breakeven_impact row <> Some MISSED_PROFIT /\
  (~ (take_profit s == 0)%Q -> breakeven_impact row <> Some REDUCED_PROFIT).
Proof.
  rewrite (check_exits_map fl feed now db Hids) in Hrow.
  rewrite (pass_row_lookup (outcome_pass_row fl feed now) db s
             (outcome_pass_row_id fl feed now) Hids Hin) in Hrow.
  injection Hrow as <-.
  destruct (is_active_trade s Hactive) as [Hst _].
  unfold outcome_pass_row, outcome_row in *. rewrite Hactive in *.
  destruct (usable_price _) as [p |]; [| congruence].
  destruct (actual_outcome _ _ _ _ _) as [[res ex] |] eqn:Ha; [| congruence].
  cbn [breakeven_impact set_closed].
  unfold calculate_breakeven_impact.
  destruct (negb (flag_set (breakeven_triggered s)));
    [split; [| intros _]; discriminate |].
  destruct (hypothetical_outcome _ _ _ _) as [[hres hex] |] eqn:Hh;
    cbn [fmap option_fmap option_map fst];
    [| split; [| intros _]; discriminate].
  destruct res, hres; cbn; try (split; [| intros _]; discriminate).
  - destruct (outcomes_agree_on_target _ _ _ _ _ _ _ _ Ha Hh) as [-> ->].
    split; [destruct (Qlt_bool _ _); discriminate |].
    intros Htp. unfold hypothetical_pips.
    destruct (Qeq_bool (take_profit s) 0) eqn:E.
    + apply Qeq_bool_iff in E. contradiction.
    + rewrite Qlt_bool_irrefl. discriminate.
  - exfalso. exact (no_win_behind_breakeven _ _ _ _ _ _ _ _ Ha Hh).
Qed.

End ExitFacts.

Lemma breakeven_close_has_zero_pips_witness :
  let feed := quote "EURUSD" (10995 # 10000) in
  let s := eurusd_buy_protected in
  let row := outcome_row exact feed (20 * minute) s in
  (List.NoDup (List.map id [s]) /\ In s [s] /\ is_active s = true /\
   select_by_id (id s) (check_exits exact feed (20 * minute) [s]) = Some row /\
   result row = Some BREAKEVEN /\ status row = CLOSED) /\
  holds 0 (pnl_pips row) /\ exit_price row = Some (effective_stop s).
Proof.
  intros feed s row.
  assert (H1 : List.NoDup (List.map id [s])).
  { repeat constructor. simpl. tauto. }
  assert (H2 : In s [s]) by (left; reflexivity).
  assert (H3 : is_active s = true) by (vm_compute; reflexivity).
  assert (H4 : select_by_id (id s) (check_exits exact feed (20 * minute) [s])
               = Some row) by (vm_compute; reflexivity).
  assert (H5 : result row = Some BREAKEVEN) by (vm_compute; reflexivity).
  assert (H6 : status row = CLOSED) by (vm_compute; reflexivity).
  split; [tauto |].
  exact (breakeven_close_has_zero_pips exact feed (20 * minute) [s] s row
           H1 H2 H3 H4 H5 H6).
Defined.

Lemma exit_pass_impacts_witness :
  let feed := quote "EURUSD" (11050 # 10000) in
  let s := eurusd_buy_protected in
  let row := outcome_row exact feed (20 * minute) s in
  (List.NoDup (List.map id [s]) /\ In s [s] /\ is_active s = true /\
   select_by_id (id s) (check_exits exact feed (20 * minute) [s]) = Some row /\
   status row = CLOSED) /\
  breakeven_impact row <> Some MISSED_PROFIT /\
  (~ (take_profit s == 0)%Q -> breakeven_impact row <> Some REDUCED_PROFIT).
Proof.
  intros feed s row.
  assert (H1 : List.NoDup (List.map id [s])).
  { repeat constructor. simpl. tauto. }
  assert (H2 : In s [s]) by (left; reflexivity).
  assert (H3 : is_active s = true) by (vm_compute; reflexivity).
  assert (H4 : select_by_id (id s) (check_exits exact feed (20 * minute) [s])
               = Some row) by (vm_compute; reflexivity).
  assert (H5 : status row = CLOSED) by (vm_compute; reflexivity).
  split; [tauto |].
  exact (exit_pass_impacts exact feed (20 * minute) [s] s row
           H1 H2 H3 H4 H5).
Defined.

Section SavedLoss.
Context (fl : Rounding).

(** After breakeven, a price that comes back through the entry and the
    original stop closes the signal as BREAKEVEN against a hypothetical
    LOSS at the original stop, and the impact recorded is SAVED_LOSS. *)
Theorem gap_through_both_stops_saves_loss (feed : option PriceFile) (now : Z)
    (db : list Signal) (s : Signal) (p os : Q)
    (Hids : List.NoDup (List.map id db))
    (Hin : In s db)
    (Hactive : is_active s = true)
    (Hflag : flag_set (breakeven_triggered s) = true)
    (Hmoved : current_stop_loss s = Some (entry_price s))
    (Hstop : stop_loss s = os)
    (Hprice : usable_price (get_current_price feed (symbol s)) = Some p)
    (Hside : protective (decision s) (entry_price s) os)
    (Hshort : ~ reached (decision s) p (take_profit s))
    (Hfall : stopped (decision s) p os) :
  exists row,
    select_by_id (id s) (check_exits fl feed now db) = Some row /\
    status row = CLOSED /\
    result row = Some BREAKEVEN /\
    exit_price row = Some (entry_price s) /\
    hypothetical_result row = Some LOSS /\
    hypothetical_exit_price row = Some os /\
    breakeven_impact row = Some SAVED_LOSS.
Proof.
  rewrite (check_exits_map fl feed now db Hids).
  rewrite (pass_row_lookup (outcome_pass_row fl feed now) db s
             (outcome_pass_row_id fl feed now) Hids Hin).
  unfold outcome_pass_row, outcome_row.
  rewrite Hactive, Hprice, Hstop.
  assert (Heff : effective_stop s = entry_price s).
  { unfold effective_stop. now rewrite Hmoved. }
  rewrite Heff.
  assert (Hback : stopped (decision s) p (entry_price s)).
  { destruct (decision s); simpl in *; try contradiction; lra. }
  rewrite (actual_outcome_stop _ _ _ _ _ Hshort Hback).
  rewrite (hypothetical_outcome_stop _ _ _ _ Hshort Hfall).
  assert (Hrefl : Qeq_bool (entry_price s) (entry_price s) = true)
    by (apply Qeq_bool_iff; reflexivity).
  rewrite Hrefl.
  eexists. split; [reflexivity |]. repeat split.
  cbn. unfold calculate_breakeven_impact. now rewrite Hflag.
Qed.

End SavedLoss.

Lemma gap_through_both_stops_saves_loss_witness :
  let p := 10975 # 10000 in
  let feed := quote "EURUSD" p in
  let s := eurusd_buy_protected in
  (List.NoDup (List.map id [s]) /\ In s [s] /\ is_active s = true /\
   flag_set (breakeven_triggered s) = true /\
   current_stop_loss s = Some (entry_price s) /\
   stop_loss s = 10980 # 10000 /\
   usable_price (get_current_price feed (symbol s)) = Some p /\
   protective (decision s) (entry_price s) (10980 # 10000) /\
   ~ reached (decision s) p (take_profit s) /\
   stopped (decision s) p (10980 # 10000)) /\
  exists row,
    select_by_id (id s) (check_exits exact feed (20 * minute) [s])
    = Some row /\
    status row = CLOSED /\
    result row = Some BREAKEVEN /\
    exit_price row = Some (entry_price s) /\
    hypothetical_result row = Some LOSS /\
    hypothetical_exit_price row = Some (10980 # 10000) /\
    breakeven_impact row = Some SAVED_LOSS.
Proof.
  intros p feed s.
  assert (H1 : List.NoDup (List.map id [s])).
  { repeat constructor. simpl. tauto. }
  assert (H2 : In s [s]) by (left; reflexivity).
  assert (H3 : is_active s = true) by (vm_compute; reflexivity).
  assert (H4 : flag_set (breakeven_triggered s) = true)
    by (vm_compute; reflexivity).
  assert (H5 : current_stop_loss s = Some (entry_price s))
    by (vm_compute; reflexivity).
  assert (H6 : stop_loss s = 10980 # 10000) by (vm_compute; reflexivity).
  assert (H7 : usable_price (get_current_price feed (symbol s)) = Some p)
    by (vm_compute; reflexivity).
  assert (H8 : protective (decision s) (entry_price s) (10980 # 10000))
    by (vm_compute; discriminate).
  assert (H9 : ~ reached (decision s) p (take_profit s))
    by (vm_compute; congruence).
  assert (H10 : stopped (decision s) p (10980 # 10000))
    by (vm_compute; discriminate).
  split; [tauto |].
  exact (gap_through_both_stops_saves_loss exact feed (20 * minute) [s] s p _
           H1 H2 H3 H4 H5 H6 H7 H8 H9 H10).
Defined.

(** ** Admission, filters and the stores over a run *)

Section CooldownFacts.
Context (fl : Rounding).

Lemma latest_by_none (key : Signal -> Z) (rows : list Signal) :
  latest_by key rows = None -> rows = [].
Proof.
  destruct rows as [| r rows]; [reflexivity |].
  simpl. destruct (latest_by key rows) as [best |]; [| discriminate].
  destruct (key r <? key best); discriminate.
Qed.

Lemma latest_by_max (key : Signal -> Z) (rows : list Signal) (best : Signal) :
  latest_by key rows = Some best ->
  In best rows /\ forall r, In r rows -> key r <= key best.
Proof.
  revert best. induction rows as [| r rows IH]; intros best; [discriminate |].
  simpl. destruct (latest_by key rows) as [b |] eqn:E.
  - destruct (IH b eq_refl) as [Hin Hmax].
    destruct (key r <? key b) eqn:Hlt; intros [= <-].
    + apply Z.ltb_lt in Hlt. split; [now right |].
      intros r' [<- | Hr']; [lia | now apply Hmax].
    + apply Z.ltb_ge in Hlt. split; [now left |].
      intros r' [<- | Hr']; [lia |]. specialize (Hmax r' Hr'). lia.
  - intros [= <-]. apply latest_by_none in E. subst rows.
    split; [now left |]. intros r' [<- | []]. lia.
Qed.

Lemma closed_for_spec (symbol : string) (s : Signal) :
  closed_for symbol s = true <->
  Signals.symbol s = symbol /\ status s = CLOSED /\
  exists t, exit_timestamp s = Some t.
Proof.
  unfold closed_for. rewrite !andb_true_iff, !bool_decide_eq_true.
  split.
  - intros [[Hs Hst] Hex]. split; [assumption |]. split.
    + destruct (status s); simpl in Hst; congruence.
    + destruct Hex as [t Ht]. now exists t.
  - intros (Hs & Hst & t & Ht). split; [split |].
    + assumption.
    + now rewrite Hst.
    + now exists t.
Qed.

Lemma cooldown_blocks (now : Z) (db : list Signal) (s : Signal) (t : Z) :
  In s db -> status s = CLOSED -> exit_timestamp s = Some t ->
  now < t + hour_us ->
  is_symbol_analysis_allowed now db (symbol s) = false.
Proof.
  intros Hin Hst Ht Hsoon. unfold is_symbol_analysis_allowed.
  assert (Hf : In s (List.filter (closed_for (symbol s)) db)).
  { apply List.filter_In. split; [assumption |].
    apply closed_for_spec. split; [reflexivity |]. split; [assumption |].
    now exists t. }
  destruct (latest_by exit_time (List.filter (closed_for (symbol s)) db))
    as [best |] eqn:E.
  - destruct (latest_by_max _ _ _ E) as [_ Hmax].
    specialize (Hmax s Hf). unfold exit_time in Hmax at 1.
    rewrite Ht in Hmax. simpl in Hmax.
    change (1 * hour_us) with hour_us.
    destruct (now - exit_time best <? hour_us) eqn:Hlt; [reflexivity |].
    apply Z.ltb_ge in Hlt. lia.
  - apply latest_by_none in E. rewrite E in Hf. destruct Hf.
Qed.

(** The cooldown gate lets a symbol through exactly when every closed
    signal of the symbol that carries an exit time was closed at least
    one hour before. *)
Theorem cooldown_iff (now : Z) (db : list Signal) (symbol : string) :
  is_symbol_analysis_allowed now db symbol = true <->
  forall s t, In s db -> Signals.symbol s = symbol -> status s = CLOSED ->
    exit_timestamp s = Some t -> t + hour_us <= now.
Proof.
  split.
  - intros H s t Hin Hsym Hst Ht.
    destruct (Z_lt_le_dec now (t + hour_us)) as [Hsoon | Hlate];
      [| assumption].
    exfalso. subst symbol.
    rewrite (cooldown_blocks now db s t Hin Hst Ht Hsoon) in H.
    discriminate.
  - intros H. unfold is_symbol_analysis_allowed.
    destruct (latest_by exit_time (List.filter (closed_for symbol) db))
      as [best |] eqn:E; [| reflexivity].
    destruct (latest_by_max _ _ _ E) as [Hin _].
    apply List.filter_In in Hin. destruct Hin as [Hin Hc].
    apply closed_for_spec in Hc. destruct Hc as (Hs & Hst & tb & Htb).
    specialize (H best tb Hin Hs Hst Htb).
    unfold exit_time. rewrite Htb. simpl.
    change (1 * hour_us) with hour_us.
    destruct (now - tb <? hour_us) eqn:Hlt; [| reflexivity].
    apply Z.ltb_lt in Hlt. lia.
Qed.

Lemma breakeven_pass_row_status (feed : option PriceFile) (now : Z)
    (s : Signal) :
  status (breakeven_pass_row fl feed now s) = status s /\
  exit_timestamp (breakeven_pass_row fl feed now s) = exit_timestamp s.
Proof.
  unfold breakeven_pass_row, breakeven_row.
  destruct (breakeven_pending s); [| tauto].
  destruct (usable_price _); [| tauto].
  destruct (breakeven_reached _ _ _ _ _); [| tauto].
  simpl. tauto.
Qed.

Lemma tracker_row_exit_time (feed : option PriceFile) (now : Z)
    (s : Signal) :
  status s = ACTIVE ->
  status (tracker_row fl feed now s) = CLOSED ->
  exit_timestamp (tracker_row fl feed now s) = Some now.
Proof.
  intros Hact. unfold tracker_row.
  destruct (breakeven_pass_row_status feed now s) as [Hst _].
  set (b := breakeven_pass_row fl feed now s) in *.
  unfold outcome_pass_row, outcome_row.
  destruct (is_active b); [| congruence].
  destruct (usable_price _); [| congruence].
  destruct (actual_outcome _ _ _ _ _) as [[res ex] |]; [| congruence].
  reflexivity.
Qed.

(** A signal that the tracker closes at [now] keeps its symbol out of
    analysis for the following hour. *)
Theorem tracker_close_starts_cooldown (feed : option PriceFile)
    (now now' : Z) (db : list Signal) (s row : Signal)
    (Hids : List.NoDup (List.map id db))
    (Hin : In s db)
    (Hactive : is_active s = true)
    (Hrow : select_by_id (id s) (check_active_signals fl feed now db)
            = Some row)
    (Hclosed : status row = CLOSED)
    (Hsoon : now' < now + hour_us) :
  is_symbol_analysis_allowed now' (check_active_signals fl feed now db)
    (symbol s) = false.
Proof.
  rewrite (check_active_signals_map fl feed now db Hids) in *.
  rewrite (pass_row_lookup (tracker_row fl feed now) db s
             (tracker_row_id fl feed now) Hids Hin) in Hrow.
  injection Hrow as <-.
  assert (Hst : status s = ACTIVE).
  { unfold is_active in Hactive. apply andb_true_iff in Hactive.
    destruct Hactive as [H _]. destruct (status s); simpl in H; congruence. }
  pose proof (tracker_row_exit_time feed now s Hst Hclosed) as Hex.
  destruct (tracker_row_plan fl feed now s) as (_ & _ & Hsym & _).
  rewrite <- Hsym.
  exact (cooldown_blocks now' _ _ now (List.in_map _ _ _ Hin) Hclosed Hex
           Hsoon).
Qed.

End CooldownFacts.

Section LookupFacts.

(** [has_active_signal] answers with the newest ACTIVE trade of the
    symbol and the stop that is in force for it, and with nothing only
    when the symbol has no ACTIVE trade. *)
Theorem has_active_signal_newest (db : list Signal) (symbol : string) :
  match has_active_signal db symbol with
  | None =>
      forall s, In s db -> Signals.symbol s = symbol -> is_active s = false
  | Some a =>
      exists s,
        In s db /\ Signals.symbol s = symbol /\ is_active s = true /\
        as_signal_id a = id s /\ as_decision a = decision s /\
        as_sl a = effective_stop s /\
        forall s', In s' db -> Signals.symbol s' = symbol ->
                   is_active s' = true -> timestamp s' <= timestamp s
  end.
Proof.
  unfold has_active_signal.
  destruct (latest_by timestamp (List.filter (active_for symbol) db))
    as [best |] eqn:E.
  - destruct (latest_by_max _ _ _ E) as [Hin Hmax].
    apply List.filter_In in Hin. destruct Hin as [Hin Ha].
    unfold active_for in Ha. apply andb_true_iff in Ha.
    destruct Ha as [Hs Ha]. rewrite bool_decide_eq_true in Hs.
    exists best. cbn. repeat (split; [first [assumption | reflexivity] |]).
    intros s' Hin' Hs' Ha'. apply Hmax. apply List.filter_In.
    split; [assumption |]. unfold active_for.
    rewrite Ha', andb_true_r. now rewrite bool_decide_eq_true.
  - apply latest_by_none in E. intros s Hin Hs.
    destruct (is_active s) eqn:Ha; [| reflexivity]. exfalso.
    assert (Hf : In s (List.filter (active_for symbol) db)).
    { apply List.filter_In. split; [assumption |]. unfold active_for.
      rewrite Ha, andb_true_r. now rewrite bool_decide_eq_true. }
    rewrite E in Hf. destruct Hf.
Qed.

End LookupFacts.


Section ServeFacts.
Context (fl : Rounding) (parse_float : string -> option Q).

Lemma update_of_refl (s : Signal) : update_of s s.
Proof. unfold update_of. tauto. Qed.

Lemma tracker_row_update (feed : option PriceFile) (now : Z) (s : Signal) :
  update_of s (tracker_row fl feed now s).
Proof.
  destruct (tracker_row_plan fl feed now s)
    as (H1 & _ & H3 & H4 & H5 & H6 & H7 & H8 & _).
  unfold update_of. repeat (split; [assumption |]). split; [| auto].
  unfold tracker_row.
  destruct (breakeven_pass_row_status fl feed now s) as [Hst _].
  destruct (outcome_pass_row_cases fl feed now
              (breakeven_pass_row fl feed now s)) as [E | E];
    rewrite E; congruence.
Qed.

Lemma set_result_update (now duration : Z) (res : Result) (exit pnl : Q)
    (note : option string) (s : Signal) :
  update_of s (set_result now duration res exit pnl note s).
Proof.
  unfold update_of. simpl. repeat (split; [reflexivity |]).
  split; [discriminate | reflexivity].
Qed.

Lemma migrate_row_update (s : Signal) : update_of s (migrate_row s).
Proof.
  unfold update_of, migrate_row.
  destruct (original_stop_loss s) eqn:E; simpl; [rewrite E; tauto |].
  repeat (split; [reflexivity |]). split; [auto |].
  intros [x Hx]. discriminate.
Qed.

Lemma update_by_id_map (signal_id : Z) (f : Signal -> Signal)
    (db : list Signal) :
  (forall s, update_of s (f s)) ->
  exists g, (forall s, update_of s (g s)) /\
            update_by_id signal_id f db = List.map g db.
Proof.
  intros Hf. exists (fun s => if id s =? signal_id then f s else s).
  split; [| reflexivity].
  intros s. destruct (id s =? signal_id); [apply Hf | apply update_of_refl].
Qed.

Lemma close_signal_manually_map (now : Z) (db : list Signal)
    (signal_id : Z) (res : option Result) (exit : option Q) (note : string) :
  exists g, (forall s, update_of s (g s)) /\
            fst (close_signal_manually fl now db signal_id res exit note)
            = List.map g db.
Proof.
  assert (Hid : exists g, (forall s, update_of s (g s)) /\ db = List.map g db).
  { exists (fun s => s). split; [apply update_of_refl |].
    now rewrite List.map_id. }
  unfold close_signal_manually.
  destruct res as [res |]; [| exact Hid].
  destruct (usable_price exit) as [e |]; [| exact Hid].
  destruct (select_by_id signal_id db) as [row |] eqn:E; [| exact Hid].
  unfold update_signal_result. rewrite E. cbn [fst].
  apply update_by_id_map. intros s. apply set_result_update.
Qed.

(** What a request does to the two stores. *)
Lemma request_effect (blocking : bool) (now : Z) (st : Stores)
    (symbol : string) (indicator_data : Indicators)
    (answer : option Answer) (m15_screenshot : string) :
  let st' := fst (analyze_multi_timeframe blocking fl parse_float now st
                    symbol indicator_data answer m15_screenshot) in
  signals st' = signals st \/
  exists a,
    answer = Some a /\
    admission blocking now (signals st) symbol = Passed /\
    is_trade (a_decision (ans_analysis a)) = true /\
    validate_signal_before_execution fl parse_float (proposal_of symbol a)
      indicator_data = None /\
    signals st'
    = signals st ++
      [new_signal now (next_id (signals st))
         (signal_data_of symbol (a_decision (ans_analysis a)) a)
         m15_screenshot] /\
    triggers st'
    = fst (clear_pending_triggers now (triggers st) symbol
             ("Trade signal: " ++ decision_name (a_decision (ans_analysis a)))).
Proof.
  intros st'. unfold st', analyze_multi_timeframe.
  destruct (admission blocking now (signals st) symbol) eqn:Hgate;
    try (left; reflexivity).
  destruct answer as [a |]; [| left; reflexivity].
  cbn [fst]. unfold record_answer.
  destruct (is_trade (a_decision (ans_analysis a))) eqn:Htrade.
  - destruct (validate_signal_before_execution fl parse_float
                (proposal_of symbol a) indicator_data) as [r |] eqn:Hv.
    + left. reflexivity.
    + right. exists a. cbn. rewrite Htrade. cbn. tauto.
  - left. cbn. rewrite Htrade. reflexivity.
Qed.

Lemma act_signals (blocking : bool) (st : Stores) (a : Action) :
  List.NoDup (List.map id (signals st)) ->
  (exists g, (forall s, update_of s (g s)) /\
             signals (act blocking fl parse_float st a)
             = List.map g (signals st)) \/
  (exists now symbol answer shot,
     admission blocking now (signals st) symbol = Passed /\
     is_trade (a_decision (ans_analysis answer)) = true /\
     (exists indicator_data,
        validate_signal_before_execution fl parse_float
          (proposal_of symbol answer) indicator_data = None) /\
     signals (act blocking fl parse_float st a)
     = signals st ++
       [new_signal now (next_id (signals st))
          (signal_data_of symbol (a_decision (ans_analysis answer)) answer)
          shot]).
Proof.
  intros Hids.
  assert (Hid : exists g, (forall s, update_of s (g s)) /\
                          signals st = List.map g (signals st)).
  { exists (fun s => s). split; [apply update_of_refl |].
    now rewrite List.map_id. }
  destruct a as [now symbol ind answer shot | feed now | env
                | now signal_id res exit note |]; cbn [act signals].
  - destruct (request_effect blocking now st symbol ind answer shot)
      as [E | (a & _ & Hgate & Htrade & Hv & E & _)].
    + left. rewrite E. exact Hid.
    + right. exists now, symbol, a, shot.
      split; [assumption |]. split; [assumption |].
      split; [now exists ind | exact E].
  - left. rewrite (check_active_signals_map fl feed now _ Hids).
    exists (tracker_row fl feed now). split; [| reflexivity].
    intros s. apply tracker_row_update.
  - left. exact Hid.
  - left. apply close_signal_manually_map.
  - left. exists migrate_row. split; [| reflexivity].
    intros s. apply migrate_row_update.
Qed.

Lemma act_ids (blocking : bool) (st : Stores) (a : Action) :
  List.NoDup (List.map id (signals st)) ->
  List.NoDup (List.map id (signals (act blocking fl parse_float st a))).
Proof.
  intros Hids.
  destruct (act_signals blocking st a Hids)
    as [(g & Hg & E) | (now & symbol & answer & shot & _ & _ & _ & E)];
    rewrite E.
  - rewrite map_ids; [assumption |]. intros s. apply (Hg s).
  - apply (save_signal_ids now (signals st)
             (signal_data_of symbol (a_decision (ans_analysis answer)) answer)
             shot Hids).
Qed.

Lemma serve_invariant (blocking : bool) (I : Stores -> Prop) :
  (forall st a, I st -> I (act blocking fl parse_float st a)) ->
  forall actions st, I st -> I (serve blocking fl parse_float st actions).
Proof.
  intros Hstep actions.
  induction actions as [| a actions IH]; intros st H; [exact H |].
  apply (IH (act blocking fl parse_float st a)). now apply Hstep.
Qed.

Lemma filter_map_le (f : Signal -> bool) (g : Signal -> Signal)
    (l : list Signal) :
  (forall x, f (g x) = true -> f x = true) ->
  (length (List.filter f (List.map g l)) <= length (List.filter f l))%nat.
Proof.
  intros H. induction l as [| x l IH]; simpl; [lia |].
  destruct (f (g x)) eqn:E.
  - rewrite (H x E). simpl. lia.
  - destruct (f x); simpl; lia.
Qed.

Lemma active_for_update (symbol : string) (s row : Signal) :
  update_of s row -> active_for symbol row = true ->
  active_for symbol s = true.
Proof.
  intros (_ & Hsym & Hdec & _ & _ & _ & Hst & _).
  unfold active_for, is_active.
  rewrite !andb_true_iff, !bool_decide_eq_true.
  intros [Hs [Ha Ht]]. rewrite <- Hsym, <- Hdec.
  split; [assumption |]. split; [| assumption].
  rewrite Hst; [reflexivity |].
  destruct (status row); simpl in Ha; congruence.
Qed.

Lemma passing_means_no_active (now : Z) (db : list Signal) (symbol : string) :
  admission true now db symbol = Passed ->
  List.filter (active_for symbol) db = [].
Proof.
  unfold admission, has_active_signal.
  destruct (latest_by timestamp (List.filter (active_for symbol) db))
    as [best |] eqn:E; [discriminate |].
  intros _. now apply latest_by_none in E.
Qed.

(** With signal blocking switched on, and requests, tracker cycles,
    watcher cycles, manual closes and restarts each run to its end before
    the next begins, no symbol ever has two ACTIVE trades at once. *)
Theorem one_active_signal_per_symbol (actions : list Action)
    (symbol : string) :
  (active_count symbol
     (signals (serve true fl parse_float empty_stores actions)) <= 1)%nat.
Proof.
  set (I := fun st : Stores =>
              List.NoDup (List.map id (signals st)) /\
              forall symbol, (active_count symbol (signals st) <= 1)%nat).
  assert (H : I (serve true fl parse_float empty_stores actions)).
  { apply serve_invariant.
    - intros st a [Hids Hone]. split; [now apply act_ids |].
      intros sym.
      destruct (act_signals true st a Hids)
        as [(g & Hg & E) | (now & sy & answer & shot & Hgate & _ & _ & E)];
        rewrite E; unfold active_count.
      + specialize (Hone sym). unfold active_count in Hone.
        pose proof (filter_map_le (active_for sym) g (signals st)
                      (fun x => active_for_update sym x (g x) (Hg x))).
        lia.
      + rewrite List.filter_app, List.length_app.
        destruct (String.eqb_spec sym sy) as [-> | Hne].
        * rewrite (passing_means_no_active now _ sy Hgate).
          simpl. destruct (active_for sy _); simpl; lia.
        * specialize (Hone sym). unfold active_count in Hone.
          assert (Hnew : active_for sym
                    (new_signal now (next_id (signals st))
                       (signal_data_of sy (a_decision (ans_analysis answer))
                          answer) shot) = false).
          { unfold active_for. cbn [Signals.symbol new_signal signal_data_of
                                      sd_symbol].
            rewrite bool_decide_eq_false_2; [reflexivity | congruence]. }
          simpl. rewrite Hnew. simpl. lia.
    - split; [constructor |]. intros sym. unfold active_count. simpl. lia. }
  apply H.
Qed.

End ServeFacts.

Section FilterFacts.
Context (fl : Rounding) (parse_float : string -> option Q).

Lemma Qlt_bool_false (x y : Q) : Qlt_bool x y = false <-> (y <= x)%Q.
Proof.
  unfold Qlt_bool. rewrite negb_false_iff. apply Qle_bool_iff.
Qed.

Lemma usable_price_some (p : Q) :
  ~ (p == 0)%Q -> usable_price (Some p) = Some p.
Proof.
  intros H. unfold usable_price.
  destruct (Qeq_bool p 0) eqn:E; [| reflexivity].
  apply Qeq_bool_iff in E. contradiction.
Qed.

Lemma usable_price_nonzero (o : option Q) (p : Q) :
  usable_price o = Some p -> o = Some p /\ ~ (p == 0)%Q.
Proof.
  unfold usable_price. destruct o as [q |]; [| discriminate].
  destruct (Qeq_bool q 0) eqn:E; [discriminate |].
  intros [= <-]. split; [reflexivity |].
  intros H. apply Qeq_bool_iff in H. congruence.
Qed.

Lemma risk_reward_needs_risk (entry sl tp : Q) :
  (3 # 2 <= risk_reward_of fl entry sl tp)%Q -> ~ (fsub fl entry sl == 0)%Q.
Proof.
  unfold risk_reward_of. intros H E.
  destruct (Qlt_bool 0 (Qabs (fsub fl entry sl))) eqn:Hr.
  - apply Qlt_bool_iff in Hr. rewrite E in Hr. simpl in Hr.
    revert Hr. apply Qlt_irrefl.
  - revert H. apply Qlt_not_le. reflexivity.
Qed.

(** What an accepted proposal says of its prices. *)
Lemma accepted_prices (signal : Proposal) (indicator_data : Indicators) :
  validate_signal_before_execution fl parse_float signal indicator_data
  = None ->
  is_trade (pr_decision signal) = true /\
  forall entry sl,
    usable_price (pr_entry signal) = Some entry ->
    usable_price (pr_sl signal) = Some sl ->
    (10 <= stop_size_pips fl (pr_symbol signal) entry sl)%Q /\
    (stop_size_pips fl (pr_symbol signal) entry sl <= 100)%Q /\
    forall tp, usable_price (pr_tp signal) = Some tp ->
               (3 # 2 <= risk_reward_of fl entry sl tp)%Q.
Proof.
  intros Hv. split.
  - unfold validate_signal_before_execution in Hv. cbv zeta in Hv.
    destruct (pr_decision signal); [reflexivity | reflexivity |].
    exfalso.
    repeat match type of Hv with
           | Some _ = None => discriminate Hv
           | context [if ?c then _ else _] => destruct c
           | context [match ?x with Some _ => _ | None => _ end] =>
               destruct x
           end.
  - intros entry sl He Hs.
    unfold validate_signal_before_execution in Hv. cbv zeta in Hv.
    rewrite He, Hs in Hv.
    destruct (_ && Qlt_bool 75 _); [discriminate |].
    destruct (_ && Qlt_bool _ 25); [discriminate |].
    destruct (usable_price (pr_tp signal)) as [tp |] eqn:Ht.
    + destruct (Qlt_bool (risk_reward_of fl entry sl tp) (3 # 2)) eqn:Hrr;
        [discriminate |].
      destruct (Qlt_bool (stop_size_pips fl (pr_symbol signal) entry sl) 10)
        eqn:Hlo; [discriminate |].
      destruct (Qlt_bool 100 (stop_size_pips fl (pr_symbol signal) entry sl))
        eqn:Hhi; [discriminate |].
      apply Qlt_bool_false in Hrr, Hlo, Hhi.
      split; [assumption |]. split; [assumption |].
      intros tp' [= <-]. assumption.
    + destruct (match pr_risk_reward signal with
                | RRMissing => _ | RRText _ => _ | RROther => _ end);
        [discriminate |].
      destruct (Qlt_bool (stop_size_pips fl (pr_symbol signal) entry sl) 10)
        eqn:Hlo; [discriminate |].
      destruct (Qlt_bool 100 (stop_size_pips fl (pr_symbol signal) entry sl))
        eqn:Hhi; [discriminate |].
      apply Qlt_bool_false in Hlo, Hhi.
      split; [assumption |]. split; [assumption |].
      intros tp' [=].
Qed.

(** A proposal that passes the filters is a BUY or a SELL whose RSI is
    not beyond 75 for a BUY nor below 25 for a SELL; when entry and stop
    are not [0] the stop lies 10 to 100 pips from the entry, and when the
    target is not [0] either the reward is at least one and a half times
    the risk, so that the stop differs from the entry. *)
Theorem accepted_proposal (signal : Proposal) (indicator_data : Indicators)
    (Hpass : validate_signal_before_execution fl parse_float signal
               indicator_data = None) :
  is_trade (pr_decision signal) = true /\
  (pr_decision signal = BUY -> (indicator_rsi indicator_data <= 75)%Q) /\
  (pr_decision signal = SELL -> (25 <= indicator_rsi indicator_data)%Q) /\
  forall entry sl,
    usable_price (pr_entry signal) = Some entry ->
    usable_price (pr_sl signal) = Some sl ->
    (10 <= stop_size_pips fl (pr_symbol signal) entry sl)%Q /\
    (stop_size_pips fl (pr_symbol signal) entry sl <= 100)%Q /\
    forall tp, usable_price (pr_tp signal) = Some tp ->
               (3 # 2 <= risk_reward_of fl entry sl tp)%Q /\
               ~ (fsub fl entry sl == 0)%Q.
Proof.
  destruct (accepted_prices signal indicator_data Hpass) as [Htrade Hprices].
  split; [assumption |].
  unfold validate_signal_before_execution in Hpass. cbv zeta in Hpass.
  split; [| split].
  - intros Hd. rewrite Hd in Hpass. cbn [andb] in Hpass.
    destruct (Qlt_bool 75 (indicator_rsi indicator_data)) eqn:E;
      [discriminate |].
    now apply Qlt_bool_false in E.
  - intros Hd. rewrite Hd in Hpass. cbn [andb] in Hpass.
    destruct (Qlt_bool (indicator_rsi indicator_data) 25) eqn:E;
      [discriminate |].
    now apply Qlt_bool_false in E.
  - intros entry sl He Hs.
    destruct (Hprices entry sl He Hs) as (Hlo & Hhi & Hrr).
    split; [assumption |]. split; [assumption |].
    intros tp Ht. split; [now apply Hrr |].
    apply (risk_reward_needs_risk entry sl tp). now apply Hrr.
Qed.

Lemma verify_risk_reward_agrees (entry sl tp : Q) :
  fst (verify_risk_reward fl (Some entry) (Some sl) (Some tp) (3 # 2))
  = negb (Qlt_bool (risk_reward_of fl entry sl tp) (3 # 2)).
Proof.
  unfold verify_risk_reward, risk_reward_of, Qlt_bool at 1.
  rewrite negb_involutive.
  destruct (Qeq_bool (Qabs (fsub fl entry sl)) 0) eqn:E.
  - apply Qeq_bool_iff in E.
    assert (H0 : Qlt_bool 0 (Qabs (fsub fl entry sl)) = false).
    { apply Qlt_bool_false. rewrite E. apply Qle_refl. }
    rewrite H0. reflexivity.
  - assert (H0 : Qlt_bool 0 (Qabs (fsub fl entry sl)) = true).
    { apply Qlt_bool_iff.
      destruct (Qle_lt_or_eq _ _ (Qabs_nonneg (fsub fl entry sl)))
        as [H | H]; [assumption |].
      exfalso. symmetry in H. apply Qeq_bool_iff in H. congruence. }
    rewrite H0. reflexivity.
Qed.

(** A trade whose three prices are not [0] and whose ratio the handler
    finds below 1.5 never passes the filters. *)
Theorem unmet_ratio_is_rejected (signal : Proposal)
    (indicator_data : Indicators) (entry sl tp : Q)
    (Hentry : usable_price (pr_entry signal) = Some entry)
    (Hsl : usable_price (pr_sl signal) = Some sl)
    (Htp : usable_price (pr_tp signal) = Some tp)
    (Hunmet : fst (verify_risk_reward fl (pr_entry signal) (pr_sl signal)
                     (pr_tp signal) (3 # 2)) = false) :
  validate_signal_before_execution fl parse_float signal indicator_data
  <> None.
Proof.
  intros Hpass.
  destruct (accepted_prices signal indicator_data Hpass) as [_ Hprices].
  destruct (Hprices entry sl Hentry Hsl) as (_ & _ & Hrr).
  specialize (Hrr tp Htp).
  apply usable_price_nonzero in Hentry, Hsl, Htp.
  destruct Hentry as [He _], Hsl as [Hs _], Htp as [Ht _].
  rewrite He, Hs, Ht, verify_risk_reward_agrees in Hunmet.
  apply negb_false_iff, Qlt_bool_iff in Hunmet.
  revert Hrr. now apply Qlt_not_le.
Qed.

End FilterFacts.

Section StoredSignalFacts.
Context (fl : Rounding) (parse_float : string -> option Q).

Lemma new_signal_within_filters (now signal_id : Z) (symbol shot : string)
    (a : Answer) (indicator_data : Indicators) :
  validate_signal_before_execution fl parse_float (proposal_of symbol a)
    indicator_data = None ->
  within_filters fl
    (new_signal now signal_id
       (signal_data_of symbol (a_decision (ans_analysis a)) a) shot).
Proof.
  intros Hv.
  destruct (accepted_prices fl parse_float _ _ Hv) as [Htrade Hprices].
  split; [exact Htrade |].
  cbn [entry_price stop_loss take_profit Signals.symbol new_signal
       signal_data_of sd_entry sd_sl sd_tp sd_symbol].
  intros He Hs.
  destruct (Hprices (ans_entry a) (ans_sl a)
              (usable_price_some _ He) (usable_price_some _ Hs))
    as (Hlo & Hhi & Hrr).
  split; [exact Hlo |]. split; [exact Hhi |].
  intros Ht. apply Hrr. exact (usable_price_some _ Ht).
Qed.

Lemma within_filters_update (s row : Signal) :
  update_of s row -> within_filters fl s -> within_filters fl row.
Proof.
  intros (_ & Hsym & Hdec & He & Hs & Ht & _) H.
  unfold within_filters in *. now rewrite Hsym, Hdec, He, Hs, Ht.
Qed.

(** Every signal in the store, whatever requests, tracker cycles, manual
    closes and restarts came before, is a BUY or SELL that met the
    filters on stop size and ratio when it was stored. *)
Theorem stored_signals_within_filters (blocking : bool)
    (actions : list Action) (s : Signal)
    (Hin : In s (signals (serve blocking fl parse_float empty_stores
                            actions))) :
  within_filters fl s.
Proof.
  set (I := fun st : Stores =>
              List.NoDup (List.map id (signals st)) /\
              forall s, In s (signals st) -> within_filters fl s).
  assert (H : I (serve blocking fl parse_float empty_stores actions)).
  { apply serve_invariant.
    - intros st a [Hids Hall]. split; [now apply act_ids |].
      intros r.
      destruct (act_signals fl parse_float blocking st a Hids)
        as [(g & Hg & E)
           | (now & sy & answer & shot & _ & _ & [ind Hv] & E)];
        rewrite E.
      + intros Hr. apply List.in_map_iff in Hr.
        destruct Hr as (x & <- & Hx).
        apply (within_filters_update x (g x) (Hg x)). now apply Hall.
      + intros Hr. apply List.in_app_iff in Hr.
        destruct Hr as [Hr | [<- | []]]; [now apply Hall |].
        now apply (new_signal_within_filters _ _ _ _ _ ind).
    - split; [constructor |]. intros r []. }
  now apply H.
Qed.

Lemma migrate_row_fixed (s : Signal) :
  is_Some (original_stop_loss s) -> migrate_row s = s.
Proof.
  intros [x Hx]. unfold migrate_row. now rewrite Hx.
Qed.

(** The migration at start-up changes no row that this server stored:
    each of them carries its original stop from the moment it is
    written. *)
Theorem startup_keeps_stored_rows (blocking : bool)
    (actions : list Action) :
  let db := signals (serve blocking fl parse_float empty_stores actions) in
  migrate_existing_signals db = db.
Proof.
  set (I := fun st : Stores =>
              List.NoDup (List.map id (signals st)) /\
              forall s, In s (signals st) ->
                        is_Some (original_stop_loss s)).
  assert (H : I (serve blocking fl parse_float empty_stores actions)).
  { apply serve_invariant.
    - intros st a [Hids Hall]. split; [now apply act_ids |].
      intros r.
      destruct (act_signals fl parse_float blocking st a Hids)
        as [(g & Hg & E) | (now & sy & answer & shot & _ & _ & _ & E)];
        rewrite E.
      + intros Hr. apply List.in_map_iff in Hr.
        destruct Hr as (x & <- & Hx).
        destruct (Hg x) as (_ & _ & _ & _ & _ & _ & _ & Ho).
        rewrite (Ho (Hall x Hx)). now apply Hall.
      + intros Hr. apply List.in_app_iff in Hr.
        destruct Hr as [Hr | [<- | []]]; [now apply Hall |].
        now eexists.
    - split; [constructor |]. intros r []. }
  intros db. unfold migrate_existing_signals.
  rewrite <- (List.map_id db) at 2.
  apply List.map_ext_in. intros s Hs. apply migrate_row_fixed.
  now apply H.
Qed.

Lemma pending_count_cleared (now : Z) (db : list Trigger)
    (symbol reason : string) :
  pending_count symbol (fst (clear_pending_triggers now db symbol reason))
  = 0%nat.
Proof.
  unfold pending_count. cbn [fst clear_pending_triggers].
  induction db as [| t ts IH]; simpl; [reflexivity |].
  destruct (pending_for symbol t) eqn:Ep.
  - rewrite pending_for_set_status by discriminate. exact IH.
  - rewrite Ep. exact IH.
Qed.

(** A request that stores a signal appends one ACTIVE row of the
    requested symbol that is within the filters, and leaves no PENDING
    trigger of that symbol behind. *)
Theorem stored_signal_clears_triggers (blocking : bool) (now : Z)
    (st : Stores) (symbol : string) (indicator_data : Indicators)
    (answer : option Answer) (m15_screenshot : string)
    (Hstored :
       signals (fst (analyze_multi_timeframe blocking fl parse_float now st
                       symbol indicator_data answer m15_screenshot))
       <> signals st) :
  let st' := fst (analyze_multi_timeframe blocking fl parse_float now st
                    symbol indicator_data answer m15_screenshot) in
  pending_count symbol (triggers st') = 0%nat /\
  exists row,
    signals st' = signals st ++ [row] /\
    id row = next_id (signals st) /\
    Signals.symbol row = symbol /\
    status row = ACTIVE /\
    within_filters fl row.
Proof.
  intros st'.
  destruct (request_effect fl parse_float blocking now st symbol
              indicator_data answer m15_screenshot)
    as [E | (a & _ & _ & _ & Hv & E & Et)]; [contradiction |].
  fold st' in E, Et. split.
  - rewrite Et. apply pending_count_cleared.
  - eexists. split; [exact E |].
    split; [reflexivity |]. split; [reflexivity |]. split; [reflexivity |].
    now apply (new_signal_within_filters _ _ _ _ _ indicator_data).
Qed.

End StoredSignalFacts.

Section ManualCloseFacts.
Context (fl : Rounding).

Lemma select_by_id_some (signal_id : Z) (db : list Signal) (s : Signal) :
  select_by_id signal_id db = Some s -> In s db /\ id s = signal_id.
Proof.
  unfold select_by_id. intros H. apply List.find_some in H.
  destruct H as [Hin Hid]. split; [assumption |]. now apply Z.eqb_eq.
Qed.

(** A manual close with a result and an exit price other than [0]
    closes the row whatever its status was, computes the pips from the
    stored entry, symbol and direction rather than from the result it is
    given, leaves the breakeven and hypothetical columns as they were,
    keeps every other row, and puts the symbol into cooldown for the next
    hour. *)
Theorem manual_close_effect (now now' : Z) (db : list Signal)
    (signal_id : Z) (s : Signal) (res : Result) (exit : Q) (note : string)
    (Hids : List.NoDup (List.map id db))
    (Hrow : select_by_id signal_id db = Some s)
    (Hexit : ~ (exit == 0)%Q)
    (Hsoon : now' < now + hour_us) :
  let pnl := calculate_pips fl (entry_price s) exit (symbol s) (decision s) in
  let out := close_signal_manually fl now db signal_id (Some res) (Some exit)
               note in
  snd out = ClosedManually signal_id res (round1 fl pnl) /\
  List.map id (fst out) = List.map id db /\
  (forall r, In r db -> id r <> signal_id -> In r (fst out)) /\
  (exists row,
     select_by_id signal_id (fst out) = Some row /\
     same_plan s row /\
     status row = CLOSED /\ result row = Some res /\
     exit_price row = Some exit /\ exit_timestamp row = Some now /\
     pnl_pips row = Some pnl /\
     duration_minutes row = Some (Z.quot (now - timestamp s) minute) /\
     current_stop_loss row = current_stop_loss s /\
     breakeven_triggered row = breakeven_triggered s /\
     hypothetical_result row = hypothetical_result s /\
     breakeven_impact row = breakeven_impact s) /\
  is_symbol_analysis_allowed now' (fst out) (symbol s) = false.
Proof.
  intros pnl out.
  destruct (select_by_id_some _ _ _ Hrow) as [Hin Hid].
  set (f := set_result now (Z.quot (now - timestamp s) minute) res exit pnl
              (Some note)).
  set (g := fun r : Signal => if id r =? signal_id then f r else r).
  assert (Hg : forall r, id (g r) = id r).
  { intros r. unfold g. now destruct (id r =? signal_id). }
  assert (Hout : out = (List.map g db,
                        ClosedManually signal_id res (round1 fl pnl))).
  { unfold out, close_signal_manually.
    rewrite (usable_price_some exit Hexit), Hrow.
    unfold update_signal_result. rewrite Hrow. reflexivity. }
  assert (Hlook : select_by_id signal_id (List.map g db) = Some (f s)).
  { rewrite <- Hid at 1. rewrite (pass_row_lookup g db s Hg Hids Hin).
    unfold g. now rewrite Hid, Z.eqb_refl. }
  rewrite Hout. cbn [fst snd].
  split; [reflexivity |]. split; [now apply map_ids |].
  split; [| split].
  - intros r Hr Hne. apply List.in_map_iff. exists r.
    split; [| exact Hr]. unfold g.
    destruct (id r =? signal_id) eqn:E; [| reflexivity].
    apply Z.eqb_eq in E. contradiction.
  - exists (f s). split; [exact Hlook |].
    unfold same_plan, f. cbn. tauto.
  - assert (Hin' : In (f s) (List.map g db)).
    { apply select_by_id_some in Hlook. tauto. }
    exact (cooldown_blocks now' _ (f s) now Hin' eq_refl eq_refl Hsoon).
Qed.

End ManualCloseFacts.

Section ResponseFacts.


Lemma required_present (data : gmap string jv) :
  forallb (fun field => bool_decide (is_Some (data !! field)))
    required_fields = true ->
  forall field, In field required_fields -> is_Some (data !! field).
Proof.
  intros H field Hin. rewrite List.forallb_forall in H.
  specialize (H field Hin). now rewrite bool_decide_eq_true in H.
Qed.

Lemma arrays_keep (data : gmap string jv) (field : string) :
  field <> "confluence_factors"%string -> field <> "risk_factors"%string ->
  alter as_array "risk_factors"%string
    (alter as_array "confluence_factors"%string data) !! field
  = data !! field.
Proof.
  intros H1 H2. rewrite lookup_alter_ne by congruence.
  now rewrite lookup_alter_ne by congruence.
Qed.

(** What [parse_ai_response] hands on after its checks: the three
    required fields; a decision among BUY, SELL and WAIT that is the
    decision of the answer or WAIT, never a trade the answer did not
    name; and for a BUY or SELL the fields entry, sl, tp and risk_reward,
    none of them [null]. *)
Theorem check_parsed_postcondition (data out : gmap string jv)
    (Hparsed : check_parsed data = Some out) :
  (forall field, In field required_fields -> is_Some (out !! field)) /\
  exists decision,
    out !! "decision"%string = Some (VStr decision) /\
    In decision decisions /\
    (decision = "WAIT"%string \/
     data !! "decision"%string = Some (VStr decision)) /\
    (decision <> "WAIT"%string ->
     forall field, In field trade_fields ->
                   is_null_or_missing out field = false).
Proof.
  unfold check_parsed in Hparsed.
  destruct (forallb _ required_fields) eqn:Hreq; [| discriminate].
  pose proof (required_present data Hreq) as Hfields.
  cbn [negb] in Hparsed.
  destruct (data !! "decision"%string) as [[| | | d | |] |] eqn:Hd;
    try discriminate.
  destruct (existsb (String.eqb d) decisions) eqn:Hin; [| discriminate].
  cbn [negb] in Hparsed.
  assert (Hdec : In d decisions).
  { apply List.existsb_exists in Hin. destruct Hin as (x & Hx & Hdx).
    apply String.eqb_eq in Hdx. now subst x. }
  set (data2 := alter as_array "risk_factors"%string
                  (alter as_array "confluence_factors"%string data))
    in Hparsed.
  assert (Hkeep : forall field, In field required_fields ->
                                data2 !! field = data !! field).
  { intros field Hf. apply arrays_keep;
      intros ->; simpl in Hf; intuition discriminate. }
  assert (Hreq2 : forall field, In field required_fields ->
                                is_Some (data2 !! field)).
  { intros field Hf. rewrite (Hkeep field Hf). now apply Hfields. }
  assert (Hd2 : data2 !! "decision"%string = Some (VStr d)).
  { rewrite Hkeep; [exact Hd | now left]. }
  destruct (String.eqb d "BUY" || String.eqb d "SELL") eqn:Htrade.
  - destruct (List.find (is_null_or_missing data2) trade_fields)
      as [field |] eqn:Hfind.
    + destruct (<["decision"%string := VStr "WAIT"]> data2
                  !! "reasoning"%string ≫= add_note (conversion_note field))
        as [reasoning |] eqn:Hnote; [| discriminate].
      injection Hparsed as <-. split.
      * intros f Hf. simpl in Hf.
        destruct Hf as [<- | [<- | [<- | []]]].
        -- rewrite lookup_insert_ne by discriminate.
           rewrite lookup_insert. now eexists.
        -- rewrite lookup_insert. now eexists.
        -- rewrite !lookup_insert_ne by discriminate.
           apply Hreq2. simpl. tauto.
      * exists "WAIT"%string.
        rewrite lookup_insert_ne by discriminate. rewrite lookup_insert.
        split; [reflexivity |]. split; [simpl; tauto |].
        split; [now left |]. intros Hne. now contradiction Hne.
    + injection Hparsed as <-. split; [exact Hreq2 |].
      exists d. split; [exact Hd2 |]. split; [exact Hdec |].
      split; [now right |]. intros _ field Hf.
      exact (List.find_none _ _ Hfind field Hf).
  - injection Hparsed as <-. split; [exact Hreq2 |].
    exists d. split; [exact Hd2 |]. split; [exact Hdec |].
    split; [now right |]. intros Hne. exfalso.
    apply orb_false_iff in Htrade. destruct Htrade as [Hb Hs].
    apply String.eqb_neq in Hb, Hs. simpl in Hdec. intuition congruence.
Qed.

End ResponseFacts.

Section ReportFacts.
Context (fl : Rounding).

Lemma fsum_nullable_none (xs : list (option Q)) (acc : option Q) :
  fold_left (fun acc x =>
               match acc, x with
               | Some a, Some v => Some (fadd fl a v)
               | _, _ => None
               end) xs acc = None <->
  acc = None \/ In None xs.
Proof.
  revert acc. induction xs as [| x xs IH]; intros acc; simpl.
  - tauto.
  - rewrite IH. destruct acc as [a |], x as [v |]; intuition congruence.
Qed.

Lemma average_none (xs : list (option Q)) :
  average fl xs = None <-> In None xs.
Proof.
  unfold average, fsum_nullable. destruct xs as [| x xs].
  - simpl. split; [discriminate | tauto].
  - destruct (fold_left _ (x :: xs) (Some 0%Q)) eqn:E.
    + split; [discriminate |]. intros H.
      assert (Hn : fold_left
                (fun acc x => match acc, x with
                              | Some a, Some v => Some (fadd fl a v)
                              | _, _ => None
                              end) (x :: xs) (Some 0%Q) = None)
        by (apply fsum_nullable_none; now right).
      congruence.
    + split; [| reflexivity]. intros _.
      apply fsum_nullable_none in E. destruct E as [E | E];
        [discriminate | assumption].
Qed.

Lemma omap_nil (f : Signal -> option Z) (l : list Signal) :
  omap f l = [] <-> forall s, In s l -> f s = None.
Proof.
  induction l as [| x l IH]; simpl.
  - split; [intros _ s [] | reflexivity].
  - destruct (f x) eqn:E.
    + split; [discriminate |]. intros H.
      specialize (H x (or_introl eq_refl)). congruence.
    + rewrite IH. split.
      * intros H s [<- | Hs]; [assumption | now apply H].
      * intros H s Hs. apply H. now right.
Qed.

Lemma stats_of_missing_iff (days : Z) (window : list Signal) :
  stats_of fl days window = None <->
  window = [] \/
  (exists s, In s window /\
             (has_result WIN s = true \/ has_result LOSS s = true) /\
             pnl_pips s = None) \/
  (forall s, In s window -> truthy_duration s = None).
Proof.
  unfold stats_of.
  destruct window as [| s0 w]; [tauto |].
  cbv beta iota zeta. remember (s0 :: w) as window eqn:Hw.
  destruct (average fl (List.map pnl_pips (List.filter (has_result WIN)
                                             window))) as [aw |] eqn:Ew.
  - destruct (average fl (List.map pnl_pips (List.filter (has_result LOSS)
                                               window))) as [al |] eqn:El.
    + destruct (omap truthy_duration window) as [| d ds] eqn:Ed.
      * split; [| reflexivity]. intros _. right. right.
        now apply omap_nil.
      * split; [discriminate |].
        intros [H | [(s & Hs & [Hr | Hr] & Hp) | H]].
        -- congruence.
        -- exfalso.
           assert (Hn : average fl (List.map pnl_pips
                          (List.filter (has_result WIN) window)) = None).
           { apply average_none. rewrite <- Hp. apply List.in_map.
             apply List.filter_In. tauto. }
           congruence.
        -- exfalso.
           assert (Hn : average fl (List.map pnl_pips
                          (List.filter (has_result LOSS) window)) = None).
           { apply average_none. rewrite <- Hp. apply List.in_map.
             apply List.filter_In. tauto. }
           congruence.
        -- exfalso. apply omap_nil in H. congruence.
    + split; [| reflexivity]. intros _. right. left.
      apply average_none in El. apply List.in_map_iff in El.
      destruct El as (s & Hp & Hs). apply List.filter_In in Hs.
      exists s. tauto.
  - split; [| reflexivity]. intros _. right. left.
    apply average_none in Ew. apply List.in_map_iff in Ew.
    destruct Ew as (s & Hp & Hs). apply List.filter_In in Hs.
    exists s. tauto.
Qed.

Lemma cutoff_date_spec (now days : Z) :
  -999999999 <= days <= 999999999 /\ 0 <= now - days * day < 3652059 * day ->
  cutoff_date now days = Some (now - days * day).
Proof.
  intros [Hd Hc]. unfold cutoff_date.
  rewrite (proj2 (datetime_range_spec _) Hc).
  rewrite (proj2 (timedelta_range_spec _)); [reflexivity |].
  unfold day. lia.
Qed.

Lemma cutoff_date_none (now days : Z) :
  ~ (-999999999 <= days <= 999999999 /\
     0 <= now - days * day < 3652059 * day) ->
  cutoff_date now days = None.
Proof.
  intros H. unfold cutoff_date.
  destruct (timedelta_range (days * day)) eqn:Htd; [| reflexivity].
  destruct (datetime_range (now - days * day)) eqn:Hdt; [| reflexivity].
  exfalso. apply H.
  apply timedelta_range_spec in Htd. apply datetime_range_spec in Hdt.
  split; [| exact Hdt]. unfold day in Htd. lia.
Qed.

(** The report is missing exactly when the cutoff date cannot be
    computed ([days] beyond 999999999 either way, or a cutoff outside the
    years 1 to 9999), when no closed signal falls in the window, when a
    WIN or LOSS in the window carries no pips, or when no signal in the
    window has a duration other than [0]. *)
Theorem report_missing_iff (now days : Z) (db : list Signal) :
  let window := List.filter (in_window (now - days * day)) db in
  calculate_performance_stats fl now days db = None <->
  ~ (-999999999 <= days <= 999999999 /\
     0 <= now - days * day < 3652059 * day) \/
  window = [] \/
  (exists s, In s window /\
             (has_result WIN s = true \/ has_result LOSS s = true) /\
             pnl_pips s = None) \/
  (forall s, In s window -> truthy_duration s = None).
Proof.
  intros window. unfold calculate_performance_stats.
  destruct (Z_le_dec (-999999999) days) as [H1 | H1];
    [destruct (Z_le_dec days 999999999) as [H2 | H2];
     [destruct (Z_le_dec 0 (now - days * day)) as [H3 | H3];
      [destruct (Z_lt_dec (now - days * day) (3652059 * day))
         as [H4 | H4] | ] | ] | ].
  1:{ rewrite cutoff_date_spec by tauto. fold window.
      rewrite stats_of_missing_iff. tauto. }
  all: rewrite cutoff_date_none by tauto; tauto.
Qed.

(** The grade is F exactly when the total of pips is negative: no win
    rate and no profit factor rescues a losing total, and none is needed
    for a D. *)
Theorem grade_F_iff (win_rate profit_factor total_pips : Q) :
  get_performance_grade fl win_rate profit_factor total_pips = GradeF <->
  (total_pips < 0)%Q.
Proof.
  unfold get_performance_grade.
  destruct (Qle_bool 0 total_pips) eqn:E.
  - assert (Hle : (0 <= total_pips)%Q) by now apply Qle_bool_iff.
    rewrite !andb_true_r.
    split.
    + repeat match goal with
             | |- context [if ?c then _ else _] => destruct c
             end; discriminate.
    + intros H. exfalso. revert Hle. now apply Qlt_not_le.
  - assert (Hlt : (total_pips < 0)%Q).
    { apply Qnot_le_lt. intros H. apply Qle_bool_iff in H. congruence. }
    assert (Hz : Qlt_bool 0 total_pips = false).
    { apply Qlt_bool_false. now apply Qlt_le_weak. }
    rewrite Hz, !andb_false_r. tauto.
Qed.

End ReportFacts.

(** ** The further properties on the sample data *)

Lemma tracker_close_starts_cooldown_witness :
  let feed := quote "EURUSD" (10975 # 10000) in
  let db := one_signal eurusd_buy in
  let s := new_signal 0 1 eurusd_buy "m15.png" in
  let row := eurusd_buy_lost in
  (List.NoDup (List.map id db) /\ In s db /\ is_active s = true /\
   select_by_id (id s) (check_active_signals exact feed (20 * minute) db)
   = Some row /\
   status row = CLOSED /\ 30 * minute < 20 * minute + hour_us) /\
  is_symbol_analysis_allowed (30 * minute)
    (check_active_signals exact feed (20 * minute) db) (symbol s) = false.
Proof.
  intros feed db s row.
  assert (H1 : List.NoDup (List.map id db)).
  { repeat constructor. simpl. tauto. }
  assert (H2 : In s db) by (left; reflexivity).
  assert (H3 : is_active s = true) by (vm_compute; reflexivity).
  assert (H4 : select_by_id (id s)
                 (check_active_signals exact feed (20 * minute) db)
               = Some row) by (vm_compute; reflexivity).
  assert (H5 : status row = CLOSED) by (vm_compute; reflexivity).
  assert (H6 : 30 * minute < 20 * minute + hour_us)
    by (vm_compute; reflexivity).
  split; [tauto |].
  exact (tracker_close_starts_cooldown exact feed (20 * minute)
           (30 * minute) db s row H1 H2 H3 H4 H5 H6).
Defined.

Lemma accepted_proposal_witness :
  let signal := proposal_of "EURUSD" buy_answer in
  validate_signal_before_execution exact no_float signal no_indicators
  = None /\
  is_trade (pr_decision signal) = true /\
  (pr_decision signal = BUY -> (indicator_rsi no_indicators <= 75)%Q) /\
  (pr_decision signal = SELL -> (25 <= indicator_rsi no_indicators)%Q) /\
  forall entry sl,
    usable_price (pr_entry signal) = Some entry ->
    usable_price (pr_sl signal) = Some sl ->
    (10 <= stop_size_pips exact (pr_symbol signal) entry sl)%Q /\
    (stop_size_pips exact (pr_symbol signal) entry sl <= 100)%Q /\
    forall tp, usable_price (pr_tp signal) = Some tp ->
               (3 # 2 <= risk_reward_of exact entry sl tp)%Q /\
               ~ (fsub exact entry sl == 0)%Q.
Proof.
  intros signal.
  assert (H : validate_signal_before_execution exact no_float signal
                no_indicators = None) by (vm_compute; reflexivity).
  split; [exact H |].
  exact (accepted_proposal exact no_float signal no_indicators H).
Defined.

Lemma unmet_ratio_is_rejected_witness :
  let signal := thin_proposal in
  (usable_price (pr_entry signal) = Some (11000 # 10000) /\
   usable_price (pr_sl signal) = Some (10980 # 10000) /\
   usable_price (pr_tp signal) = Some (11010 # 10000) /\
   fst (verify_risk_reward exact (pr_entry signal) (pr_sl signal)
          (pr_tp signal) (3 # 2)) = false) /\
  validate_signal_before_execution exact no_float signal no_indicators
  <> None.
Proof.
  intros signal.
  assert (H1 : usable_price (pr_entry signal) = Some (11000 # 10000))
    by (vm_compute; reflexivity).
  assert (H2 : usable_price (pr_sl signal) = Some (10980 # 10000))
    by (vm_compute; reflexivity).
  assert (H3 : usable_price (pr_tp signal) = Some (11010 # 10000))
    by (vm_compute; reflexivity).
  assert (H4 : fst (verify_risk_reward exact (pr_entry signal)
                      (pr_sl signal) (pr_tp signal) (3 # 2)) = false)
    by (vm_compute; reflexivity).
  split; [tauto |].
  exact (unmet_ratio_is_rejected exact no_float signal no_indicators
           _ _ _ H1 H2 H3 H4).
Defined.

Lemma stored_signals_within_filters_witness :
  let actions :=
    [Request 0 "EURUSD" no_indicators (Some buy_answer) "m15.png";
     Track (quote "EURUSD" (11020 # 10000)) (10 * minute)] in
  let s := eurusd_buy_protected in
  In s (signals (serve true exact no_float empty_stores actions)) /\
  within_filters exact s.
Proof.
  intros actions s.
  assert (H : In s (signals (serve true exact no_float empty_stores
                               actions)))
    by (left; vm_compute; reflexivity).
  split; [exact H |].
  exact (stored_signals_within_filters exact no_float true actions s H).
Defined.

Lemma stored_signal_clears_triggers_witness :
  let st' := fst (analyze_multi_timeframe true exact no_float (5 * minute)
                    one_trigger "EURUSD" no_indicators (Some buy_answer)
                    "m15.png") in
  signals st' <> signals one_trigger /\
  pending_count "EURUSD" (triggers st') = 0%nat /\
  exists row,
    signals st' = signals one_trigger ++ [row] /\
    id row = next_id (signals one_trigger) /\
    Signals.symbol row = "EURUSD"%string /\
    status row = ACTIVE /\
    within_filters exact row.
Proof.
  intros st'.
  assert (H : signals st' <> signals one_trigger)
    by (vm_compute; discriminate).
  split; [exact H |].
  exact (stored_signal_clears_triggers exact no_float true (5 * minute)
           one_trigger "EURUSD" no_indicators (Some buy_answer) "m15.png" H).
Defined.

Lemma manual_close_effect_witness :
  let db := one_signal eurusd_buy in
  let s := new_signal 0 1 eurusd_buy "m15.png" in
  let exit := 10990 # 10000 in
  let pnl := calculate_pips exact (entry_price s) exit (symbol s)
               (decision s) in
  let out := close_signal_manually exact (30 * minute) db 1 (Some WIN)
               (Some exit) "closed by hand" in
  (List.NoDup (List.map id db) /\ select_by_id 1 db = Some s /\
   ~ (exit == 0)%Q /\ 40 * minute < 30 * minute + hour_us) /\
  snd out = ClosedManually 1 WIN (round1 exact pnl) /\
  List.map id (fst out) = List.map id db /\
  (forall r, In r db -> id r <> 1 -> In r (fst out)) /\
  (exists row,
     select_by_id 1 (fst out) = Some row /\
     same_plan s row /\
     status row = CLOSED /\ result row = Some WIN /\
     exit_price row = Some exit /\
     exit_timestamp row = Some (30 * minute) /\
     pnl_pips row = Some pnl /\
     duration_minutes row
     = Some (Z.quot (30 * minute - timestamp s) minute) /\
     current_stop_loss row = current_stop_loss s /\
     breakeven_triggered row = breakeven_triggered s /\
     hypothetical_result row = hypothetical_result s /\
     breakeven_impact row = breakeven_impact s) /\
  is_symbol_analysis_allowed (40 * minute) (fst out) (symbol s) = false.
Proof.
  intros db s exit pnl out.
  assert (H1 : List.NoDup (List.map id db)).
  { repeat constructor. simpl. tauto. }
  assert (H2 : select_by_id 1 db = Some s) by (vm_compute; reflexivity).
  assert (H3 : ~ (exit == 0)%Q) by (vm_compute; discriminate).
  assert (H4 : 40 * minute < 30 * minute + hour_us)
    by (vm_compute; reflexivity).
  split; [tauto |].
  exact (manual_close_effect exact (30 * minute) (40 * minute) db 1 s WIN
           exit "closed by hand" H1 H2 H3 H4).
Defined.

Lemma check_parsed_postcondition_witness :
  let data := buy_without_target in
  let out := buy_without_target_parsed in
  check_parsed data = Some out /\
  (forall field, In field required_fields -> is_Some (out !! field)) /\
  exists decision,
    out !! "decision"%string = Some (VStr decision) /\
    In decision decisions /\
    (decision = "WAIT"%string \/
     data !! "decision"%string = Some (VStr decision)) /\
    (decision <> "WAIT"%string ->
     forall field, In field trade_fields ->
                   is_null_or_missing out field = false).
Proof.
  intros data out.
  assert (H : check_parsed data = Some out) by (vm_compute; reflexivity).
  split; [exact H |].
  exact (check_parsed_postcondition data out H).
Defined.
